(* ===== verification/_CoqProject ===== *)
-Q . S2P
Prelude.v
Dom.v
DomWf.v
Acyclic.v
ClassList.v
Timers.v
Widget.v
Host.v
Safety.v
Page.v
Methods.v
Callbacks.v
Reveal.v
Behaviour.v
Spec.v
Scenarios.v
Controls.v
