(* ===== verification/Prelude.v ===== *)
(** * PcfDoom: a verification development of [src/PcfDoomComponent/index.ts]

    The program is a single Power Apps Component Framework (PCF) control,
    the class [PcfDoomComponent].  The host framework calls its lifecycle
    methods; the methods manipulate the browser DOM and schedule timers.
    The parts and how they interact:

    - the host (PCF runtime) creates a container [div] in the page and calls
      [init], then [updateView] whenever a property changes, [getOutputs]
      and finally [destroy];
    - [init] builds a decoy [textarea] (id ["seriousTextArea"]), a wrapper
      [div] ([_container]) and the "BOSS KEY" [button] ([_bossKey]) with a
      click listener bound to [onBossKeyClick];
    - [updateView] reads the option set [DoomEnablerOptionSet]; the first
      time it equals 5 it sets the one-shot flag [_controlViewRendered],
      hides the textarea found by [document.getElementById] and calls
      [renderDoomIframe], which appends an [iframe] and the button to the
      wrapper and schedules a 100 ms slide-in animation with [setTimeout];
    - the button's click handler [onBossKeyClick] looks the iframe up with
      [querySelector], schedules a fly-out after 10 ms, which schedules
      after 500 ms the removal of the wrapper and the re-display of the
      textarea.

    Files (in dependency order, as [_CoqProject] lists them):

    - [Prelude] (this file): the JavaScript exception type, a state and
      exception monad [ST] (instances of stdpp's [MRet]/[MBind], so the
      code is written with [x ← c; k]), its laws, the hint database
      [pcf] and the tactic [st_unfold].
    - [Dom]: the part of the browser DOM the control uses, as a store
      [gmap N node] with parent pointers and ordered child lists:
      [createElement], [appendChild] (with the move semantics and the
      hierarchy check), [removeChild], [parentNode], attributes, [classList],
      inline [style], [addEventListener], [getElementById] and
      [querySelector('.c')] in tree order.  This is the platform, not code
      of the repository: it is modelled from the DOM standard.
    - [DomWf]: the well-formedness of a store ([dom_wf]: the root exists,
      identifiers are fresh, [c] is among [p]'s children exactly when [p]
      is [c]'s parent, no node is its own parent), a checker [dom_wfb]
      proved to decide it, and its preservation by every DOM operation
      the control calls; [appendChild]'s effect and error results, and
      the append/remove round trip; [is_ancestor], the parent chain as an
      inductive relation.
    - [Acyclic]: [acyclic] (no node is its own ancestor, decided by
      [acyclicb]) and [forest] ([dom_wf] and acyclic).  On a forest the
      ancestor chain is a list of distinct nodes of the store, so the fuel
      of [ancestors] and [tree_order] (the store's size) is enough: the
      hierarchy check and [connected] decide the ancestor relation
      ([inclusive_ancestor_iff]), [tree_order d n] lists exactly [n] and
      its descendants ([tree_order_iff]), and [getElementById] and
      [querySelector] find an element whenever a matching one is in the
      tree ([getElementById_found], [querySelector_class_found]).
      [appendChild] keeps a forest acyclic because of that check.  The
      class [DomInv] is the interface of a store invariant kept by every
      DOM operation; [dom_wf] and [forest] are its instances, and
      [same_links] (same parent links) is an equivalence under which
      [is_ancestor] and [acyclic] are [Proper].
    - [ClassList]: the round trip between the [class] attribute and its
      token list ([words] of the serialisation of valid tokens), so that
      [classList.add(t)] makes [has_class] (the [.t] selector) true.
    - [Timers]: the HTML timer list behind [setTimeout]: a clock, a list of
      pending tasks with due time and sequence number, the choice of the
      earliest task (ties in scheduling order).
    - [Widget]: the class itself.  [this] is an instance record in a
      table, the JS world is [world] (DOM, timers, instances), and every
      method and every closure the code creates is a definition in [ST
      world]: [init], [updateView], [renderDoomIframe],
      [createIFrameElement], [getOutputs], [destroy], [onBossKeyClick]
      and the three timer callbacks (defunctionalised as [closure]).
    - [Host]: the PCF runtime and the browser event loop as a step function
      [host_step] on worlds: mounting a control, property updates, user
      clicks (dispatched along the target's ancestors, as a bubbling
      event), timer turns, destroy; [drain] runs the timers until idle.
      [destroy_is_noop]: a [Destroy] event changes nothing that follows.
    - [Safety]: [keeps P m], the statement [m] keeps the store invariant
      [P], for any instance [P] of [DomInv]: closed under bind and proved
      of every primitive, hence of every method and of every host step,
      once for both instances.  Along [runs] (any sequence of host events,
      any number of controls) the DOM stays well formed and a forest (a
      consequence of the DOM model, used by the later files).  On
      a well-formed DOM the boss key's handler [completes], and its
      fallback branch removes the wrapper at once.
    - [Page]: one control mounted on an empty page.  [reachable] is the
      closure of [host_step] from the mount; [reachable_shape] proves that
      every reachable world is [shape p] for parameters [p] satisfying
      [valid] (the flag, the decoy's display, whether the wrapper is in the
      page, the iframe's style, the timer list), one event at a time, each
      case computed by [vm_compute] on symbolic parameters.
    - [Behaviour]: the properties of the page derived from the invariant:
      the reveal ([update_reveals]), the decoy before it, the decoy hidden
      exactly while the frame is shown, the dead fallback branch of
      [onBossKeyClick] ([click_finds_iframe]), termination of the timer
      loop with an explicit measure ([drain_terminates]) and the boss
      key's promise ([boss_key_restores_decoy], a liveness property proved
      with a "dismissal under way" invariant), the 500 ms bound on pending
      timers, the types of the fields, and the equivalence of a dispatched
      click on the boss key with a direct call of its handler.
    - [Methods]: [init] and [renderDoomIframe] on an arbitrary page, run
      symbolically with one rewriting lemma per primitive statement
      ([bind_dom_create], [bind_update_top], [bind_this_ref], ...):
      [init_run] and [renderDoomIframe_run] give their exact result on
      any world (each DOM call that can throw is a branch), and the
      theorems give their effect node by node on a well-formed page, the
      round trip between the iframe's class and the boss key's selector,
      and the error path of [updateView] called before [init].
    - [Callbacks]: the fly-out branch of [onBossKeyClick] and the timer
      callbacks [animateIn], [flyOut], [removeContainer] on any forest
      page, with any number of controls: the exact result of each, and
      the whole boss key sequence (the click, then the two turns of the
      event loop that run the callbacks it schedules) that detaches the
      container and shows a connected decoy.
    - [Reveal]: [updateView]'s reveal on any forest page: the flag, the
      first element with the decoy's id hidden (the aliasing between
      controls made exact by the adequacy of [getElementById]), the
      iframe rendered; [node_kind] (tag, attributes, listeners) is what
      the reveal leaves alone on the other nodes.
    - [Spec]: the abstract contract, a labelled machine Decoy -> Revealed
      -> Dismissed with what the page shows in each phase, the refinement
      theorem [refinement] (every host step is a machine step) and its
      corollary that the phase never goes back.
    - [Scenarios]: the decoys of several controls share an id: on any
      forest page the reveal hides the first element with that id in the
      document, and when it is another control's decoy the caller's own
      decoy stays on screen ([reveal_hides_first_decoy]).
    - [Controls]: any number of controls on one page, from the empty
      page.  [page_ok] is the page invariant: a forest under the [body],
      buttons without children, every mounted control's fields pointing to
      nodes of the right tags ([ctl_ok]), every listener and pending timer
      a closure of a mounted control with live references
      ([closure_ok]), every boss key either detached or beside its
      control's iframe in its container ([links_ok]).  Each host step
      keeps it ([mount_page_ok] through [host_mount_spec], the effect of
      the mount; [updateView_page_ok] through [Reveal]; every closure
      through [Callbacks]), so it holds on every run ([runs_page_ok]);
      on such pages no call of the host throws ([no_exception]) and the
      boss key's handler never takes its fallback branch
      ([boss_key_flies_out]).

    Theorem groups: guards of the methods on arbitrary worlds (Widget),
    the timer list (Timers), the DOM's invariant, errors and round trips
    (DomWf, ClassList), acyclicity and the adequacy of the traversal fuel
    (Acyclic), the DOM invariants over all runs and the absence of
    exceptions in the boss key's handler (Safety), the methods on an
    arbitrary page and their error path (Methods), the boss key's
    branches and callbacks on an arbitrary page (Callbacks), the reveal on
    an arbitrary page (Reveal), the single-control page invariant
    (Page), the multi-control page invariant and the absence of
    exceptions in every run (Controls), functional, safety, liveness,
    termination, bounds, type and equivalence properties of the page
    (Behaviour), refinement (Spec), the shared decoy id (Scenarios) and
    the empty [destroy] (Host).

    Fuel and bounds.  Tree traversals ([getElementById], [querySelector],
    the ancestor chain) recurse over a store, not a structure, and take as
    fuel the number of nodes in the store.  That is enough on a forest
    ([Acyclic]): the chain of a node, with the node in front, lists
    distinct nodes of the store ([ancestors_fuel_length]), so more fuel
    gives the same chain ([ancestors_fuel_enough]), and a descendant lies
    at a depth below the store's size, which [tree_order] reaches
    ([tree_order_iff]).  Time is in milliseconds as [N]; [setTimeout]
    clamps a negative delay to 0 as the HTML standard does; the longest
    delay the code passes is 500 ms, the horizon [within 500] that
    [Page.valid] keeps.  The timer loop's bound is [timer_measure]: a
    pending fly-out counts 2 (it schedules the removal), any other
    callback 1, and every turn lowers the sum.

    Not modelled: the rendering of CSS transitions (the style values are
    kept as the strings the code writes, and the animations are the timer
    callbacks that write them), the content of the iframe, the generated
    [ManifestTypes] (an option set is [option Z], [null] being [None]),
    the timer nesting clamp of the HTML standard (the code never nests
    more than two timers), the validity of CSS values (the invalid font
    shorthand [font = "Segoe UI"] is kept as written), [notifyOutputChanged]
    and the session [state] (the code never uses them).  The exact
    page invariant [Page.valid] (what the page shows, the style of each
    node, the timer list) covers one control; with several controls on a
    page the development proves the structural invariant [Controls.page_ok]
    and the absence of exceptions over all runs, the effect of each method
    and callback on an arbitrary page ([Methods], [Callbacks], [Reveal]),
    and the effect of the shared decoy id ([Scenarios]); what several
    controls show is not characterised in general. *)

From stdpp Require Export base gmap strings list.
From Stdlib Require Export NArith ZArith.

(** ** JavaScript exceptions the modelled code can raise *)

Inductive js_error :=
  | TypeError               (** property access on [undefined] / [null] *)
  | NotFoundError           (** [removeChild] of a node that is not a child *)
  | HierarchyRequestError.  (** [appendChild] that would create a cycle *)

#[export] Instance js_error_eq_dec : EqDecision js_error.
Proof. solve_decision. Defined.

(** The outcome of a statement: a value, or an exception that unwinds. *)
Inductive outcome (A : Type) :=
  | Ret (a : A)
  | Throw (e : js_error).
Arguments Ret {A} a.
Arguments Throw {A} e.

(** [outcome] is itself a monad: the pure DOM operations that can throw
    are written in it. *)
#[export] Instance outcome_ret : MRet outcome := fun A a => Ret a.
#[export] Instance outcome_bind : MBind outcome := fun A B f m =>
  match m with Ret a => f a | Throw e => Throw e end.

Lemma outcome_bind_Ret {A B} (a : A) (f : A -> outcome B) :
  (Ret a ≫= f) = f a.
Proof. reflexivity. Qed.

Lemma outcome_bind_Throw {A B} e (f : A -> outcome B) :
  (Throw e ≫= f) = Throw e.
Proof. reflexivity. Qed.

Lemma outcome_bind_Ret_inv {A B} (m : outcome A) (f : A -> outcome B) b :
  (m ≫= f) = Ret b -> exists a, m = Ret a /\ f a = Ret b.
Proof. destruct m; simpl; [eauto | discriminate]. Qed.

(** ** The state and exception monad

    An exception keeps the state reached when it is thrown: the effects a
    handler performed before the throw stay visible, as in JavaScript. *)

Definition ST (S A : Type) : Type := S -> outcome A * S.

Section ST.
Context {S : Type}.

#[export] Instance st_ret : MRet (ST S) := fun A a s => (Ret a, s).
#[export] Instance st_bind : MBind (ST S) := fun A B f m s =>
  match m s with
  | (Ret a, s') => f a s'
  | (Throw e, s') => (Throw e, s')
  end.

Definition throw {A} (e : js_error) : ST S A := fun s => (Throw e, s).
Definition get : ST S S := fun s => (Ret s, s).
Definition put (s : S) : ST S unit := fun _ => (Ret tt, s).
Definition modify (f : S -> S) : ST S unit := fun s => (Ret tt, f s).

(** Lift a fallible pure update ([Err] keeps the state). *)
Definition lift_res (f : S -> outcome S) : ST S unit := fun s =>
  match f s with
  | Ret s' => (Ret tt, s')
  | Throw e => (Throw e, s)
  end.

(** Run a statement for its effect on the state. *)
Definition exec {A} (m : ST S A) (s : S) : S := snd (m s).

(** JavaScript's [if (x) { ... }] on an optional reference. *)
Definition when_some {A} (o : option A) (k : A -> ST S unit) : ST S unit :=
  match o with Some a => k a | None => mret tt end.

Lemma st_bind_run {A B} (m : ST S A) (f : A -> ST S B) s :
  (m ≫= f) s = match m s with
               | (Ret a, s') => f a s'
               | (Throw e, s') => (Throw e, s')
               end.
Proof. reflexivity. Qed.

Lemma st_ret_run {A} (a : A) s : (mret a : ST S A) s = (Ret a, s).
Proof. reflexivity. Qed.

Lemma st_bind_ret_l {A B} (a : A) (f : A -> ST S B) :
  (mret a ≫= f) = f a.
Proof. reflexivity. Qed.

Lemma st_bind_ret_r {A} (m : ST S A) s : (m ≫= mret) s = m s.
Proof. rewrite st_bind_run. by destruct (m s) as [[] ?]. Qed.

Lemma st_bind_assoc {A B C} (m : ST S A) (f : A -> ST S B) (g : B -> ST S C) s :
  ((m ≫= f) ≫= g) s = (m ≫= (fun a => f a ≫= g)) s.
Proof. rewrite !st_bind_run. by destruct (m s) as [[] ?]. Qed.

Lemma st_bind_throw {A B} e (f : A -> ST S B) s :
  (throw e ≫= f) s = (Throw e, s).
Proof. reflexivity. Qed.

(** Reasoning about a program through its final state. *)
Lemma exec_bind_ret {A B} (m : ST S A) (f : A -> ST S B) s a s' :
  m s = (Ret a, s') -> exec (m ≫= f) s = exec (f a) s'.
Proof. intros H. unfold exec. by rewrite st_bind_run, H. Qed.

Lemma exec_bind_throw {A B} (m : ST S A) (f : A -> ST S B) s e s' :
  m s = (Throw e, s') -> exec (m ≫= f) s = s'.
Proof. intros H. unfold exec. by rewrite st_bind_run, H. Qed.
End ST.

Arguments st_ret : simpl never.
Arguments st_bind : simpl never.
Arguments outcome_bind : simpl never.

(** ** Notations of the development *)

Declare Scope pcf_scope.
Delimit Scope pcf_scope with pcf.
Open Scope pcf_scope.

(** [c ⇓ s] : the statement [c] completes normally, ending in state [s]. *)
Notation "c '⇓' s" := (exists a, c = (Ret a, s))
  (at level 70, no associativity) : pcf_scope.

(** ** Automation *)

Create HintDb pcf discriminated.
Create Rewrite HintDb pcf_st.
#[export] Hint Rewrite @st_bind_run @st_ret_run @outcome_bind_Ret
  @outcome_bind_Throw : pcf_st.

(** Unfold the monad's plumbing and reduce the matches it leaves. *)
Ltac st_unfold :=
  repeat (first [ progress autorewrite with pcf_st
                | progress cbn [fst snd exec throw get put modify lift_res when_some]
                | progress simplify_eq ]).

(** ** Small generic facts shared by the components *)

(** Filtering with a predicate every element satisfies changes nothing. *)
Lemma list_filter_id {A} (P : A -> Prop) `{!∀ x, Decision (P x)} (l : list A) :
  (∀ x, x ∈ l -> P x) -> filter P l = l.
Proof.
  induction l as [|x r IH]; intros Hall; [done|].
  rewrite filter_cons_True by (apply Hall; left).
  f_equal. apply IH. intros y Hy. apply Hall. by right.
Qed.

Lemma N_max_l_le (a b : N) : (a <= N.max a b)%N.
Proof. lia. Qed.
#[export] Hint Resolve N_max_l_le : pcf.
