(* ===== verification/Dom.v ===== *)
(** * The browser DOM, as far as the control uses it

    A document is a store [gmap N node]: a node knows its tag, its content
    attributes ([id], [class], [src], [readonly]), its inline style
    declarations, its [value] / [textContent], its event listeners, its
    parent and its ordered children.  Elements are references: the control
    keeps node identifiers in its fields, as the JavaScript keeps object
    references, and a node detached from the tree stays in the store.

    The operations follow the DOM standard's algorithms: [appendChild] is
    "append" (pre-insert with the hierarchy check, then adopt: remove from
    the old parent, insert last), [removeChild] checks the parent,
    [classList.add] re-serialises the ordered token set, [getElementById]
    and [querySelector] return the first match in tree order (preorder).
    The listener type [L] is a parameter: the client stores its closures.

    This is the platform the code calls, not code of the repository. *)

From S2P Require Import Prelude.

Inductive tag := Body | Div | Button | TextArea | IFrame.

#[export] Instance tag_eq_dec : EqDecision tag.
Proof. solve_decision. Defined.

Section Dom.
Context {L : Type}.

Record node := mk_node {
  n_tag : tag;
  n_attrs : gmap string string;
  n_style : gmap string string;
  n_value : string;
  n_text : string;
  n_listeners : list (string * L);
  n_parent : option N;
  n_children : list N
}.

Record dom := mk_dom {
  d_nodes : gmap N node;
  d_next : N;        (** the identifier the next [createElement] returns *)
  d_document : N     (** the document's root element *)
}.

Definition new_node (t : tag) : node :=
  mk_node t ∅ ∅ "" "" [] None [].

(** A document holding only its root element. *)
Definition empty_dom : dom :=
  mk_dom {[ 0%N := new_node Body ]} 1 0.

Definition node_at (d : dom) (n : N) : option node := d_nodes d !! n.

(** Apply [f] to node [n]; a dangling reference is a [TypeError]. *)
Definition update_node (n : N) (f : node -> node) (d : dom) : outcome dom :=
  match d_nodes d !! n with
  | Some x => Ret (mk_dom (<[n := f x]> (d_nodes d)) (d_next d) (d_document d))
  | None => Throw TypeError
  end.

Definition set_parent (p : option N) (x : node) : node :=
  mk_node (n_tag x) (n_attrs x) (n_style x) (n_value x) (n_text x)
          (n_listeners x) p (n_children x).
Definition set_children (cs : list N) (x : node) : node :=
  mk_node (n_tag x) (n_attrs x) (n_style x) (n_value x) (n_text x)
          (n_listeners x) (n_parent x) cs.
Definition set_attrs (a : gmap string string) (x : node) : node :=
  mk_node (n_tag x) a (n_style x) (n_value x) (n_text x)
          (n_listeners x) (n_parent x) (n_children x).
Definition set_style_map (s : gmap string string) (x : node) : node :=
  mk_node (n_tag x) (n_attrs x) s (n_value x) (n_text x)
          (n_listeners x) (n_parent x) (n_children x).

(** [document.createElement(t)]: a fresh, detached element. *)
Definition createElement (t : tag) (d : dom) : N * dom :=
  (d_next d,
   mk_dom (<[d_next d := new_node t]> (d_nodes d)) (d_next d + 1) (d_document d)).

(** [n.parentNode]. *)
Definition parentNode (d : dom) (n : N) : option N :=
  node_at d n ≫= n_parent.

(** The chain of ancestors of [n], nearest first, with fuel. *)
Fixpoint ancestors_fuel (fuel : nat) (d : dom) (n : N) : list N :=
  match fuel with
  | O => []
  | S f => match parentNode d n with
           | Some p => p :: ancestors_fuel f d p
           | None => []
           end
  end.

Definition ancestors (d : dom) (n : N) : list N :=
  ancestors_fuel (size (d_nodes d)) d n.

(** [a] is an inclusive ancestor of [n]. *)
Definition inclusive_ancestor (d : dom) (a n : N) : bool :=
  bool_decide (a = n) || bool_decide (a ∈ ancestors d n).

(** [n.isConnected]: the document's root is an inclusive ancestor. *)
Definition connected (d : dom) (n : N) : bool :=
  inclusive_ancestor d (d_document d) n.

(** Detach [c] from its parent [p] (the "remove" algorithm). *)
Definition detach (p c : N) (d : dom) : outcome dom :=
  d1 ← update_node p (fun x => set_children (filter (fun y => y ≠ c) (n_children x)) x) d;
  update_node c (set_parent None) d1.

(** [p.appendChild(c)]: the hierarchy check of "pre-insert" (a node
    cannot be inserted into itself or a descendant), then "adopt" (remove
    [c] from its current parent, if any), then insert [c] last. *)
Definition appendChild (p c : N) (d : dom) : outcome dom :=
  match node_at d p, node_at d c with
  | Some _, Some xc =>
      if inclusive_ancestor d c p then Throw HierarchyRequestError
      else
        d1 ← (match n_parent xc with
              | Some q => detach q c d
              | None => Ret d
              end);
        d2 ← update_node p (fun x => set_children (n_children x ++ [c]) x) d1;
        update_node c (set_parent (Some p)) d2
  | _, _ => Throw TypeError
  end.

(** [p.removeChild(c)]: [NotFoundError] unless [p] is [c]'s parent. *)
Definition removeChild (p c : N) (d : dom) : outcome dom :=
  match node_at d p, parentNode d c with
  | None, _ => Throw TypeError
  | Some _, Some q => if decide (q = p) then detach p c d else Throw NotFoundError
  | Some _, None => Throw NotFoundError
  end.

(** [n.setAttribute(a, v)], and the reflected IDL attributes
    ([n.id = v] sets the [id] attribute). *)
Definition setAttribute (n : N) (a v : string) : dom -> outcome dom :=
  update_node n (fun x => set_attrs (<[a := v]> (n_attrs x)) x).

Definition removeAttribute (n : N) (a : string) : dom -> outcome dom :=
  update_node n (fun x => set_attrs (delete a (n_attrs x)) x).

(** [n.readOnly = b] reflects the boolean [readonly] attribute. *)
Definition setReadOnly (n : N) (b : bool) : dom -> outcome dom :=
  if b then setAttribute n "readonly" "" else removeAttribute n "readonly".

(** The class attribute as an ordered token set. *)
Definition class_tokens (x : node) : list string :=
  remove_dups (String.words (default "" (n_attrs x !! "class"))).

(** [n.classList.add(t)]: add the token if absent and run the update
    steps, which serialise the token set joined by single spaces. *)
Definition classList_add (n : N) (t : string) : dom -> outcome dom :=
  update_node n (fun x =>
    let ts := class_tokens x in
    let ts' := if decide (t ∈ ts) then ts else ts ++ [t] in
    set_attrs (<[ "class" := String.concat " " ts' ]> (n_attrs x)) x).

(** [n.style.p = v]: set one inline declaration. *)
Definition setStyle (n : N) (p v : string) : dom -> outcome dom :=
  update_node n (fun x => set_style_map (<[p := v]> (n_style x)) x).

(** [n.value = v] (a textarea's value). *)
Definition setValue (n : N) (v : string) : dom -> outcome dom :=
  update_node n (fun x =>
    mk_node (n_tag x) (n_attrs x) (n_style x) v (n_text x)
            (n_listeners x) (n_parent x) (n_children x)).

(** [n.textContent = v]; the text node it creates is kept as [n_text]. *)
Definition setTextContent (n : N) (v : string) : dom -> outcome dom :=
  update_node n (fun x =>
    mk_node (n_tag x) (n_attrs x) (n_style x) (n_value x) v
            (n_listeners x) (n_parent x) (n_children x)).

(** [n.addEventListener(ty, l)]: listeners run in registration order. *)
Definition addEventListener (n : N) (ty : string) (l : L) : dom -> outcome dom :=
  update_node n (fun x =>
    mk_node (n_tag x) (n_attrs x) (n_style x) (n_value x) (n_text x)
            (n_listeners x ++ [(ty, l)]) (n_parent x) (n_children x)).

(** The subtree rooted at [n] in tree order (preorder), with fuel. *)
Fixpoint tree_order_fuel (fuel : nat) (d : dom) (n : N) : list N :=
  match fuel with
  | O => []
  | S f => n :: match node_at d n with
                | Some x => concat (map (tree_order_fuel f d) (n_children x))
                | None => []
                end
  end.

Definition tree_order (d : dom) (n : N) : list N :=
  tree_order_fuel (size (d_nodes d)) d n.

Definition has_id (d : dom) (s : string) (n : N) : bool :=
  bool_decide (node_at d n ≫= (fun x => n_attrs x !! "id") = Some s).

Definition has_class (d : dom) (c : string) (n : N) : bool :=
  match node_at d n with
  | Some x => bool_decide (c ∈ class_tokens x)
  | None => false
  end.

(** [document.getElementById(s)]: the first element in tree order, from
    the document's root, whose [id] is [s]. *)
Definition getElementById (d : dom) (s : string) : option N :=
  find (has_id d s) (tree_order d (d_document d)).

(** [n.querySelector('.c')]: the first descendant of [n] (not [n]
    itself) in tree order that has the class [c]. *)
Definition querySelector_class (d : dom) (n : N) (c : string) : option N :=
  find (has_class d c) (tail (tree_order d n)).

(** The style declaration [p] of [n], if set. *)
Definition style_of (d : dom) (n : N) (p : string) : option string :=
  node_at d n ≫= (fun x => n_style x !! p).

Definition attr_of (d : dom) (n : N) (a : string) : option string :=
  node_at d n ≫= (fun x => n_attrs x !! a).

Definition children_of (d : dom) (n : N) : list N :=
  default [] (n_children <$> node_at d n).
End Dom.

Arguments node : clear implicits.
Arguments dom : clear implicits.

(** ** Lemmas on the store *)

Section DomLemmas.
Context {L : Type}.
Implicit Types d : dom L.

Lemma ancestors_fuel_parent fuel d n a :
  a ∈ ancestors_fuel fuel d n -> is_Some (parentNode d n).
Proof. destruct fuel; simpl; [by inversion 1|]. destruct (parentNode d n); [done | by inversion 1]. Qed.

Lemma parentNode_node d n p : parentNode d n = Some p -> is_Some (node_at d n).
Proof. unfold parentNode. destruct (node_at d n); [done | discriminate]. Qed.

(** A connected node other than the root is a node of the store. *)
Lemma connected_node d n :
  connected d n = true -> n = d_document d \/ is_Some (d_nodes d !! n).
Proof.
  unfold connected, inclusive_ancestor. intros [H|H]%orb_true_iff.
  - left. symmetry. by apply bool_decide_eq_true_1 in H.
  - right. apply bool_decide_eq_true_1 in H.
    destruct (ancestors_fuel_parent _ _ _ _ H) as [p Hp]. by apply parentNode_node in Hp.
Qed.
End DomLemmas.
