(* ===== verification/DomWf.v ===== *)
(** * Well-formed DOM stores

    The tree structure of a store is given by two functions of [Dom]:
    [children_of] (a dangling identifier has no children) and
    [parentNode].  [dom_wf] says that the document's root is a node, every
    node's identifier is below [d_next] (so [createElement] returns a
    fresh one), [c] is listed among the children of [p] exactly when [p]
    is [c]'s parent, and no node is its own parent.

    Every operation the control uses preserves [dom_wf]: the setters do
    not touch the tree, [createElement] adds an isolated node,
    [appendChild] and [removeChild] move one node.  The effect of each on
    [children_of] and [parentNode] is one equation ([children_of_update],
    [parentNode_update]), from which the invariant follows.  The DOM's
    error results are stated here too, and the round trip of appending a
    detached node and removing it again. *)

From S2P Require Import Prelude Dom.

Section Wf.
Context {L : Type}.
Implicit Types d : dom L.

Definition dom_wf d : Prop :=
  is_Some (d_nodes d !! d_document d) /\
  (∀ n, is_Some (d_nodes d !! n) -> (n < d_next d)%N) /\
  (∀ p c, c ∈ children_of d p <-> parentNode d c = Some p) /\
  (∀ c, parentNode d c ≠ Some c).

(** A decision procedure for [dom_wf]: each node is checked locally. *)
Definition node_ok d (n : N) (x : node L) : bool :=
  bool_decide (n < d_next d)%N &&
  forallb (fun c => bool_decide (parentNode d c = Some n)) (n_children x) &&
  match n_parent x with
  | Some p => bool_decide (p ≠ n) && bool_decide (n ∈ children_of d p)
  | None => true
  end.

Definition dom_wfb d : bool :=
  bool_decide (is_Some (d_nodes d !! d_document d)) &&
  bool_decide (map_Forall (fun n x => node_ok d n x = true) (d_nodes d)).

(** Two stores with the same nodes, counter and root. *)
Definition frame d d' : Prop :=
  (∀ m, is_Some (d_nodes d' !! m) <-> is_Some (d_nodes d !! m)) /\
  d_next d' = d_next d /\ d_document d' = d_document d.

Lemma update_node_Ret n f d d' :
  update_node n f d = Ret d' ->
  exists x, d_nodes d !! n = Some x /\
            d' = mk_dom (<[n := f x]> (d_nodes d)) (d_next d) (d_document d).
Proof. unfold update_node. destruct (d_nodes d !! n) eqn:E; intros H; simplify_eq; eauto. Qed.

(** The effect of an update of node [n] on the two views of the tree. *)
Lemma children_of_update n f d d' m :
  update_node n f d = Ret d' ->
  children_of d' m = if decide (m = n) then default [] (n_children ∘ f <$> d_nodes d !! n)
                     else children_of d m.
Proof.
  intros (x & Hx & ->)%update_node_Ret. unfold children_of, node_at; simpl.
  case_decide; subst; [by rewrite lookup_insert_eq, Hx | by rewrite lookup_insert_ne].
Qed.

Lemma parentNode_update n f d d' m :
  update_node n f d = Ret d' ->
  parentNode d' m = if decide (m = n) then d_nodes d !! n ≫= n_parent ∘ f
                    else parentNode d m.
Proof.
  intros (x & Hx & ->)%update_node_Ret. unfold parentNode, node_at; simpl.
  case_decide; subst; [by rewrite lookup_insert_eq, Hx | by rewrite lookup_insert_ne].
Qed.

Lemma frame_refl d : frame d d.
Proof. done. Qed.

Lemma frame_trans d1 d2 d3 : frame d1 d2 -> frame d2 d3 -> frame d1 d3.
Proof.
  intros (H1 & ? & ?) (H2 & ? & ?). split; [|split; congruence].
  intros m. by rewrite H2, H1.
Qed.

Lemma update_node_frame n f d d' : update_node n f d = Ret d' -> frame d d'.
Proof.
  intros (x & Hx & ->)%update_node_Ret. split; [|done]. intros m; simpl.
  rewrite lookup_insert_is_Some'. split; [intros [->|]; eauto | tauto].
Qed.

Lemma elem_children_of d p c :
  c ∈ children_of d p <-> exists x, d_nodes d !! p = Some x /\ c ∈ n_children x.
Proof.
  unfold children_of, node_at. destruct (d_nodes d !! p); simpl.
  - split; [eauto | by intros (? & [= ->] & ?)].
  - split; [by inversion 1 | by intros (? & ? & ?)].
Qed.

Lemma parentNode_Some d c p :
  parentNode d c = Some p <-> exists x, d_nodes d !! c = Some x /\ n_parent x = Some p.
Proof.
  unfold parentNode, node_at. destruct (d_nodes d !! c); simpl.
  - split; [eauto | by intros (? & [= ->] & ?)].
  - split; [discriminate | by intros (? & ? & ?)].
Qed.

(** The checker decides the invariant. *)
Lemma dom_wfb_spec d : dom_wfb d = true <-> dom_wf d.
Proof.
  unfold dom_wfb, dom_wf. rewrite andb_true_iff, !bool_decide_eq_true.
  apply and_iff_compat_l. unfold map_Forall, node_ok. split.
  - intros Hok. split; [|split].
    + intros n [x Hx]. specialize (Hok n x Hx). apply andb_true_iff in Hok as [[Hn _]%andb_true_iff _].
      by apply bool_decide_eq_true in Hn.
    + intros p c. rewrite elem_children_of, parentNode_Some. split.
      * intros (x & Hx & Hc). specialize (Hok p x Hx).
        apply andb_true_iff in Hok as [[_ Hf]%andb_true_iff _].
        eapply forallb_forall in Hf; [|by apply list_elem_of_In].
        by apply bool_decide_eq_true, parentNode_Some in Hf.
      * intros (x & Hx & Hp). specialize (Hok c x Hx). rewrite Hp in Hok.
        apply andb_true_iff in Hok as [_ [_ Hin]%andb_true_iff].
        by apply bool_decide_eq_true, elem_children_of in Hin.
    + intros c (x & Hx & Hp)%parentNode_Some. specialize (Hok c x Hx). rewrite Hp in Hok.
      apply andb_true_iff in Hok as [_ [Hne _]%andb_true_iff]. by apply bool_decide_eq_true in Hne.
  - intros (Hfresh & Hco & Hself) n x Hx. apply andb_true_iff. split; [apply andb_true_iff; split|].
    + apply bool_decide_eq_true. apply Hfresh. by eexists.
    + apply forallb_forall. intros c Hc%list_elem_of_In. apply bool_decide_eq_true.
      apply Hco, elem_children_of. eauto.
    + destruct (n_parent x) as [p|] eqn:Hp; [|done]. apply andb_true_iff; split; apply bool_decide_eq_true.
      * intros ->. apply (Hself n), parentNode_Some. eauto.
      * apply Hco, parentNode_Some. eauto.
Qed.

(** A store is well formed when its frame is that of a well-formed store
    and its children and parents agree. *)
Lemma dom_wf_frame d d' :
  frame d d' ->
  (∀ p c, c ∈ children_of d' p <-> parentNode d' c = Some p) ->
  (∀ c, parentNode d' c ≠ Some c) ->
  dom_wf d -> dom_wf d'.
Proof.
  intros (Hdom & Hn & Hd) Hco Hself (Hdoc & Hfresh & _). unfold dom_wf.
  rewrite Hn, Hd, Hdom. setoid_rewrite Hdom. done.
Qed.

(** A setter that keeps a node's parent and children keeps the store well
    formed. *)
Lemma update_node_wf n f d d' :
  (∀ x, n_parent (f x) = n_parent x /\ n_children (f x) = n_children x) ->
  dom_wf d -> update_node n f d = Ret d' -> dom_wf d'.
Proof.
  intros Hf Hwf Hu.
  assert (Hc : ∀ m, children_of d' m = children_of d m).
  { intros m. rewrite (children_of_update _ _ _ _ _ Hu). case_decide; [|done]. subst.
    unfold children_of, node_at. destruct (d_nodes d !! n); simpl; [by rewrite (proj2 (Hf _))|done]. }
  assert (Hp : ∀ m, parentNode d' m = parentNode d m).
  { intros m. rewrite (parentNode_update _ _ _ _ _ Hu). case_decide; [|done]. subst.
    unfold parentNode, node_at. destruct (d_nodes d !! n); simpl; [by rewrite (proj1 (Hf _))|done]. }
  apply (dom_wf_frame d); [by eapply update_node_frame | | | done];
    try setoid_rewrite Hc; setoid_rewrite Hp; apply Hwf.
Qed.

Lemma createElement_fresh d : dom_wf d -> d_nodes d !! d_next d = None.
Proof.
  intros (_ & Hfresh & _). destruct (d_nodes d !! d_next d) eqn:E; [|done].
  specialize (Hfresh (d_next d) ltac:(by eexists)). lia.
Qed.
Lemma createElement_wf t d : dom_wf d -> dom_wf (createElement t d).2.
Proof.
  intros Hwf. pose proof (createElement_fresh d Hwf) as Hnew.
  destruct Hwf as (Hdoc & Hfresh & Hco & Hself).
  assert (Hc : ∀ m, children_of (createElement t d).2 m = children_of d m).
  { intros m. unfold children_of, node_at; simpl. destruct (decide (m = d_next d)) as [->|].
    - by rewrite lookup_insert_eq, Hnew.
    - by rewrite lookup_insert_ne. }
  assert (Hp : ∀ m, parentNode (createElement t d).2 m = parentNode d m).
  { intros m. unfold parentNode, node_at; simpl. destruct (decide (m = d_next d)) as [->|].
    - by rewrite lookup_insert_eq, Hnew.
    - by rewrite lookup_insert_ne. }
  unfold dom_wf. setoid_rewrite Hc. setoid_rewrite Hp. simpl.
  split; [|split; [|done]].
  - rewrite lookup_insert_is_Some'. by right.
  - intros m. rewrite lookup_insert_is_Some'. intros [->|Hm]; [lia|]. specialize (Hfresh m Hm). lia.
Qed.

(** The two kinds of link update the tree operations make. *)
Lemma update_children_effect n g d d' :
  update_node n (fun x => set_children (g (n_children x)) x) d = Ret d' ->
  frame d d' /\
  (∀ m, children_of d' m = if decide (m = n) then g (children_of d n) else children_of d m) /\
  (∀ m, parentNode d' m = parentNode d m).
Proof.
  intros Hu. split; [by eapply update_node_frame|].
  destruct (update_node_Ret _ _ _ _ Hu) as (x & Hx & _). split; intros m.
  - rewrite (children_of_update _ _ _ _ _ Hu). unfold children_of, node_at. by rewrite Hx.
  - rewrite (parentNode_update _ _ _ _ _ Hu). case_decide; [|done]. subst.
    unfold parentNode, node_at. by rewrite Hx.
Qed.

Lemma update_parent_effect n v d d' :
  update_node n (set_parent v) d = Ret d' ->
  frame d d' /\
  (∀ m, children_of d' m = children_of d m) /\
  (∀ m, parentNode d' m = if decide (m = n) then v else parentNode d m).
Proof.
  intros Hu. split; [by eapply update_node_frame|].
  destruct (update_node_Ret _ _ _ _ Hu) as (x & Hx & _). split; intros m.
  - rewrite (children_of_update _ _ _ _ _ Hu). case_decide; [|done]. subst.
    unfold children_of, node_at. by rewrite Hx.
  - rewrite (parentNode_update _ _ _ _ _ Hu). unfold parentNode, node_at. by rewrite Hx.
Qed.

(** [detach q c]: [c] leaves [q]'s child list and has no parent. *)
Lemma detach_effect q c d d' :
  detach q c d = Ret d' ->
  frame d d' /\
  (∀ m, children_of d' m = if decide (m = q) then filter (fun y => y ≠ c) (children_of d q)
                           else children_of d m) /\
  (∀ m, parentNode d' m = if decide (m = c) then None else parentNode d m).
Proof.
  unfold detach. intros (d1 & H1 & H2)%outcome_bind_Ret_inv.
  destruct (update_children_effect _ _ _ _ H1) as (F1 & C1 & P1).
  destruct (update_parent_effect _ _ _ _ H2) as (F2 & C2 & P2).
  split; [by eapply frame_trans|]. split; intros m.
  - by rewrite C2, C1.
  - by rewrite P2, P1.
Qed.

Lemma detach_wf q c d d' :
  dom_wf d -> parentNode d c = Some q -> detach q c d = Ret d' -> dom_wf d'.
Proof.
  intros Hwf Hq (F & C & P)%detach_effect. pose proof Hwf as (_ & _ & Hco & Hself).
  apply (dom_wf_frame d); [done | | | done].
  - intros p c'. rewrite C, P. repeat case_decide; subst.
    + rewrite list_elem_of_filter. split; [tauto | discriminate].
    + rewrite list_elem_of_filter, Hco. tauto.
    + rewrite Hco. split; [congruence | discriminate].
    + apply Hco.
  - intros c'. rewrite P. case_decide; [done | apply Hself].
Qed.

(** In a well-formed store a node is listed only by its parent. *)
Lemma filter_children_other d c m :
  dom_wf d -> parentNode d c ≠ Some m ->
  filter (fun y => y ≠ c) (children_of d m) = children_of d m.
Proof.
  intros (_ & _ & Hco & _) Hm. apply list_filter_id. intros y Hy ->. by apply Hco in Hy.
Qed.

Lemma appendChild_Ret p c d d' :
  appendChild p c d = Ret d' ->
  is_Some (d_nodes d !! p) /\ inclusive_ancestor d c p = false /\
  exists d1 d2, (match parentNode d c with Some q => detach q c d | None => Ret d end) = Ret d1 /\
    update_node p (fun x => set_children (n_children x ++ [c]) x) d1 = Ret d2 /\
    update_node c (set_parent (Some p)) d2 = Ret d'.
Proof.
  unfold appendChild, parentNode, node_at.
  destruct (d_nodes d !! p), (d_nodes d !! c) as [xc|]; simpl; try discriminate.
  destruct (inclusive_ancestor d c p); [discriminate|].
  intros (d1 & H1 & (d2 & H2 & H3)%outcome_bind_Ret_inv)%outcome_bind_Ret_inv. eauto 10.
Qed.

(** The effect of [p.appendChild(c)] on a well-formed store: [c] leaves
    the child list of its old parent, if any, and becomes the last child
    of [p]. *)
Lemma appendChild_effect p c d d' :
  dom_wf d -> appendChild p c d = Ret d' ->
  frame d d' /\
  (∀ m, children_of d' m =
        filter (fun y => y ≠ c) (children_of d m) ++ (if decide (m = p) then [c] else [])) /\
  (∀ m, parentNode d' m = if decide (m = c) then Some p else parentNode d m).
Proof.
  intros Hwf (_ & _ & d1 & d2 & H1 & H2 & H3)%appendChild_Ret.
  destruct (update_children_effect p (fun cs => cs ++ [c]) _ _ H2) as (F2 & C2 & P2).
  destruct (update_parent_effect _ _ _ _ H3) as (F3 & C3 & P3).
  assert (F1 : frame d d1 /\
    (∀ m, children_of d1 m = filter (fun y => y ≠ c) (children_of d m)) /\
    (∀ m, parentNode d1 m = if decide (m = c) then None else parentNode d m)).
  { destruct (parentNode d c) as [q|] eqn:Hq.
    - destruct (detach_effect _ _ _ _ H1) as (F1 & C1 & P1). split; [done|]. split; [|done].
      intros m. rewrite C1. case_decide; [by subst|]. symmetry.
      apply filter_children_other; [done | congruence].
    - injection H1 as <-. split; [done|]. split; intros m.
      + symmetry. apply filter_children_other; [done | congruence].
      + by case_decide; subst. }
  destruct F1 as (F1 & C1 & P1).
  split; [by eapply frame_trans, frame_trans|]. split; intros m.
  - rewrite C3, C2. case_decide; subst; rewrite C1; [done | by rewrite app_nil_r].
  - rewrite P3, P2, P1. by case_decide.
Qed.

Lemma inclusive_ancestor_false_ne d c p : inclusive_ancestor d c p = false -> c ≠ p.
Proof. unfold inclusive_ancestor. intros [Hne _]%orb_false_iff ->. by rewrite bool_decide_eq_false in Hne. Qed.

Lemma appendChild_wf p c d d' : dom_wf d -> appendChild p c d = Ret d' -> dom_wf d'.
Proof.
  intros Hwf Ha. pose proof Ha as (_ & Hanc & _)%appendChild_Ret.
  apply inclusive_ancestor_false_ne in Hanc.
  destruct (appendChild_effect _ _ _ _ Hwf Ha) as (F & C & P).
  pose proof Hwf as (_ & _ & Hco & Hself).
  apply (dom_wf_frame d); [done | | | done].
  - intros p' c'. rewrite C, P, elem_of_app, list_elem_of_filter, Hco.
    repeat case_decide; subst; rewrite ?elem_of_nil, ?list_elem_of_singleton; intuition congruence.
  - intros c'. rewrite P. case_decide; subst; [congruence | apply Hself].
Qed.

Lemma removeChild_Ret p c d d' :
  removeChild p c d = Ret d' -> parentNode d c = Some p /\ detach p c d = Ret d'.
Proof.
  unfold removeChild. destruct (node_at d p); [|discriminate].
  destruct (parentNode d c) as [q|]; [|discriminate]. by case_decide; [subst|].
Qed.

Lemma removeChild_wf p c d d' : dom_wf d -> removeChild p c d = Ret d' -> dom_wf d'.
Proof. intros Hwf [Hp Hd]%removeChild_Ret. by eapply detach_wf. Qed.

(** [removeChild] succeeds on the parent of a node of a well-formed store. *)
Lemma removeChild_parent_ok p c d :
  dom_wf d -> parentNode d c = Some p -> exists d', removeChild p c d = Ret d'.
Proof.
  intros (_ & _ & Hco & Hself) Hp. pose proof Hp as (xc & Hxc & _)%parentNode_Some.
  pose proof (proj2 (Hco p c) Hp) as (xp & Hxp & _)%elem_children_of.
  assert (p ≠ c) by (intros ->; by apply (Hself c)).
  unfold removeChild, detach, update_node, node_at. rewrite Hxp, Hp, decide_True by done.
  rewrite outcome_bind_Ret. simpl. rewrite lookup_insert_ne, Hxc by done. by eexists.
Qed.


Lemma update_node_Some n f d x :
  d_nodes d !! n = Some x ->
  update_node n f d = Ret (mk_dom (<[n := f x]> (d_nodes d)) (d_next d) (d_document d)).
Proof. unfold update_node. by intros ->. Qed.

Lemma update_node_ok n f d :
  is_Some (d_nodes d !! n) -> exists d', update_node n f d = Ret d' /\ frame d d'.
Proof.
  intros [x Hx]. unfold update_node. rewrite Hx. eexists; split; [done|].
  by eapply update_node_frame with (n := n) (f := f); unfold update_node; rewrite Hx.
Qed.

(** The last two statements of [appendChild] succeed when both nodes exist. *)
Lemma update_update_ok d d1 p c :
  frame d d1 -> is_Some (d_nodes d !! p) -> is_Some (d_nodes d !! c) ->
  exists d', (d2 ← update_node p (fun x => set_children (n_children x ++ [c]) x) d1;
              update_node c (set_parent (Some p)) d2) = Ret d'.
Proof.
  intros (Hdom & _) Hp Hc. rewrite <-Hdom in Hp, Hc.
  destruct (update_node_ok p (fun x => set_children (n_children x ++ [c]) x) d1 Hp)
    as (d2 & -> & (Hdom2 & _)).
  rewrite outcome_bind_Ret. rewrite <-Hdom2 in Hc. destruct (update_node_ok c (set_parent (Some p)) d2 Hc) as (d3 & -> & _).
  by eexists.
Qed.

(** ** Theorems *)

(** [p.appendChild(c)] on a well-formed store: the result is well
    formed, [c] has left the child list of its previous parent (the move
    semantics of "adopt"), it is the last child of [p], and no other link
    changed. *)
Theorem appendChild_correct p c d d' :
  dom_wf d -> appendChild p c d = Ret d' ->
  dom_wf d' /\ parentNode d' c = Some p /\
  (∀ m, children_of d' m =
        filter (fun y => y ≠ c) (children_of d m) ++ (if decide (m = p) then [c] else [])) /\
  (∀ m, m ≠ c -> parentNode d' m = parentNode d m).
Proof.
  intros Hwf Ha. destruct (appendChild_effect _ _ _ _ Hwf Ha) as (_ & C & P).
  split; [by eapply appendChild_wf|]. rewrite P, decide_True by done. split; [done|].
  split; [done|]. intros m Hm. by rewrite P, decide_False.
Qed.

(** The error results of [p.appendChild(c)] on a well-formed store:
    a dangling reference is a [TypeError], inserting a node into itself or
    into one of its descendants is a [HierarchyRequestError], and every
    other call succeeds. *)
Theorem appendChild_errors p c d :
  dom_wf d ->
  (d_nodes d !! p = None \/ d_nodes d !! c = None -> appendChild p c d = Throw TypeError) /\
  (is_Some (d_nodes d !! p) -> is_Some (d_nodes d !! c) ->
     inclusive_ancestor d c p = true -> appendChild p c d = Throw HierarchyRequestError) /\
  (is_Some (d_nodes d !! p) -> is_Some (d_nodes d !! c) ->
     inclusive_ancestor d c p = false -> exists d', appendChild p c d = Ret d').
Proof.
  intros Hwf. unfold appendChild, node_at. split; [|split].
  - intros [-> | ->]; [done|]. by destruct (d_nodes d !! p).
  - intros [xp ->] [xc ->] ->. done.
  - intros [xp Hxp] [xc Hxc] Hanc. rewrite Hxp, Hxc, Hanc.
    apply inclusive_ancestor_false_ne in Hanc.
    destruct (n_parent xc) as [q|] eqn:Hq.
    + assert (Hpq : parentNode d c = Some q) by (apply parentNode_Some; eauto).
      destruct (removeChild_parent_ok q c d Hwf Hpq) as [d1 H1].
      apply removeChild_Ret in H1 as [_ H1]. rewrite H1, outcome_bind_Ret.
      destruct (detach_effect _ _ _ _ H1) as ((Hdom & _) & _).
      destruct (detach_effect _ _ _ _ H1) as (F1 & _).
      apply (update_update_ok d d1); [done | by eexists | by eexists].
    + rewrite outcome_bind_Ret. apply (update_update_ok d d); [done | by eexists | by eexists].
Qed.

(** Round trip: appending a detached node and removing it again gives
    back the very same store. *)
Theorem append_remove_roundtrip p c d d1 :
  dom_wf d -> parentNode d c = None -> appendChild p c d = Ret d1 ->
  removeChild p c d1 = Ret d.
Proof.
  intros Hwf Hc Ha. pose proof Hwf as (_ & _ & Hco & _).
  assert (Hnot : c ∉ children_of d p) by (rewrite Hco; congruence).
  unfold appendChild, node_at in Ha.
  destruct (d_nodes d !! p) as [xp|] eqn:Hxp, (d_nodes d !! c) as [xc|] eqn:Hxc; try discriminate.
  destruct (inclusive_ancestor d c p) eqn:Hanc; [discriminate|].
  apply inclusive_ancestor_false_ne in Hanc.
  assert (Hnp : n_parent xc = None) by (unfold parentNode, node_at in Hc; by rewrite Hxc in Hc).
  assert (Hin : c ∉ n_children xp) by (unfold children_of, node_at in Hnot; by rewrite Hxp in Hnot).
  rewrite Hnp, outcome_bind_Ret, (update_node_Some _ _ _ _ Hxp), outcome_bind_Ret in Ha.
  rewrite (update_node_Some _ _ _ xc) in Ha by (simpl; rewrite lookup_insert_ne by done; apply Hxc).
  injection Ha as <-.
  unfold removeChild, parentNode, node_at, detach, update_node; simpl.
  repeat first [rewrite lookup_insert_eq | rewrite lookup_insert_ne by congruence]; simpl.
  rewrite decide_True, outcome_bind_Ret by done. simpl.
  repeat first [rewrite lookup_insert_eq | rewrite lookup_insert_ne by congruence].
  f_equal. destruct d as [nodes next doc]; simpl in *.
  f_equal. apply map_eq. intros m.
  destruct (decide (m = c)) as [->|]; [|destruct (decide (m = p)) as [->|]].
  - rewrite lookup_insert_eq, Hxc. destruct xc; simpl in *; by subst.
  - rewrite lookup_insert_ne, lookup_insert_eq, Hxp by congruence.
    f_equal. destruct xp as [? ? ? ? ? ? ? cs]; unfold set_children; simpl in *. f_equal.
    rewrite filter_app, list_filter_id by (intros y Hy ->; done).
    rewrite filter_cons_False by (intros []; done). apply app_nil_r.
  - by rewrite !lookup_insert_ne by congruence.
Qed.
End Wf.



(** ** Content, fresh nodes and ancestors

    What a node holds besides its two links is its [content]; the tree
    operations move links and leave every node's content alone.  A node
    inserted with no links keeps the store well formed.  [is_ancestor] is
    the parent chain as an inductive relation, independent of the fuel of
    [ancestors]. *)

Section Content.
Context {L : Type}.
Implicit Types d : dom L.

Definition content_of (x : node L) :=
  (n_tag x, n_attrs x, n_style x, n_value x, n_text x, n_listeners x).

Definition content d (m : N) := content_of <$> d_nodes d !! m.

Inductive is_ancestor d : N -> N -> Prop :=
  | anc_parent a n : parentNode d n = Some a -> is_ancestor d a n
  | anc_step a m n : parentNode d n = Some m -> is_ancestor d a m -> is_ancestor d a n.

Lemma node_eq_links (x y : node L) :
  content_of x = content_of y -> n_parent x = n_parent y -> n_children x = n_children y -> x = y.
Proof. destruct x, y; unfold content_of; simpl. intros; simplify_eq. done. Qed.

Lemma update_node_content n f d d' m :
  update_node n f d = Ret d' -> (∀ x, content_of (f x) = content_of x) -> content d' m = content d m.
Proof.
  intros (x & Hx & ->)%update_node_Ret Hf. unfold content; simpl.
  destruct (decide (m = n)) as [->|]; [by rewrite lookup_insert_eq, Hx; simpl; rewrite Hf|].
  by rewrite lookup_insert_ne.
Qed.

Lemma detach_content q c d d' m : detach q c d = Ret d' -> content d' m = content d m.
Proof.
  unfold detach. intros (d1 & H1 & H2)%outcome_bind_Ret_inv.
  rewrite (update_node_content _ _ _ _ _ H2) by done.
  exact (update_node_content _ _ _ _ _ H1 (fun _ => eq_refl)).
Qed.

Lemma appendChild_content p c d d' m : appendChild p c d = Ret d' -> content d' m = content d m.
Proof.
  intros (_ & _ & d1 & d2 & H1 & H2 & H3)%appendChild_Ret.
  rewrite (update_node_content _ _ _ _ _ H3), (update_node_content _ _ _ _ _ H2) by done.
  destruct (parentNode d c); [by eapply detach_content | by injection H1 as <-].
Qed.

(** An update of the node last inserted. *)
Lemma update_node_top k f x (m : gmap N (node L)) nx doc :
  update_node k f (mk_dom (<[k:=x]> m) nx doc) = Ret (mk_dom (<[k:=f x]> m) nx doc).
Proof. unfold update_node; simpl. by rewrite lookup_insert_eq, insert_insert_eq. Qed.

Lemma dom_wf_insert_isolated d x :
  dom_wf d -> n_parent x = None -> n_children x = [] ->
  dom_wf (mk_dom (<[d_next d := x]> (d_nodes d)) (d_next d + 1) (d_document d)).
Proof.
  intros Hwf Hp Hc. pose proof (createElement_fresh d Hwf) as Hnew.
  destruct Hwf as (Hdoc & Hfresh & Hco & Hself).
  set (d' := mk_dom (<[d_next d := x]> (d_nodes d)) (d_next d + 1) (d_document d)).
  assert (Hc' : ∀ m, children_of d' m = children_of d m).
  { intros m. unfold children_of, node_at; simpl. destruct (decide (m = d_next d)) as [->|].
    - rewrite lookup_insert_eq, Hnew; simpl; by rewrite Hc.
    - by rewrite lookup_insert_ne. }
  assert (Hp' : ∀ m, parentNode d' m = parentNode d m).
  { intros m. unfold parentNode, node_at; simpl. destruct (decide (m = d_next d)) as [->|].
    - by rewrite lookup_insert_eq, Hnew; simpl; rewrite Hp.
    - by rewrite lookup_insert_ne. }
  unfold dom_wf. setoid_rewrite Hc'. setoid_rewrite Hp'. simpl.
  split; [|split; [|done]].
  - rewrite lookup_insert_is_Some'. by right.
  - intros m. rewrite lookup_insert_is_Some'. intros [->|Hm]; [lia|]. specialize (Hfresh m Hm). lia.
Qed.

Lemma ancestors_fuel_sound fuel d a n : a ∈ ancestors_fuel fuel d n -> is_ancestor d a n.
Proof.
  revert n. induction fuel as [|f IH]; intros n; simpl; [by inversion 1|].
  destruct (parentNode d n) as [p|] eqn:Hp; [|by inversion 1].
  intros [->|Ha]%elem_of_cons; [by constructor|]. eapply anc_step; [done | by apply IH].
Qed.

Lemma inclusive_ancestor_sound d a n :
  inclusive_ancestor d a n = true -> a = n \/ is_ancestor d a n.
Proof.
  unfold inclusive_ancestor. intros [H|H]%orb_true_iff; apply bool_decide_eq_true in H; [by left|].
  right. by eapply ancestors_fuel_sound.
Qed.

(** A node without children is nobody's ancestor. *)
Lemma leaf_not_ancestor d a n : dom_wf d -> children_of d a = [] -> ¬ is_ancestor d a n.
Proof.
  intros (_ & _ & Hco & _) Hc. induction 1 as [a n Hp | a m n Hp _ IH]; [|done].
  apply Hco in Hp. rewrite Hc in Hp. by inversion Hp.
Qed.

(** The parent chains of two stores agree away from a node [i] nobody
    has as parent. *)
Lemma is_ancestor_transfer d d' i a n :
  (∀ m, m ≠ i -> parentNode d' m = parentNode d m) -> (∀ m, parentNode d' m ≠ Some i) ->
  n ≠ i -> is_ancestor d' a n -> is_ancestor d a n.
Proof.
  intros Hsame Hnoi Hn H. induction H as [a n Hp | a m n Hp _ IH].
  - constructor. by rewrite <-Hsame.
  - eapply anc_step; [by rewrite <-Hsame | apply IH]. intros ->. by apply (Hnoi n).
Qed.

(** Appending a node that is neither [p] nor an ancestor of [p] passes
    the hierarchy check. *)
Lemma inclusive_ancestor_false d c p :
  c ≠ p -> ¬ is_ancestor d c p -> inclusive_ancestor d c p = false.
Proof.
  intros Hne Hanc. destruct (inclusive_ancestor d c p) eqn:E; [|done].
  by destruct (inclusive_ancestor_sound _ _ _ E).
Qed.
Lemma wf_child_fresh d p x : dom_wf d -> x ∈ children_of d p -> (x < d_next d)%N.
Proof.
  intros (_ & Hfresh & Hco & _) Hx. apply Hco, parentNode_Some in Hx as (y & Hy & _).
  apply Hfresh. by eexists.
Qed.

(** A node is determined by its content and its two links. *)
Lemma lookup_eq_views d d' k :
  content d' k = content d k -> parentNode d' k = parentNode d k ->
  children_of d' k = children_of d k -> is_Some (d_nodes d !! k) ->
  d_nodes d' !! k = d_nodes d !! k.
Proof.
  unfold content, parentNode, children_of, node_at. intros Hc Hp Hch [x Hx]. rewrite Hx in *.
  destruct (d_nodes d' !! k) as [y|]; simpl in *; [|discriminate].
  f_equal. apply node_eq_links; congruence.
Qed.

(** Appending a leaf to another node of a well-formed store succeeds. *)
Lemma appendChild_leaf_ok d p c :
  dom_wf d -> is_Some (d_nodes d !! p) -> is_Some (d_nodes d !! c) -> c ≠ p ->
  children_of d c = [] -> exists d', appendChild p c d = Ret d'.
Proof.
  intros Hwf Hp Hc Hne Hleaf. apply (appendChild_errors p c d Hwf); [done | done |].
  apply inclusive_ancestor_false; [done|]. by apply leaf_not_ancestor.
Qed.
(** A setter keeps both views of the tree. *)
Lemma setter_views n f d d' :
  (∀ x, n_parent (f x) = n_parent x /\ n_children (f x) = n_children x) ->
  update_node n f d = Ret d' ->
  (∀ k, children_of d' k = children_of d k) /\ (∀ k, parentNode d' k = parentNode d k).
Proof.
  intros Hf Hu. split; intros k.
  - rewrite (children_of_update _ _ _ _ _ Hu). case_decide; [|done]. subst.
    unfold children_of, node_at. destruct (d_nodes d !! n); simpl; [by rewrite (proj2 (Hf _))|done].
  - rewrite (parentNode_update _ _ _ _ _ Hu). case_decide; [|done]. subst.
    unfold parentNode, node_at. destruct (d_nodes d !! n); simpl; [by rewrite (proj1 (Hf _))|done].
Qed.

(** Inserting a node without links at a free key changes neither view. *)
Lemma insert_isolated_views (m : gmap N (node L)) k x nx doc nx' :
  m !! k = None -> n_parent x = None -> n_children x = [] ->
  (∀ j, children_of (mk_dom (<[k := x]> m) nx' doc) j = children_of (mk_dom m nx doc) j) /\
  (∀ j, parentNode (mk_dom (<[k := x]> m) nx' doc) j = parentNode (mk_dom m nx doc) j).
Proof.
  intros Hk Hp Hc. split; intros j; unfold children_of, parentNode, node_at; simpl;
    (destruct (decide (j = k)) as [->|]; [rewrite lookup_insert_eq, Hk; simpl; by rewrite ?Hp, ?Hc
                                        | by rewrite lookup_insert_ne]).
Qed.
End Content.

(** ** A concrete store: the root with one [div] child, and a detached
    [button]. *)
Definition wf_example : dom unit :=
  mk_dom {[ 0%N := mk_node Body ∅ ∅ "" "" [] None [1%N];
            1%N := mk_node Div ∅ ∅ "" "" [] (Some 0%N) [];
            2%N := new_node Button ]} 3 0.

Definition wf_appended : dom unit :=
  match appendChild 1 2 wf_example with Ret d => d | Throw _ => wf_example end.

Lemma appendChild_correct_witness :
  appendChild 1 2 wf_example = Ret wf_appended /\ parentNode wf_appended 2 = Some 1%N.
Proof.
  assert (Ha : appendChild 1 2 wf_example = Ret wf_appended) by (vm_compute; reflexivity).
  split; [exact Ha|]. exact (proj1 (proj2 (appendChild_correct 1 2 wf_example wf_appended
    ltac:(apply dom_wfb_spec; vm_compute; reflexivity) Ha))).
Defined.

Lemma appendChild_errors_witness :
  appendChild 1 0 wf_example = Throw HierarchyRequestError.
Proof.
  apply (proj1 (proj2 (appendChild_errors 1 0 wf_example
    ltac:(apply dom_wfb_spec; vm_compute; reflexivity))));
    [by eexists | by eexists | vm_compute; reflexivity].
Defined.

Lemma append_remove_roundtrip_witness : removeChild 1 2 wf_appended = Ret wf_example.
Proof.
  apply (append_remove_roundtrip 1 2 wf_example wf_appended);
    [apply dom_wfb_spec; vm_compute; reflexivity | vm_compute; reflexivity | vm_compute; reflexivity].
Defined.
