(* ===== verification/Acyclic.v ===== *)
(** * Acyclic stores and the fuel of the tree traversals

    [DomWf.dom_wf] forbids a node to be its own parent; a well-formed
    store whose parent chains never come back to their start is a forest.
    [acyclic] says so with [DomWf.is_ancestor], the parent chain as an
    inductive relation.  On a forest:

    - the chain of ancestors of a node lists distinct nodes of the store,
      so it is shorter than the store ([ancestors_fuel_length]), and the
      fuel [size (d_nodes d)] that [Dom.ancestors] and [Dom.tree_order]
      take is enough: more fuel gives the same chain
      ([ancestors_fuel_enough]) and the traversal reaches every
      descendant;
    - hence the fuelled routines agree with the relation:
      [inclusive_ancestor] (the hierarchy check of [appendChild], and
      [connected]) decides "is [n] or one of its ancestors"
      ([inclusive_ancestor_iff]), [tree_order d n] lists exactly [n] and
      its descendants ([tree_order_iff]), and [getElementById] and
      [querySelector] find an element whenever a matching one is in the
      subtree ([getElementById_found], [querySelector_class_found]);
    - [appendChild] keeps the store acyclic because its hierarchy check
      is adequate ([appendChild_acyclic]); [removeChild], [createElement]
      and the setters only cut or keep links.

    [acyclicb] decides acyclicity on a well-formed store (the chain of
    every node stops within the store's size), for concrete witnesses.
    [DomInv] is the interface a store invariant offers to the client code
    in [Safety]: it is kept by every DOM operation the control performs;
    [dom_wf] and [forest] are its instances. *)

From S2P Require Import Prelude Dom DomWf.

Section Acyclic.
Context {L : Type}.
Implicit Types d : dom L.

(** No node is its own ancestor. *)
Definition acyclic d : Prop := ∀ n, ¬ is_ancestor d n n.

(** The invariant of a page's DOM: well formed and acyclic. *)
Definition forest d : Prop := dom_wf d /\ acyclic d.

(** The chain of every node stops within the size of the store. *)
Definition acyclicb d : bool :=
  bool_decide (map_Forall (fun n _ =>
    length (ancestors_fuel (S (size (d_nodes d))) d n) ≤ size (d_nodes d)) (d_nodes d)).

(** ** The ancestor relation *)

Lemma is_ancestor_trans d a m n : is_ancestor d a m -> is_ancestor d m n -> is_ancestor d a n.
Proof. intros Ham. induction 1; [by eapply anc_step | eapply anc_step; eauto]. Qed.

Lemma is_ancestor_parent_inv d a n p :
  is_ancestor d a n -> parentNode d n = Some p -> a = p \/ is_ancestor d a p.
Proof. inversion 1; intros; simplify_eq; auto. Qed.

Lemma is_ancestor_parent d a n : is_ancestor d a n -> exists p, parentNode d n = Some p.
Proof. inversion 1; eauto. Qed.

(** In a well-formed store a parent is a node of the store, and so is
    every node that has one. *)
Lemma parent_is_node d c p : dom_wf d -> parentNode d c = Some p -> is_Some (d_nodes d !! p).
Proof.
  intros (_ & _ & Hco & _) Hp. apply Hco, elem_children_of in Hp as (x & Hx & _). by eexists.
Qed.

Lemma child_is_node d c p : parentNode d c = Some p -> is_Some (d_nodes d !! c).
Proof. intros (x & Hx & _)%parentNode_Some. by eexists. Qed.

Lemma is_ancestor_nodes d a n :
  dom_wf d -> is_ancestor d a n -> is_Some (d_nodes d !! a) /\ is_Some (d_nodes d !! n).
Proof.
  intros Hwf H. split; [|destruct (is_ancestor_parent _ _ _ H) as [p Hp]; by eapply child_is_node].
  induction H as [a n Hp|]; [by eapply parent_is_node | done].
Qed.

(** A node on a cycle has a parent on the cycle. *)
Lemma cycle_parent d n :
  is_ancestor d n n -> exists p, parentNode d n = Some p /\ is_ancestor d p p.
Proof.
  intros H. destruct (is_ancestor_parent _ _ _ H) as [p Hp]. exists p. split; [done|].
  destruct (is_ancestor_parent_inv _ _ _ _ H Hp) as [<-|Hnp]; [done|].
  eapply is_ancestor_trans; [|exact Hnp]. by constructor.
Qed.

(** ** The chain of ancestors with fuel *)

Lemma ancestors_fuel_complete d a n : is_ancestor d a n -> exists k, a ∈ ancestors_fuel k d n.
Proof.
  induction 1 as [a n Hp | a m n Hp _ [k Hk]].
  - exists 1%nat. simpl. rewrite Hp. by left.
  - exists (S k). simpl. rewrite Hp. by right.
Qed.

(** Less fuel gives a prefix of the chain. *)
Lemma ancestors_fuel_take d k j n :
  ancestors_fuel k d n = take k (ancestors_fuel (k + j) d n).
Proof.
  revert n. induction k as [|k IH]; intros n; [done|]. simpl.
  destruct (parentNode d n); simpl; [by rewrite <-IH | done].
Qed.

Lemma ancestors_fuel_mono d k j a n :
  a ∈ ancestors_fuel k d n -> a ∈ ancestors_fuel (k + j) d n.
Proof.
  rewrite (ancestors_fuel_take d k j). intros Ha.
  rewrite <-(take_drop k (ancestors_fuel (k + j) d n)), elem_of_app. by left.
Qed.

Lemma ancestors_fuel_length_le d k n : length (ancestors_fuel k d n) ≤ k.
Proof.
  revert n. induction k as [|k IH]; intros n; simpl; [lia|].
  destruct (parentNode d n); simpl; [specialize (IH n0); lia | lia].
Qed.

(** On an acyclic store the chain of [n], with [n] in front, has no
    repetition. *)
Lemma ancestors_fuel_NoDup d k n : acyclic d -> NoDup (n :: ancestors_fuel k d n).
Proof.
  intros Hac. revert n. induction k as [|k IH]; intros n; simpl; [apply NoDup_singleton|].
  destruct (parentNode d n) as [p|] eqn:Hp; [|apply NoDup_singleton].
  constructor; [|apply IH]. intros [->|Hin]%elem_of_cons.
  - apply (Hac p). by constructor.
  - apply (Hac n). eapply anc_step; [done | by eapply ancestors_fuel_sound].
Qed.

(** A list of distinct keys of a map is no longer than the map. *)
Lemma NoDup_keys_length {A} (l : list N) (m : gmap N A) :
  NoDup l -> (∀ x, x ∈ l -> is_Some (m !! x)) -> length l ≤ size m.
Proof.
  intros Hnd Hl. rewrite <-(size_list_to_set (C:=gset N) l Hnd), <-size_dom.
  apply subseteq_size. intros x. rewrite elem_of_list_to_set, elem_of_dom. apply Hl.
Qed.

(** The chain of a node of a forest is shorter than the store. *)
Lemma ancestors_fuel_length d k n :
  forest d -> is_Some (d_nodes d !! n) -> S (length (ancestors_fuel k d n)) ≤ size (d_nodes d).
Proof.
  intros [Hwf Hac] Hn. apply (NoDup_keys_length (n :: _)); [by apply ancestors_fuel_NoDup|].
  intros x [->|Hx]%elem_of_cons; [done|].
  apply ancestors_fuel_sound in Hx. by apply (is_ancestor_nodes d x n).
Qed.

Lemma ancestors_fuel_dangling d k n : d_nodes d !! n = None -> ancestors_fuel k d n = [].
Proof. intros Hn. destruct k; simpl; [done|]. unfold parentNode, node_at. by rewrite Hn. Qed.

(** Fuel past the length of the chain changes nothing. *)
Lemma ancestors_fuel_saturate d k K n :
  length (ancestors_fuel K d n) ≤ k -> k ≤ K -> ancestors_fuel k d n = ancestors_fuel K d n.
Proof.
  intros Hlen Hk. replace K with (k + (K - k))%nat in * by lia.
  rewrite (ancestors_fuel_take d k (K - k)). by apply take_ge.
Qed.

(** The fuel of [ancestors] is enough on a forest: with at least as
    much fuel the chain is the same. *)
Lemma ancestors_fuel_enough d K n :
  forest d -> size (d_nodes d) ≤ K -> ancestors_fuel K d n = ancestors d n.
Proof.
  intros Hf HK. unfold ancestors. symmetry. apply ancestors_fuel_saturate; [|done].
  destruct (d_nodes d !! n) eqn:Hn.
  - pose proof (ancestors_fuel_length d K n Hf ltac:(by eexists)). lia.
  - rewrite ancestors_fuel_dangling by done. simpl. lia.
Qed.

(** The hierarchy check decides "[a] is [n] or one of its ancestors". *)
Lemma inclusive_ancestor_iff d a n :
  forest d -> inclusive_ancestor d a n = true <-> a = n \/ is_ancestor d a n.
Proof.
  intros Hf. split; [apply inclusive_ancestor_sound|]. unfold inclusive_ancestor.
  intros [->|(k & Hk)%ancestors_fuel_complete]; apply orb_true_iff; [left | right];
    apply bool_decide_eq_true; [done|].
  rewrite <-(ancestors_fuel_enough d (k + size (d_nodes d)) n Hf) by lia.
  by apply ancestors_fuel_mono.
Qed.

(** ** The traversal in tree order *)

Lemma elem_of_concat_map {A B} (f : A -> list B) (l : list A) x :
  x ∈ concat (map f l) <-> exists y, y ∈ l /\ x ∈ f y.
Proof.
  induction l as [|y l IH]; simpl; [split; [by inversion 1 | by intros (? & ?%elem_of_nil & _)]|].
  rewrite elem_of_app, IH. split.
  - intros [Hx | (z & Hz & Hx)]; [exists y | exists z]; by rewrite elem_of_cons; auto.
  - intros (z & [->|Hz]%elem_of_cons & Hx); [by left | right; eauto].
Qed.

Lemma tree_order_fuel_S d f n :
  tree_order_fuel (S f) d n = n :: concat (map (tree_order_fuel f d) (children_of d n)).
Proof. simpl. unfold children_of. by destruct (node_at d n). Qed.

(** Past its first element, a traversal lists descendants of its start. *)
Lemma tree_order_fuel_tail d f n x :
  dom_wf d -> x ∈ tail (tree_order_fuel f d n) -> is_ancestor d n x.
Proof.
  intros Hwf. revert n x. induction f as [|f IH]; intros n x; [by inversion 1|].
  rewrite tree_order_fuel_S. simpl. intros (c & Hc & Hx)%elem_of_concat_map.
  apply (proj1 (proj2 (proj2 Hwf))) in Hc.
  destruct f as [|f]; [by inversion Hx|]. rewrite tree_order_fuel_S in Hx.
  apply elem_of_cons in Hx as [->|Hx]; [by constructor|].
  eapply is_ancestor_trans; [by constructor|]. apply IH. by rewrite tree_order_fuel_S.
Qed.

Lemma tree_order_fuel_sound d f n x :
  dom_wf d -> x ∈ tree_order_fuel f d n -> x = n \/ is_ancestor d n x.
Proof.
  intros Hwf. destruct f as [|f]; [by inversion 1|]. rewrite tree_order_fuel_S.
  intros [->|Hx]%elem_of_cons; [by left|]. right. apply (tree_order_fuel_tail d (S f)); [done|].
  by rewrite tree_order_fuel_S.
Qed.

(** One more unit of fuel reaches the children of a listed node. *)
Lemma tree_order_fuel_child d j n y x :
  y ∈ tree_order_fuel j d n -> x ∈ children_of d y -> x ∈ tree_order_fuel (S j) d n.
Proof.
  revert n. induction j as [|j IH]; intros n; [by inversion 1|].
  rewrite (tree_order_fuel_S d (S j)), tree_order_fuel_S.
  intros [->|(c & Hc & Hy)%elem_of_concat_map]%elem_of_cons Hx; apply elem_of_cons; right;
    apply elem_of_concat_map.
  - exists x. split; [done|]. rewrite tree_order_fuel_S. by left.
  - exists c. split; [done|]. exact (IH c Hy Hx).
Qed.

(** A traversal with [k + 1] fuel reaches a node whose chain of [k]
    ancestors contains the start. *)
Lemma tree_order_fuel_ancestor d k n x :
  dom_wf d -> n ∈ ancestors_fuel k d x -> x ∈ tree_order_fuel (S k) d n.
Proof.
  intros Hwf. revert x. induction k as [|k IH]; intros x; simpl ancestors_fuel; [by inversion 1|].
  destruct (parentNode d x) as [p|] eqn:Hp; [|by inversion 1].
  assert (Hx : x ∈ children_of d p) by exact (proj2 (proj1 (proj2 (proj2 Hwf)) p x) Hp).
  intros [<-|Hn]%elem_of_cons.
  - apply (tree_order_fuel_child d (S k) n n); [rewrite tree_order_fuel_S; by left | done].
  - apply (tree_order_fuel_child d (S k) n p); [by apply IH | done].
Qed.

Lemma size_pred {A} (m : gmap N A) i : is_Some (m !! i) -> size m = S (pred (size m)).
Proof. intros Hi. assert (size m ≠ 0) by (eapply map_size_ne_0_lookup_2; eauto). lia. Qed.

(** On a forest, [tree_order d n] lists exactly [n] and its descendants:
    the fuel [size (d_nodes d)] reaches the deepest one. *)
Lemma tree_order_iff d n x :
  forest d -> is_Some (d_nodes d !! n) -> x ∈ tree_order d n <-> x = n \/ is_ancestor d n x.
Proof.
  intros Hf Hn. unfold tree_order. split; [by apply tree_order_fuel_sound, Hf|].
  rewrite (size_pred _ _ Hn). intros [->|Ha]; [rewrite tree_order_fuel_S; by left|].
  apply tree_order_fuel_ancestor; [apply Hf|].
  destruct (ancestors_fuel_complete _ _ _ Ha) as [k Hk].
  apply (ancestors_fuel_mono d k (size (d_nodes d))) in Hk.
  pose proof (ancestors_fuel_length d (k + size (d_nodes d)) x Hf
                (proj2 (is_ancestor_nodes _ _ _ (proj1 Hf) Ha))).
  by rewrite (ancestors_fuel_saturate d (pred (size (d_nodes d))) (k + size (d_nodes d))) by lia.
Qed.

Lemma tree_order_head d n :
  is_Some (d_nodes d !! n) -> tree_order d n = n :: tail (tree_order d n).
Proof. intros Hn. unfold tree_order. by rewrite (size_pred _ _ Hn), tree_order_fuel_S. Qed.

(** Its tail lists exactly the descendants. *)
Lemma tail_tree_order_iff d n x :
  forest d -> is_Some (d_nodes d !! n) -> x ∈ tail (tree_order d n) <-> is_ancestor d n x.
Proof.
  intros Hf Hn. split; [by apply tree_order_fuel_tail, Hf|]. intros Ha.
  pose proof (proj2 (tree_order_iff d n x Hf Hn) (or_intror Ha)) as Hx.
  rewrite tree_order_head in Hx by done. apply elem_of_cons in Hx as [->|]; [|done].
  by destruct (proj2 Hf n).
Qed.

(** ** The lookups of the control *)

Lemma find_found {A} (f : A -> bool) (l : list A) x :
  x ∈ l -> f x = true -> exists y, find f l = Some y /\ y ∈ l /\ f y = true.
Proof.
  intros Hx Hf. destruct (find f l) as [y|] eqn:E.
  - apply find_some in E as [Hy Hfy]. exists y. by rewrite list_elem_of_In.
  - apply list_elem_of_In in Hx. by rewrite (find_none _ _ E x Hx) in Hf.
Qed.

(** [connected] decides "the root is [n] or one of its ancestors". *)
Lemma connected_iff d n :
  forest d -> connected d n = true <-> n = d_document d \/ is_ancestor d (d_document d) n.
Proof.
  intros Hf. unfold connected. rewrite inclusive_ancestor_iff by done. split; intros [H|H]; auto.
Qed.

(** [document.getElementById(s)] finds a connected element with the id
    [s] whenever there is one. *)
Lemma getElementById_found d s x :
  forest d -> connected d x = true -> has_id d s x = true ->
  exists y, getElementById d s = Some y /\ has_id d s y = true /\ connected d y = true.
Proof.
  intros Hf Hx Hid. pose proof (proj1 (proj1 Hf)) as Hdoc. unfold getElementById.
  rewrite connected_iff, <-tree_order_iff in Hx by done.
  destruct (find_found _ _ _ Hx Hid) as (y & Hy & Hin & Hidy). exists y.
  split; [done|]. split; [done|]. by rewrite connected_iff, <-tree_order_iff.
Qed.

(** [n.querySelector('.c')] finds a descendant of [n] with the class [c]
    whenever there is one, and only ever a descendant with the class. *)
Lemma querySelector_class_found d n c x :
  forest d -> is_ancestor d n x -> has_class d c x = true ->
  exists y, querySelector_class d n c = Some y /\ has_class d c y = true /\ is_ancestor d n y.
Proof.
  intros Hf Ha Hc. pose proof (proj1 (is_ancestor_nodes _ _ _ (proj1 Hf) Ha)) as Hn.
  unfold querySelector_class. rewrite <-tail_tree_order_iff in Ha by done.
  destruct (find_found _ _ _ Ha Hc) as (y & Hy & Hin & Hcy). exists y.
  split; [done|]. split; [done|]. by rewrite <-tail_tree_order_iff.
Qed.

Lemma getElementById_node d s y :
  dom_wf d -> getElementById d s = Some y -> is_Some (d_nodes d !! y).
Proof.
  intros Hwf [Hy _]%find_some. apply list_elem_of_In in Hy.
  destruct (tree_order_fuel_sound _ _ _ _ Hwf Hy) as [->|Ha]; [exact (proj1 Hwf)|].
  exact (proj2 (is_ancestor_nodes _ _ _ Hwf Ha)).
Qed.

Lemma querySelector_class_sound d n c y :
  dom_wf d -> querySelector_class d n c = Some y -> has_class d c y = true /\ is_ancestor d n y.
Proof.
  unfold querySelector_class. intros Hwf [Hy Hc]%find_some. split; [done|].
  apply list_elem_of_In in Hy. by eapply tree_order_fuel_tail.
Qed.

(** ** Links only cut: the ancestors of the new store are old ones *)

Lemma is_ancestor_mono d d' a n :
  (∀ m q, parentNode d' m = Some q -> parentNode d m = Some q) ->
  is_ancestor d' a n -> is_ancestor d a n.
Proof. intros Hp. induction 1; [constructor; auto | eapply anc_step; eauto]. Qed.

Lemma acyclic_mono d d' :
  (∀ m q, parentNode d' m = Some q -> parentNode d m = Some q) -> acyclic d -> acyclic d'.
Proof. intros Hp Hac n Hn. apply (Hac n). by eapply is_ancestor_mono. Qed.

(** A node on a cycle has a chain as long as any fuel. *)
Lemma cycle_chain_length d k n : is_ancestor d n n -> length (ancestors_fuel k d n) = k.
Proof.
  revert n. induction k as [|k IH]; intros n Hn; [done|].
  destruct (cycle_parent _ _ Hn) as (p & Hp & Hpp). simpl. rewrite Hp. simpl. by rewrite IH.
Qed.

(** The checker decides acyclicity of a well-formed store. *)
Lemma acyclicb_spec d : dom_wf d -> acyclicb d = true <-> acyclic d.
Proof.
  intros Hwf. unfold acyclicb. rewrite bool_decide_eq_true. split.
  - intros Hall n Hn. destruct (is_ancestor_nodes _ _ _ Hwf Hn) as [[x Hx] _].
    specialize (Hall n x Hx). cbv beta in Hall. rewrite cycle_chain_length in Hall by done. lia.
  - intros Hac n x Hx. cbv beta.
    pose proof (ancestors_fuel_length d (S (size (d_nodes d))) n (conj Hwf Hac) ltac:(by eexists)).
    lia.
Qed.

(** After [appendChild p c] only [c]'s parent changed: a chain of the
    new store is one of the old store, or reaches [c] from a node that was
    [c] or below [c] in the old store. *)
Lemma is_ancestor_split d d' c a n :
  (∀ m, m ≠ c -> parentNode d' m = parentNode d m) ->
  is_ancestor d' a n -> is_ancestor d a n \/ ((c = n \/ is_ancestor d c n) /\ is_ancestor d' a c).
Proof.
  intros Hsame. induction 1 as [a n Hp | a m n Hp Ham IH].
  - destruct (decide (n = c)) as [->|Hn]; [right; split; [by left | by constructor]|].
    left. constructor. by rewrite <-Hsame.
  - destruct (decide (n = c)) as [->|Hn]; [right; split; [by left | by eapply anc_step]|].
    rewrite Hsame in Hp by done.
    destruct IH as [IH | [[<-|Hcm] Hac]]; [left; by eapply anc_step | |].
    + right. split; [right; by constructor | done].
    + right. split; [right; by eapply anc_step | done].
Qed.

(** [appendChild] keeps a forest acyclic: the hierarchy check rejects
    exactly the calls that would close a cycle. *)
Lemma appendChild_acyclic p c d d' : forest d -> appendChild p c d = Ret d' -> acyclic d'.
Proof.
  intros Hf Ha. pose proof Ha as (_ & Hchk & _)%appendChild_Ret.
  destruct (appendChild_correct p c d d' (proj1 Hf) Ha) as (_ & Hpc & _ & Hsame).
  assert (Hno : ¬ (c = p \/ is_ancestor d c p)).
  { rewrite <-inclusive_ancestor_iff by done. congruence. }
  assert (Hp : ∀ a, is_ancestor d' a p -> is_ancestor d a p).
  { intros a Ha'. destruct (is_ancestor_split _ _ _ _ _ Hsame Ha') as [|[Hc _]]; [done | by destruct Hno]. }
  intros x Hx. destruct (is_ancestor_split _ _ _ _ _ Hsame Hx) as [Hd | [Hcx Hxc]];
    [by apply (proj2 Hf x)|].
  apply Hno. destruct (is_ancestor_parent_inv _ _ _ _ Hxc Hpc) as [->|Hxp%Hp]; [done|].
  destruct Hcx as [->|Hcx]; [by right | right; by eapply is_ancestor_trans].
Qed.

Lemma removeChild_acyclic p c d d' : acyclic d -> removeChild p c d = Ret d' -> acyclic d'.
Proof.
  intros Hac [_ (_ & _ & P)%detach_effect]%removeChild_Ret. apply (acyclic_mono d); [|done].
  intros m q. rewrite P. by case_decide.
Qed.

Lemma createElement_acyclic t d : acyclic d -> acyclic (createElement t d).2.
Proof.
  apply acyclic_mono. intros m q. unfold parentNode, node_at; simpl.
  destruct (decide (m = d_next d)) as [->|]; [by rewrite lookup_insert_eq | by rewrite lookup_insert_ne].
Qed.

End Acyclic.

(** Decide [forest] on a concrete store. *)
Ltac solve_forest :=
  lazymatch goal with
  | |- forest ?d =>
      let Hwf := fresh "Hwf" in
      assert (Hwf : dom_wf d) by (apply dom_wfb_spec; vm_compute; reflexivity);
      split; [exact Hwf | apply (acyclicb_spec d Hwf); vm_compute; reflexivity]
  end.

(** ** Stores with the same parent links *)

Definition same_links {L} (d d' : dom L) : Prop := ∀ m, parentNode d m = parentNode d' m.

#[export] Instance same_links_equiv {L} : Equivalence (@same_links L).
Proof. split; [by intros d m | by intros d d' H m | intros d1 d2 d3 H1 H2 m; by rewrite H1]. Qed.

#[export] Instance is_ancestor_proper {L} :
  Proper (@same_links L ==> eq ==> eq ==> iff) is_ancestor.
Proof.
  intros d d' H a ? <- n ? <-. split; apply is_ancestor_mono; intros m q; by rewrite H.
Qed.

#[export] Instance acyclic_proper {L} : Proper (@same_links L ==> iff) acyclic.
Proof. intros d d' H. unfold acyclic. by setoid_rewrite H. Qed.

(** [connected] depends on the parent links and the root only. *)
Lemma connected_same_links {L} (d d' : dom L) n :
  forest d -> forest d' -> same_links d d' -> d_document d = d_document d' ->
  connected d n = connected d' n.
Proof.
  intros Hf Hf' Hs Hdoc. apply eq_bool_prop_intro.
  rewrite !Is_true_true, !connected_iff, Hdoc by done. by rewrite Hs.
Qed.

(** A chain that avoids [c] survives a change of [c]'s parent. *)
Lemma is_ancestor_avoid {L} (d d' : dom L) c a n :
  (∀ m, m ≠ c -> parentNode d' m = parentNode d m) ->
  is_ancestor d a n -> n ≠ c -> ¬ is_ancestor d c n -> is_ancestor d' a n.
Proof.
  intros Hsame. induction 1 as [a n Hp | a m n Hp _ IH]; intros Hn Hc.
  - constructor. by rewrite Hsame.
  - eapply anc_step; [by rewrite Hsame|]. apply IH.
    + intros ->. apply Hc. by constructor.
    + intros Hcm. apply Hc. by eapply anc_step.
Qed.

(** A node outside the subtree of [c] stays connected when [c] moves. *)
Lemma connected_avoid {L} (d d' : dom L) c t :
  forest d -> forest d' -> d_document d' = d_document d ->
  (∀ m, m ≠ c -> parentNode d' m = parentNode d m) ->
  connected d t = true -> t ≠ c -> ¬ is_ancestor d c t -> connected d' t = true.
Proof.
  intros Hf Hf' Hdoc Hsame Ht Htc Hct. rewrite connected_iff, Hdoc by done.
  rewrite connected_iff in Ht by done. destruct Ht as [->|Ha]; [by left|].
  right. by eapply is_ancestor_avoid.
Qed.

(** [has_id] reads the content of a node only. *)
Lemma has_id_content {L} (d d' : dom L) s k : content d' k = content d k -> has_id d' s k = has_id d s k.
Proof.
  unfold content, has_id, node_at. destruct (d_nodes d !! k), (d_nodes d' !! k); simpl; try done.
  by intros [= _ -> _ _ _ _].
Qed.

Lemma style_of_content {L} (d d' : dom L) k q : content d' k = content d k -> style_of d' k q = style_of d k q.
Proof.
  unfold content, style_of, node_at. destruct (d_nodes d !! k), (d_nodes d' !! k); simpl; try done.
  by intros [= _ _ -> _ _ _].
Qed.

(** A setter keeps every parent link, hence acyclicity. *)
Lemma setter_acyclic {L} n (f : node L -> node L) d d' :
  (∀ x, n_parent (f x) = n_parent x /\ n_children (f x) = n_children x) ->
  acyclic d -> update_node n f d = Ret d' -> acyclic d'.
Proof.
  intros Hf Hac Hu. destruct (setter_views n f d d' Hf Hu) as [_ Hp].
  assert (Hs : same_links d d') by (intros m; by rewrite Hp). by rewrite <-Hs.
Qed.

(** ** The interface of a store invariant

    What the client code needs of an invariant of the DOM: every
    operation the control performs keeps it.  [Safety] proves its
    theorems against this class. *)

Class DomInv {L} (P : dom L -> Prop) : Prop := {
  inv_createElement t d : P d -> P (createElement t d).2;
  inv_setter n f d d' :
    (∀ x, n_parent (f x) = n_parent x /\ n_children (f x) = n_children x) ->
    P d -> update_node n f d = Ret d' -> P d';
  inv_appendChild p c d d' : P d -> appendChild p c d = Ret d' -> P d';
  inv_removeChild p c d d' : P d -> removeChild p c d = Ret d' -> P d'
}.

#[export] Instance dom_wf_inv {L} : DomInv (@dom_wf L).
Proof.
  split; [apply createElement_wf | intros; by eapply update_node_wf | apply appendChild_wf
         | apply removeChild_wf].
Qed.

#[export] Instance forest_inv {L} : DomInv (@forest L).
Proof.
  split.
  - intros t d [Hwf Hac]. split; [by apply createElement_wf | by apply createElement_acyclic].
  - intros n f d d' Hf [Hwf Hac] Hu. split; [by eapply update_node_wf | by eapply setter_acyclic].
  - intros p c d d' Hfo Ha. split; [eapply appendChild_wf; [apply Hfo | done] | by eapply appendChild_acyclic].
  - intros p c d d' [Hwf Hac] Hr. split; [by eapply removeChild_wf | by eapply removeChild_acyclic].
Qed.

(** No operation moves the document's root. *)
#[export] Instance doc_inv {L} (r : N) : DomInv (fun d : dom L => d_document d = r).
Proof.
  split.
  - done.
  - intros n f d d' _ <- (x & _ & ->)%update_node_Ret. done.
  - intros p c d d' <- (_ & _ & d1 & d2 & H1 & H2 & H3)%appendChild_Ret.
    apply update_node_Ret in H3 as (? & _ & ->), H2 as (? & _ & ->). simpl.
    destruct (parentNode d c); [by apply detach_effect in H1 as ((_ & _ & ->) & _) | by injection H1 as <-].
  - intros p c d d' <- [_ ((_ & _ & ->) & _)%detach_effect]%removeChild_Ret. done.
Qed.

Section Ops.
Context {L : Type} (P : dom L -> Prop) `{!DomInv P}.

(** The operation keeps the invariant whenever it completes. *)
Definition op_inv (f : dom L -> outcome (dom L)) : Prop :=
  ∀ d d', P d -> f d = Ret d' -> P d'.

Lemma setAttribute_inv n a v : op_inv (setAttribute n a v).
Proof. intros d d'. by apply inv_setter. Qed.
Lemma removeAttribute_inv n a : op_inv (removeAttribute n a).
Proof. intros d d'. by apply inv_setter. Qed.
Lemma setReadOnly_inv n b : op_inv (setReadOnly n b).
Proof. destruct b; [apply setAttribute_inv | apply removeAttribute_inv]. Qed.
Lemma classList_add_inv n t : op_inv (classList_add n t).
Proof. intros d d'. by apply inv_setter. Qed.
Lemma setStyle_inv n p v : op_inv (setStyle n p v).
Proof. intros d d'. by apply inv_setter. Qed.
Lemma setValue_inv n v : op_inv (setValue n v).
Proof. intros d d'. by apply inv_setter. Qed.
Lemma setTextContent_inv n v : op_inv (setTextContent n v).
Proof. intros d d'. by apply inv_setter. Qed.
Lemma addEventListener_inv n ty l : op_inv (addEventListener n ty l).
Proof. intros d d'. by apply inv_setter. Qed.
Lemma appendChild_inv p c : op_inv (appendChild p c).
Proof. intros d d'. apply inv_appendChild. Qed.
Lemma removeChild_inv p c : op_inv (removeChild p c).
Proof. intros d d'. apply inv_removeChild. Qed.
End Ops.

#[export] Hint Resolve setAttribute_inv removeAttribute_inv setReadOnly_inv classList_add_inv
  setStyle_inv setValue_inv setTextContent_inv addEventListener_inv appendChild_inv
  removeChild_inv : pcf.
