(* ===== verification/ClassList.v ===== *)
(** * The class attribute as a token list

    [classList] reads the [class] attribute as the list of its tokens
    without duplicates ([Dom.class_tokens]: [words], then [remove_dups])
    and [classList.add] writes the list back joined by single spaces
    ([Dom.classList_add]).  This file proves the round trip between the
    two: splitting the serialisation of valid tokens (non-empty, without
    white space) gives the tokens back ([words_concat]), so after
    [n.classList.add(t)] the element's tokens are the old ones with [t]
    added once, and [has_class], which [querySelector('.t')] uses, finds
    [t].  The code relies on it at lines 30 and 33 (the classes of the
    wrapper and of the button).

    White space is stdpp's [Ascii.is_space], which also counts the
    vertical tab; the HTML standard does not, a difference that no string
    of this program exercises. *)

From S2P Require Import Prelude Dom.

(** A token is non-empty and holds no white space. *)
Fixpoint no_space (s : string) : bool :=
  match s with
  | "" => true
  | String a s => negb (Ascii.is_space a) && no_space s
  end.

Definition valid_token (t : string) : bool := bool_decide (t ≠ "") && no_space t.

Section Words.

Lemma app_String a s t : String a s +:+ t = String a (s +:+ t).
Proof. reflexivity. Qed.

Lemma app_empty_l s : "" +:+ s = s.
Proof. reflexivity. Qed.

Lemma app_empty_r s : s +:+ "" = s.
Proof. induction s; [done|]. by rewrite app_String, IHs. Qed.

Lemma app_assoc_string s1 s2 s3 : (s1 +:+ s2) +:+ s3 = s1 +:+ (s2 +:+ s3).
Proof. induction s1; [done|]. by rewrite !app_String, IHs1. Qed.

Lemma rev_app_app s acc : String.rev_app s acc = String.rev_app s "" +:+ acc.
Proof.
  revert acc. induction s as [|a s IH]; intros acc; [done|]. simpl.
  rewrite IH, (IH (String a "")), app_assoc_string. done.
Qed.

Lemma rev_app_append x y z : String.rev_app (x +:+ y) z = String.rev_app y (String.rev_app x z).
Proof. revert z. induction x; intros z; [done|]. rewrite app_String. simpl. apply IHx. Qed.

Lemma rev_rev_app t : String.rev (String.rev_app t "") = t.
Proof.
  unfold String.rev. induction t as [|a t IH]; [done|]. simpl.
  rewrite (rev_app_app t (String a "")), rev_app_append, IH. done.
Qed.

Lemma no_space_rev_app s acc :
  no_space (String.rev_app s acc) = no_space s && no_space acc.
Proof.
  revert acc. induction s as [|a s IH]; intros acc; [done|]. simpl. rewrite IH. simpl.
  by destruct (Ascii.is_space a), (no_space s), (no_space acc).
Qed.

Lemma rev_app_nonempty s acc : acc ≠ "" -> String.rev_app s acc ≠ "".
Proof. revert acc. induction s; intros acc Hacc; [done|]. simpl. by apply IHs. Qed.

(** Reading a word without white space extends the current word. *)
Lemma words_go_word cur t s :
  no_space t = true ->
  String.words_go cur (t +:+ s) =
  String.words_go (match t with "" => cur | _ => Some (String.rev_app t (default "" cur)) end) s.
Proof.
  revert cur. induction t as [|a t IH]; intros cur Ht; [done|].
  simpl in Ht. apply andb_true_iff in Ht as [Ha Ht]. apply negb_true_iff in Ha.
  rewrite app_String. simpl. rewrite Ha, IH by done.
  by destruct cur, t.
Qed.

(** Splitting the serialisation gives the tokens back. *)
Lemma words_concat ts :
  Forall (fun t => valid_token t = true) ts -> String.words (String.concat " " ts) = ts.
Proof.
  unfold String.words. induction ts as [|x ts IH]; intros Hall; [done|].
  apply Forall_cons in Hall as [Hx Hall]. unfold valid_token in Hx.
  apply andb_true_iff in Hx as [Hne%bool_decide_eq_true Hx].
  destruct ts as [|y ts].
  - change (String.concat " " [x]) with x. rewrite <-(app_empty_r x) at 1. rewrite words_go_word by done.
    destruct x as [|a x]; [done|]. pose proof (rev_rev_app (String a x)) as Hr. simpl in *.
    by rewrite Hr.
  - change (String.concat " " (x :: y :: ts)) with (x +:+ String (Ascii.ascii_of_nat 32) (String.concat " " (y :: ts))).
    rewrite words_go_word by done. destruct x as [|a x]; [done|].
    pose proof (rev_rev_app (String a x)) as Hr. simpl in *. rewrite Hr, IH by done. done.
Qed.

(** Every word [words] produces is a valid token. *)
Lemma words_go_valid cur s :
  (∀ r, cur = Some r -> r ≠ "" /\ no_space r = true) ->
  Forall (fun t => valid_token t = true) (String.words_go cur s).
Proof.
  assert (Hrev : ∀ r, r ≠ "" -> no_space r = true -> valid_token (String.rev r) = true).
  { intros r Hr Hs. unfold valid_token, String.rev. apply andb_true_iff. split.
    - apply bool_decide_eq_true. destruct r as [|a r]; [done|]. simpl. by apply rev_app_nonempty.
    - by rewrite no_space_rev_app, Hs. }
  revert cur. induction s as [|a s IH]; intros cur Hcur; simpl.
  - destruct cur as [r|]; simpl; [|done]. destruct (Hcur r) as [??]; [done|].
    constructor; [by apply Hrev | done].
  - destruct (Ascii.is_space a) eqn:Ha.
    + apply Forall_app. split; [|apply IH; discriminate].
      destruct cur as [r|]; simpl; [|done]. destruct (Hcur r) as [??]; [done|].
      constructor; [by apply Hrev | done].
    + apply IH. intros r [= <-]. split; [by destruct cur|].
      destruct cur as [r0|]; simpl; rewrite Ha; simpl; [by apply Hcur | done].
Qed.

Lemma remove_dups_id {A} `{EqDecision A} (l : list A) : NoDup l -> remove_dups l = l.
Proof.
  induction l as [|x l IH]; intros Hnd; [done|]. apply NoDup_cons in Hnd as [Hx Hnd].
  simpl. destruct (decide_rel _ x l); [done | by rewrite IH].
Qed.

End Words.

Section ClassList.
Context {L : Type}.
Implicit Types d : dom L.

Lemma class_tokens_valid (x : node L) : Forall (fun t => valid_token t = true) (class_tokens x).
Proof.
  pose proof (words_go_valid None (default "" (n_attrs x !! "class")) ltac:(discriminate)) as H.
  rewrite Forall_forall in H. unfold class_tokens. apply Forall_forall. intros t Ht. rewrite elem_of_remove_dups in Ht. by apply H.
Qed.

(** Round trip of [classList.add] (lines 30 and 33): for a valid
    token [t], the element's token list afterwards is the one before with
    [t] appended, unless it was there already, and [has_class] (hence
    [querySelector('.t')]) finds [t]. *)
Theorem classList_add_roundtrip n t d d' :
  valid_token t = true -> classList_add n t d = Ret d' ->
  exists x x', d_nodes d !! n = Some x /\ d_nodes d' !! n = Some x' /\
    class_tokens x' = (if decide (t ∈ class_tokens x) then class_tokens x
                       else class_tokens x ++ [t]) /\
    has_class d' t n = true.
Proof.
  intros Ht. unfold classList_add, update_node.
  destruct (d_nodes d !! n) as [x|] eqn:Hx; [|discriminate]. intros [= <-].
  set (ts' := if decide (t ∈ class_tokens x) then class_tokens x else class_tokens x ++ [t]).
  assert (Hts : class_tokens (set_attrs (<["class":=String.concat " " ts']> (n_attrs x)) x) = ts').
  { unfold class_tokens at 1. simpl. rewrite lookup_insert_eq. simpl.
    pose proof (class_tokens_valid x). pose proof (NoDup_remove_dups (String.words
      (default "" (n_attrs x !! "class")))).
    rewrite words_concat; [apply remove_dups_id|]; unfold ts'; case_decide; try done.
    - apply NoDup_app. split; [done|]. split; [|apply NoDup_singleton].
      intros y Hy ->%list_elem_of_singleton. done.
    - apply Forall_app. split; [done|]. by constructor. }
  exists x, (set_attrs (<["class":=String.concat " " ts']> (n_attrs x)) x).
  simpl. rewrite lookup_insert_eq. split; [done|]. split; [done|]. split; [exact Hts|].
  unfold has_class, node_at. simpl. rewrite lookup_insert_eq, Hts. apply bool_decide_eq_true.
  unfold ts'. case_decide; [done|]. apply elem_of_app. right. by apply list_elem_of_singleton.
Qed.
End ClassList.

(** The button of [init] (line 33) on a page that holds only it. *)
Definition button_page : dom unit := (createElement Button empty_dom).2.

Definition button_with_class : dom unit :=
  match classList_add 1 "bossKey" button_page with Ret d => d | Throw _ => button_page end.

Lemma classList_add_roundtrip_witness : has_class button_with_class "bossKey" 1 = true.
Proof.
  destruct (classList_add_roundtrip 1 "bossKey" button_page button_with_class)
    as (x & x' & _ & _ & _ & H); [vm_compute; reflexivity | vm_compute; reflexivity | exact H].
Defined.
