(* ===== verification/Timers.v ===== *)
(** * The HTML timer list behind [setTimeout]

    A clock [now] (milliseconds), the pending tasks with their due time and
    the sequence number they were scheduled with, and the next sequence
    number.  [setTimeout(cb, ms)] schedules [cb] at [now + max 0 ms];
    the event loop runs the pending task with the smallest due time, and
    among equal due times the one scheduled first (the HTML standard's
    "timer initialisation steps" order them so), advancing the clock to
    its due time.  The callback type [C] is a parameter.

    Invariant [timers_wf]: sequence numbers are distinct and below the
    next one, and no task is overdue.  Under it a task runs exactly at its
    due time and the clock never goes back. *)

From S2P Require Import Prelude.

Section Timers.
Context {C : Type}.

Record task := mk_task { t_due : N; t_seq : N; t_cb : C }.

Record timers := mk_timers {
  now : N;
  pending : list task;
  next_seq : N
}.

Definition no_timers : timers := mk_timers 0 [] 1.

(** [setTimeout(cb, delay)]: returns the handle and the new timer list. *)
Definition setTimeout (cb : C) (delay : Z) (tm : timers) : N * timers :=
  (next_seq tm,
   mk_timers (now tm)
             (pending tm ++ [mk_task (now tm + Z.to_N (Z.max 0 delay)) (next_seq tm) cb])
             (next_seq tm + 1)).

(** [a] runs before [b]. *)
Definition task_before (a b : task) : bool :=
  (t_due a <? t_due b)%N || ((t_due a =? t_due b)%N && (t_seq a <? t_seq b)%N).

Fixpoint earliest (l : list task) : option task :=
  match l with
  | [] => None
  | x :: r => match earliest r with
              | None => Some x
              | Some y => if task_before y x then Some y else Some x
              end
  end.

Definition remove_task (t : task) (l : list task) : list task :=
  filter (fun x => t_seq x ≠ t_seq t) l.

(** One turn of the event loop's timer source: the callback to run and
    the timer list after it is taken off, or [None] when idle. *)
Definition next_task (tm : timers) : option (C * timers) :=
  match earliest (pending tm) with
  | None => None
  | Some t => Some (t_cb t, mk_timers (N.max (now tm) (t_due t))
                                     (remove_task t (pending tm)) (next_seq tm))
  end.

Definition timers_wf (tm : timers) : Prop :=
  NoDup (map t_seq (pending tm)) /\
  Forall (fun t => (t_seq t < next_seq tm)%N /\ (now tm <= t_due t)%N) (pending tm).

(** *** Lemmas on the selection of the earliest task *)

Lemma earliest_None l : earliest l = None <-> l = [].
Proof.
  split; [|by intros ->].
  destruct l as [|x r]; [done|]. simpl. by destruct (earliest r); [case_match|].
Qed.

Lemma earliest_elem l t : earliest l = Some t -> t ∈ l.
Proof.
  revert t; induction l as [|x r IH]; intros t; simpl; [done|].
  destruct (earliest r) as [y|] eqn:E; [case_match|]; intros; simplify_eq;
    [right; by apply IH | left | left].
Qed.

(** The chosen task is due no later than any other. *)
Lemma earliest_min l t :
  earliest l = Some t -> Forall (fun x => (t_due t <= t_due x)%N) l.
Proof.
  revert t; induction l as [|x r IH]; intros t; simpl; [done|].
  unfold task_before.
  destruct (earliest r) as [y|] eqn:E; intros Ht.
  - specialize (IH y eq_refl).
    destruct (t_due y <? t_due x)%N eqn:E1; destruct (t_due y =? t_due x)%N eqn:E2;
      destruct (t_seq y <? t_seq x)%N; simplify_eq/=; constructor;
      rewrite ?N.ltb_lt, ?N.ltb_ge, ?N.eqb_eq, ?N.eqb_neq in *; try lia;
      eapply Forall_impl; eauto; simpl; lia.
  - apply earliest_None in E as ->. simplify_eq. constructor; [lia | constructor].
Qed.

Lemma remove_task_length t l :
  t ∈ l -> length (remove_task t l) < length l.
Proof.
  intros Hin. apply (length_filter_lt _ _ t Hin). by intros [].
Qed.

(** Sequence numbers identify tasks in a well-formed list. *)
Lemma seq_unique (l : list task) x y :
  NoDup (map t_seq l) -> x ∈ l -> y ∈ l -> t_seq x = t_seq y -> x = y.
Proof.
  induction l as [|z r IH]; intros Hnd Hx Hy Hs; [by inversion Hx|].
  simpl in Hnd. apply NoDup_cons in Hnd as [Hz Hnd].
  apply elem_of_cons in Hx as [->|Hx]; apply elem_of_cons in Hy as [->|Hy]; auto;
    exfalso; apply Hz; [rewrite Hs | rewrite <-Hs];
    apply list_elem_of_In, in_map, list_elem_of_In; done.
Qed.

Lemma remove_task_elem t l x :
  x ∈ remove_task t l <-> x ∈ l /\ t_seq x ≠ t_seq t.
Proof. unfold remove_task. rewrite list_elem_of_filter. tauto. Qed.

(** In a well-formed list, taking [t] off keeps every other task. *)
Lemma remove_task_keep t l x :
  NoDup (map t_seq l) -> t ∈ l -> x ∈ l -> x ≠ t -> x ∈ remove_task t l.
Proof.
  intros Hnd Ht Hx Hne. apply remove_task_elem. split; [done|].
  intros Hs. by apply Hne, (seq_unique l).
Qed.

Lemma NoDup_map_filter (P : task -> Prop) `{!∀ x, Decision (P x)} l :
  NoDup (map t_seq l) -> NoDup (map t_seq (filter P l)).
Proof.
  induction l as [|x r IH]; simpl; [done|]. intros [Hx Hr]%NoDup_cons.
  rewrite filter_cons. case_decide; simpl; [|by apply IH].
  apply NoDup_cons; split; [|by apply IH].
  intros Hin. apply Hx. apply list_elem_of_fmap in Hin as (y & -> & Hy).
  apply list_elem_of_fmap_2, (list_elem_of_filter P r y), Hy.
Qed.

Lemma setTimeout_wf cb delay tm :
  timers_wf tm -> timers_wf (setTimeout cb delay tm).2.
Proof.
  intros [Hnd Hall]. unfold timers_wf; simpl. split.
  - rewrite map_app. apply NoDup_app. split; [done|]. split; [|apply NoDup_singleton].
    intros s Hs ->%list_elem_of_singleton. apply list_elem_of_fmap in Hs as (x & Hx & Hin).
    rewrite Forall_forall in Hall. specialize (Hall x Hin). simpl in *. lia.
  - apply Forall_app. split; [|constructor; [simpl; lia | constructor]].
    eapply Forall_impl; [done|]. intros x; simpl; lia.
Qed.

(** The task the loop runs is one of the pending ones, it runs at its due
    time, and the list it leaves is well formed again. *)
Lemma next_task_inv tm cb tm' :
  timers_wf tm -> next_task tm = Some (cb, tm') ->
  exists t, t ∈ pending tm /\ cb = t_cb t /\ now tm' = t_due t /\
            pending tm' = remove_task t (pending tm) /\ next_seq tm' = next_seq tm /\
            timers_wf tm'.
Proof.
  intros [Hnd Hall] Hnext. unfold next_task in Hnext.
  destruct (earliest (pending tm)) as [t|] eqn:E; [|done]. simplify_eq/=.
  pose proof (earliest_elem _ _ E) as Ht. pose proof (earliest_min _ _ E) as Hmin.
  rewrite Forall_forall in Hall, Hmin.
  destruct (Hall t Ht) as [_ Hdue].
  exists t. repeat split; [done | lia | | ].
  - by apply NoDup_map_filter.
  - apply Forall_forall. intros x Hx%remove_task_elem. destruct Hx as [Hx _].
    destruct (Hall x Hx). specialize (Hmin x Hx). simpl. split; lia.
Qed.

(** A weight on callbacks, summed over the pending tasks: the measure
    that bounds how many turns the loop takes before it is idle. *)
Definition weight_sum (wt : C -> nat) (l : list task) : nat :=
  sum_list_with (fun t => wt (t_cb t)) l.

Lemma weight_sum_app wt l1 l2 :
  weight_sum wt (l1 ++ l2) = weight_sum wt l1 + weight_sum wt l2.
Proof. apply sum_list_with_app. Qed.

Lemma weight_sum_remove wt t l :
  NoDup (map t_seq l) -> t ∈ l ->
  weight_sum wt (remove_task t l) + wt (t_cb t) = weight_sum wt l.
Proof.
  unfold weight_sum, remove_task.
  induction l as [|x r IH]; intros Hnd Ht; [by inversion Ht|].
  simpl in Hnd. apply NoDup_cons in Hnd as [Hx Hnd].
  rewrite filter_cons. apply elem_of_cons in Ht as [->|Ht].
  - rewrite decide_False by (intros H; by apply H). simpl.
    rewrite list_filter_id; [lia|].
    intros y Hy Hs. apply Hx. rewrite <-Hs.
    apply list_elem_of_In, in_map, list_elem_of_In; done.
  - rewrite decide_True; [simpl; rewrite <-(IH Hnd Ht); lia|].
    intros Hs. apply Hx. rewrite Hs.
    apply list_elem_of_In, in_map, list_elem_of_In; done.
Qed.

(** The horizon [h]: every pending task is due within [h] ms of the clock. *)
Definition within (h : N) (tm : timers) : Prop :=
  Forall (fun t => (t_due t <= now tm + h)%N) (pending tm).

Lemma setTimeout_within h cb delay tm :
  within h tm -> (delay <= Z.of_N h)%Z -> within h (setTimeout cb delay tm).2.
Proof.
  intros Hw Hd. unfold within; simpl. apply Forall_app. split; [done|].
  constructor; [simpl; lia | constructor].
Qed.

(** The clock moves to the due time of the task that runs, so the tasks
    left stay within the horizon. *)
Lemma next_task_within h tm cb tm' :
  timers_wf tm -> within h tm -> next_task tm = Some (cb, tm') -> within h tm'.
Proof.
  intros Hwf Hw Hn. pose proof Hwf as [_ Hall].
  destruct (next_task_inv tm cb tm' Hwf Hn) as (t & Ht & _ & Hnow & Hpend & _).
  unfold within in *. rewrite Hpend, Hnow. rewrite Forall_forall in Hw, Hall |- *.
  intros x Hx%remove_task_elem. destruct Hx as [Hx _].
  specialize (Hw x Hx). destruct (Hall t Ht). lia.
Qed.

(** A task scheduled on an idle list is the next turn, at its due time. *)
Lemma next_task_only cb delay tm :
  pending tm = [] ->
  next_task (setTimeout cb delay tm).2 =
    Some (cb, mk_timers (now tm + Z.to_N (Z.max 0 delay)) [] (next_seq tm + 1)).
Proof.
  intros Hp. unfold next_task, setTimeout, remove_task. simpl. rewrite Hp. simpl.
  rewrite filter_cons_False by auto. do 3 f_equal. lia.
Qed.

(** One turn of the timer source runs the task due first, exactly at
    its due time: the clock never goes back, the task taken is pending,
    none of the others is due before it, and it leaves the list. *)
Lemma timer_runs_earliest_on_time tm cb tm' :
  timers_wf tm -> next_task tm = Some (cb, tm') ->
  (now tm <= now tm')%N /\
  exists t, t ∈ pending tm /\ t_cb t = cb /\ now tm' = t_due t /\
    Forall (fun x => (t_due t <= t_due x)%N) (pending tm) /\ t ∉ pending tm'.
Proof.
  intros [_ Hall] Hn. unfold next_task in Hn.
  destruct (earliest (pending tm)) as [t|] eqn:E; [|done]. simplify_eq/=.
  pose proof (earliest_elem _ _ E) as Ht.
  rewrite Forall_forall in Hall. destruct (Hall t Ht) as [_ Hd].
  split; [lia|]. exists t. split; [done|]. split; [done|]. split; [lia|].
  split; [by apply earliest_min|]. rewrite remove_task_elem. by intros [_ []].
Qed.
End Timers.

Arguments task : clear implicits.
Arguments timers : clear implicits.

#[export] Instance task_eq_dec {C} `{EqDecision C} : EqDecision (task C).
Proof. solve_decision. Defined.

#[export] Hint Resolve earliest_elem remove_task_length setTimeout_wf : pcf.
