(* ===== verification/Widget.v ===== *)
(** * The control [PcfDoomComponent] (src/PcfDoomComponent/index.ts)

    The JavaScript world is a [world]: the DOM, the timer list, and the
    table of control instances ([this] is an instance identifier, its
    fields a [PcfDoomComponent] record).  A field is [None] while it is
    [undefined], as before [init] runs.  Every method, and every closure
    the code hands to [addEventListener] or [setTimeout], is a statement
    of [ST world]; the closures are defunctionalised as [closure] and run
    by [run_closure].  Reading [this._f.x] when [this._f] is [undefined]
    throws a [TypeError], as in JavaScript. *)

From S2P Require Import Prelude Dom Timers.

(** [context.parameters.DoomEnablerOptionSet.raw]: a number or [null]. *)
Record context := mk_context { DoomEnablerOptionSet_raw : option Z }.

(** The closures the code creates, with what they capture. *)
Inductive closure :=
  | BossKeyClick (self : N)        (** [this.onBossKeyClick.bind(this)] *)
  | AnimateIn (self : N)           (** the 100 ms timer of [renderDoomIframe] *)
  | FlyOut (self : N) (iframe : N) (** the 10 ms timer of [onBossKeyClick] *)
  | RemoveContainer (self : N).    (** the nested 500 ms timer *)

#[export] Instance closure_eq_dec : EqDecision closure.
Proof. solve_decision. Defined.

(** The fields of a [PcfDoomComponent] object. *)
Record PcfDoomComponent := mk_component {
  _container : option N;
  _rootContainer : option N;
  _context : option context;
  _controlViewRendered : option bool;
  _doomIframe : option N;
  _bossKey : option N
}.

(** [new PcfDoomComponent()]: every field [undefined]. *)
Definition fresh_component : PcfDoomComponent :=
  mk_component None None None None None None.

Record world := mk_world {
  w_dom : dom closure;
  w_timers : timers closure;
  w_this : gmap N PcfDoomComponent
}.

Abbreviation M := (ST world).

(** ** Primitive statements on the world *)

Definition dom_do (f : dom closure -> outcome (dom closure)) : M unit :=
  lift_res (fun w => d ← f (w_dom w); mret (mk_world d (w_timers w) (w_this w))).

Definition dom_read {A} (f : dom closure -> A) : M A :=
  fun w => (Ret (f (w_dom w)), w).

Definition dom_create (t : tag) : M N := fun w =>
  let '(n, d) := createElement t (w_dom w) in
  (Ret n, mk_world d (w_timers w) (w_this w)).

Definition set_timeout (cb : closure) (delay : Z) : M unit := fun w =>
  let '(_, tm) := setTimeout cb delay (w_timers w) in
  (Ret tt, mk_world (w_dom w) tm (w_this w)).

Definition this_get (self : N) : M PcfDoomComponent := fun w =>
  match w_this w !! self with
  | Some c => (Ret c, w)
  | None => (Throw TypeError, w)
  end.

Definition this_upd (self : N) (f : PcfDoomComponent -> PcfDoomComponent) : M unit :=
  fun w =>
  match w_this w !! self with
  | Some c => (Ret tt, mk_world (w_dom w) (w_timers w) (<[self := f c]> (w_this w)))
  | None => (Throw TypeError, w)
  end.

(** [this._f] used as an object: [undefined] throws. *)
Definition this_ref (self : N) (f : PcfDoomComponent -> option N) : M N :=
  c ← this_get self;
  match f c with Some n => mret n | None => throw TypeError end.

(** Field assignments [this._f = v]. *)
Definition set_container v c := mk_component v (_rootContainer c) (_context c)
  (_controlViewRendered c) (_doomIframe c) (_bossKey c).
Definition set_rootContainer v c := mk_component (_container c) v (_context c)
  (_controlViewRendered c) (_doomIframe c) (_bossKey c).
Definition set_context v c := mk_component (_container c) (_rootContainer c) v
  (_controlViewRendered c) (_doomIframe c) (_bossKey c).
Definition set_controlViewRendered v c := mk_component (_container c)
  (_rootContainer c) (_context c) v (_doomIframe c) (_bossKey c).
Definition set_doomIframe v c := mk_component (_container c) (_rootContainer c)
  (_context c) (_controlViewRendered c) v (_bossKey c).
Definition set_bossKey v c := mk_component (_container c) (_rootContainer c)
  (_context c) (_controlViewRendered c) (_doomIframe c) v.

(** JavaScript truthiness of a boolean field ([undefined] is falsy). *)
Definition truthy (b : option bool) : bool := default false b.

(** ** The methods *)

(** [init(context, notifyOutputChanged, state, container)], lines 20-54.
    The body has no [await]: the promise resolves after it has run. *)
Definition init (self : N) (ctx : context) (container : N) : M unit :=
  this_upd self (set_context (Some ctx));;
  this_upd self (set_rootContainer (Some container));;
  c ← dom_create Div;
  this_upd self (set_container (Some c));;
  c ← this_ref self _container;
  dom_do (classList_add c "iframe-wrapper");;
  b ← dom_create Button;
  this_upd self (set_bossKey (Some b));;
  b ← this_ref self _bossKey;
  dom_do (setTextContent b "BOSS KEY");;
  b ← this_ref self _bossKey;
  dom_do (classList_add b "bossKey");;
  b ← this_ref self _bossKey;
  dom_do (addEventListener b "click" (BossKeyClick self));;
  t ← dom_create TextArea;
  dom_do (setAttribute t "id" "seriousTextArea");;
  dom_do (setValue t "We are currently working on the TPS report for this customer ");;
  dom_do (setStyle t "font" "Segoe UI");;
  dom_do (setStyle t "width" "95%");;
  dom_do (setStyle t "height" "60%");;
  dom_do (setStyle t "fontSize" "14px");;
  dom_do (setStyle t "padding" "10px");;
  dom_do (setStyle t "border" "1px solid #ccc");;
  dom_do (setStyle t "borderRadius" "4px");;
  dom_do (setReadOnly t false);;
  r ← this_ref self _rootContainer;
  dom_do (appendChild r t);;
  r ← this_ref self _rootContainer;
  c ← this_ref self _container;
  dom_do (appendChild r c);;
  this_upd self (set_controlViewRendered (Some false)).

(** [createIFrameElement()], lines 101-105. *)
Definition createIFrameElement : M N :=
  i ← dom_create IFrame;
  dom_do (setAttribute i "class" "PcfDoomComponent_IFrame");;
  mret i.

Definition iFrameSrc : string := "/WebResources/cc_doomcrt".

(** [renderDoomIframe()], lines 74-99. *)
Definition renderDoomIframe (self : N) : M unit :=
  i ← createIFrameElement;
  this_upd self (set_doomIframe (Some i));;
  i ← this_ref self _doomIframe;
  dom_do (setStyle i "position" "relative");;
  i ← this_ref self _doomIframe;
  dom_do (setStyle i "top" "100vh");;
  i ← this_ref self _doomIframe;
  dom_do (setStyle i "opacity" "0");;
  i ← this_ref self _doomIframe;
  dom_do (setStyle i "transform" "scale(0.5) rotate(-10deg)");;
  i ← this_ref self _doomIframe;
  dom_do (setStyle i "transition" "all 0.8s cubic-bezier(0.2, 0.8, 0.2, 1)");;
  c ← this_ref self _container;
  i ← this_ref self _doomIframe;
  dom_do (appendChild c i);;
  c ← this_ref self _container;
  b ← this_ref self _bossKey;
  dom_do (appendChild c b);;
  i ← this_ref self _doomIframe;
  dom_do (setAttribute i "src" iFrameSrc);;
  set_timeout (AnimateIn self) 100.

(** [updateView(context)], lines 60-74. *)
Definition updateView (self : N) (ctx : context) : M unit :=
  let optionSetValue := DoomEnablerOptionSet_raw ctx in
  c ← this_get self;
  if negb (truthy (_controlViewRendered c)) && bool_decide (optionSetValue = Some 5%Z)
  then
    this_upd self (set_controlViewRendered (Some true));;
    t ← dom_read (fun d => getElementById d "seriousTextArea");
    when_some t (fun t => dom_do (setStyle t "display" "none"));;
    renderDoomIframe self
  else mret tt.

(** [getOutputs()], lines 111-113: the empty outputs object. *)
Definition getOutputs : M (gmap string string) := mret ∅.

(** [destroy()], lines 119-121: nothing is cleaned up. *)
Definition destroy : M unit := mret tt.

(** [onBossKeyClick()], lines 122-154. *)
Definition onBossKeyClick (self : N) : M unit :=
  c ← this_get self;
  match _container c with
  | None => mret tt
  | Some cont =>
      p ← dom_read (fun d => parentNode d cont);
      match p with
      | None => mret tt
      | Some _ =>
          cont ← this_ref self _container;
          iframe ← dom_read (fun d => querySelector_class d cont "PcfDoomComponent_IFrame");
          match iframe with
          | Some i =>
              dom_do (setStyle i "position" "relative");;
              dom_do (setStyle i "left" "0");;
              dom_do (setStyle i "transition" "left 0.5s ease-in");;
              set_timeout (FlyOut self i) 10
          | None =>
              cont ← this_ref self _container;
              p ← dom_read (fun d => parentNode d cont);
              match p with
              | Some p => dom_do (removeChild p cont)
              | None => throw TypeError
              end
          end
      end
  end.

(** The 100 ms animation of [renderDoomIframe], lines 94-98: it reads
    [this._doomIframe] when it runs. *)
Definition animateIn (self : N) : M unit :=
  i ← this_ref self _doomIframe;
  dom_do (setStyle i "top" "0");;
  i ← this_ref self _doomIframe;
  dom_do (setStyle i "opacity" "1");;
  i ← this_ref self _doomIframe;
  dom_do (setStyle i "transform" "scale(1) rotate(0deg)").

(** The inner 500 ms timer, lines 138-147. *)
Definition removeContainer (self : N) : M unit :=
  cont ← this_ref self _container;
  p ← dom_read (fun d => parentNode d cont);
  when_some p (fun p => cont ← this_ref self _container; dom_do (removeChild p cont));;
  t ← dom_read (fun d => getElementById d "seriousTextArea");
  when_some t (fun t => dom_do (setStyle t "display" "block")).

(** The outer 10 ms timer, lines 134-148. *)
Definition flyOut (self i : N) : M unit :=
  dom_do (setStyle i "left" "-100vw");;
  set_timeout (RemoveContainer self) 500.

Definition run_closure (cl : closure) : M unit :=
  match cl with
  | BossKeyClick self => onBossKeyClick self
  | AnimateIn self => animateIn self
  | FlyOut self i => flyOut self i
  | RemoveContainer self => removeContainer self
  end.

(** ** Guards of the methods

    The conditions the methods test before doing anything, as theorems on
    arbitrary worlds: nothing at all changes when they fail. *)

Section Guards.
Context (self : N) (w : world) (c : PcfDoomComponent).
Hypothesis Hthis : w_this w !! self = Some c.

(** The condition of line 64 fails: [updateView] does nothing. *)
Lemma updateView_guard_false ctx :
  negb (truthy (_controlViewRendered c)) &&
    bool_decide (DoomEnablerOptionSet_raw ctx = Some 5%Z) = false ->
  updateView self ctx w = (Ret tt, w).
Proof. intros Hg. unfold updateView. st_unfold. unfold this_get. by rewrite Hthis, Hg. Qed.

(** C4. The flag [_controlViewRendered] makes [updateView] one-shot: once
    it is set, [updateView] leaves the whole world (DOM, timers, fields)
    unchanged, whatever the property bag says. *)
Theorem updateView_after_render ctx :
  _controlViewRendered c = Some true -> updateView self ctx w = (Ret tt, w).
Proof. intros Hr. apply updateView_guard_false. by rewrite Hr. Qed.

(** C10. [updateView] with an option set other than 5 (or [null]) leaves
    the world unchanged. *)
Theorem updateView_not_trigger ctx :
  DoomEnablerOptionSet_raw ctx ≠ Some 5%Z -> updateView self ctx w = (Ret tt, w).
Proof.
  intros Hv. apply updateView_guard_false.
  by rewrite (bool_decide_eq_false_2 _ Hv), andb_false_r.
Qed.

(** C13. The boss key does nothing when [this._container] has no parent,
    as after the container was removed. *)
Theorem onBossKeyClick_detached cont :
  _container c = Some cont -> parentNode (w_dom w) cont = None ->
  onBossKeyClick self w = (Ret tt, w).
Proof.
  intros Hc Hp. unfold onBossKeyClick. st_unfold. unfold this_get. rewrite Hthis, Hc.
  st_unfold. unfold dom_read. by rewrite Hp.
Qed.
End Guards.

(** A world with one rendered control and its container detached, on
    which the guards above are exercised. *)
Definition guard_world : world :=
  mk_world (snd (createElement Div empty_dom)) no_timers
    {[ 0%N := mk_component (Some 1%N) None None (Some true) None None ]}.

Lemma updateView_after_render_witness :
  updateView 0 (mk_context (Some 5%Z)) guard_world = (Ret tt, guard_world).
Proof. apply (updateView_after_render 0 guard_world _ eq_refl). reflexivity. Defined.

Lemma updateView_not_trigger_witness :
  updateView 0 (mk_context (Some 4%Z)) guard_world = (Ret tt, guard_world).
Proof. apply (updateView_not_trigger 0 guard_world _ eq_refl). discriminate. Defined.

Lemma onBossKeyClick_detached_witness :
  onBossKeyClick 0 guard_world = (Ret tt, guard_world).
Proof. apply (onBossKeyClick_detached 0 guard_world _ eq_refl 1); reflexivity. Defined.
