(* ===== verification/Host.v ===== *)
(** * The host: the PCF runtime and the browser's event loop

    The page is a [world].  The events the outside produces are the PCF
    runtime's calls ([Mount]: create the control's container [div] in the
    page, the instance, and call [init]; [Update]: call [updateView] with
    a new property bag; [Destroy]: call [destroy]), a user's click on a
    connected element, and a turn of the timer source ([Tick]).

    A click is dispatched as the DOM standard's [dispatchEvent] does for a
    bubbling event: along the target and its ancestors, each listener of
    type ["click"] in registration order; an exception a listener or a
    timer callback throws is reported and does not stop the loop (its
    effects so far stay).  [host_step] is the executable step function,
    [step] the relation it decides and [reachable] its reflexive and
    transitive closure from the empty page. *)

From S2P Require Import Prelude Dom Timers Widget.

Inductive event :=
  | Mount (self : N) (ctx : context)
  | Update (self : N) (ctx : context)
  | Click (target : N)
  | Tick
  | Destroy (self : N).

(** Run a callback; an exception is reported, not propagated. *)
Definition report (m : M unit) : M unit := fun w => (Ret tt, snd (m w)).

Definition empty_world : world := mk_world empty_dom no_timers ∅.

(** The runtime creates a [div] for the control in the page, constructs
    the object and calls [init] with it. *)
Definition host_mount (self : N) (ctx : context) : M unit :=
  c ← dom_create Div;
  root ← dom_read d_document;
  dom_do (appendChild root c);;
  modify (fun w => mk_world (w_dom w) (w_timers w) (<[self := fresh_component]> (w_this w)));;
  init self ctx c.

Definition click_listeners (d : dom closure) (n : N) : list closure :=
  match node_at d n with
  | Some x => (fun l => l.2) <$> filter (fun l => l.1 = "click") (n_listeners x)
  | None => []
  end.

Fixpoint run_all (cls : list closure) : M unit :=
  match cls with
  | [] => mret tt
  | cl :: r => report (run_closure cl);; run_all r
  end.

(** [dispatchEvent(click)] along the propagation path. *)
Fixpoint dispatch_path (path : list N) : M unit :=
  match path with
  | [] => mret tt
  | n :: r => cls ← dom_read (fun d => click_listeners d n); run_all cls;; dispatch_path r
  end.

Definition dispatch_click (target : N) : M unit :=
  path ← dom_read (fun d => target :: ancestors d target);
  dispatch_path path.

(** One event, or [None] when it cannot happen in this world. *)
Definition host_step (w : world) (e : event) : option world :=
  match e with
  | Mount self ctx =>
      if decide (w_this w !! self = None) then Some (exec (host_mount self ctx) w) else None
  | Update self ctx =>
      if decide (is_Some (w_this w !! self)) then Some (exec (report (updateView self ctx)) w)
      else None
  | Click n =>
      if connected (w_dom w) n then Some (exec (dispatch_click n) w) else None
  | Tick =>
      match next_task (w_timers w) with
      | Some (cb, tm) => Some (exec (report (run_closure cb)) (mk_world (w_dom w) tm (w_this w)))
      | None => None
      end
  | Destroy self =>
      if decide (is_Some (w_this w !! self)) then Some (exec (report destroy) w) else None
  end.

Fixpoint run_events (w : world) (es : list event) : option world :=
  match es with
  | [] => Some w
  | e :: r => w' ← host_step w e; run_events w' r
  end.

(** The event loop left alone: timer turns until no task is pending, with
    fuel ([Tick] is the only event that needs no outside actor). *)
Fixpoint drain (fuel : nat) (w : world) : world :=
  match fuel with
  | O => w
  | S f => match host_step w Tick with
           | Some w' => drain f w'
           | None => w
           end
  end.

Lemma host_step_tick_None w : host_step w Tick = None <-> pending (w_timers w) = [].
Proof.
  simpl. unfold next_task. rewrite <-earliest_None.
  destruct (earliest (pending (w_timers w))); simpl; [split; discriminate | done].
Qed.


