(* ===== verification/Safety.v ===== *)
(** * The control keeps the DOM a well-formed forest, on any page

    [keeps P m]: running the statement [m] from a world whose DOM
    satisfies the store invariant [P] ends in a world whose DOM satisfies
    [P], whether [m] completes or throws.  The predicate is closed under
    the monad's bind, and every primitive statement satisfies it for any
    [P] that is an instance of [Acyclic.DomInv] (kept by every DOM
    operation); the methods of [PcfDoomComponent] and the host's event
    handling are compositions of these, so every host step keeps [P], for
    any number of controls on the page.  The two instances are
    [DomWf.dom_wf] and [Acyclic.forest] (well formed and acyclic).

    On a well-formed DOM the boss key's handler [onBossKeyClick] never
    throws: the [TypeError] branch of line 151 ([parentNode] is [null])
    and the [NotFoundError] of [removeChild] cannot happen. *)

From S2P Require Import Prelude Dom DomWf Acyclic Timers Widget Host.

Definition keeps (P : dom closure -> Prop) {A} (m : M A) : Prop :=
  ∀ w, P (w_dom w) -> P (w_dom (snd (m w))).

(** [runs w w']: the host takes [w] to [w'] by some sequence of events,
    on a page holding any number of controls. *)
Inductive runs : world -> world -> Prop :=
  | runs_refl w : runs w w
  | runs_step w e w1 w' : host_step w e = Some w1 -> runs w1 w' -> runs w w'.

(** The statement completes normally (no exception escapes). *)
Definition completes {A} (m : M A) (w : world) : bool :=
  match fst (m w) with Ret _ => true | Throw _ => false end.

Section Keeps.
Context (P : dom closure -> Prop) `{!DomInv P}.

Lemma keeps_bind {A B} (m : M A) (f : A -> M B) :
  keeps P m -> (∀ a, keeps P (f a)) -> keeps P (m ≫= f).
Proof.
  intros Hm Hf w Hw. rewrite st_bind_run. specialize (Hm w Hw).
  destruct (m w) as [[a|e] w']; simpl in *; [by apply Hf | done].
Qed.

Lemma keeps_ret {A} (a : A) : keeps P (mret a).
Proof. by intros w. Qed.

Lemma keeps_throw {A} e : keeps P (throw (A:=A) e).
Proof. by intros w. Qed.

Lemma keeps_read {A} (f : dom closure -> A) : keeps P (dom_read f).
Proof. by intros w. Qed.

Lemma keeps_this_get self : keeps P (this_get self).
Proof. intros w. unfold this_get. by destruct (w_this w !! self). Qed.

Lemma keeps_this_upd self f : keeps P (this_upd self f).
Proof. intros w. unfold this_upd. by destruct (w_this w !! self). Qed.

Lemma keeps_this_ref self f : keeps P (this_ref self f).
Proof.
  apply keeps_bind; [apply keeps_this_get|]. intros c.
  destruct (f c); [apply keeps_ret | apply keeps_throw].
Qed.

Lemma keeps_set_timeout cb delay : keeps P (set_timeout cb delay).
Proof. intros w. unfold set_timeout. by destruct (setTimeout cb delay (w_timers w)). Qed.

Lemma keeps_dom_do f : op_inv P f -> keeps P (dom_do f).
Proof.
  intros Hf w Hw. unfold dom_do, lift_res. destruct (f (w_dom w)) eqn:E; simpl; [|done].
  by apply (Hf (w_dom w)).
Qed.

Lemma keeps_dom_create t : keeps P (dom_create t).
Proof.
  intros w Hw. unfold dom_create. pose proof (inv_createElement t _ Hw).
  by destruct (createElement t (w_dom w)).
Qed.

Lemma keeps_when_some {A} (o : option A) k :
  (∀ a, keeps P (k a)) -> keeps P (when_some o k).
Proof. destruct o; simpl; [intros Hk; apply Hk | intros _; apply keeps_ret]. Qed.

Lemma keeps_report (m : M unit) : keeps P m -> keeps P (report m).
Proof. intros Hm w Hw. apply (Hm w Hw). Qed.

End Keeps.

#[export] Hint Resolve keeps_ret keeps_throw keeps_read keeps_this_get
  keeps_this_upd keeps_this_ref keeps_set_timeout keeps_dom_do
  keeps_dom_create keeps_report : pcf.

(** Split a statement into its primitive steps and discharge each. *)
Ltac keeps_tac :=
  repeat match goal with
  | |- keeps _ (_ ≫= _) => apply keeps_bind; [|intros ?]
  | |- keeps _ (when_some _ _) => apply keeps_when_some; intros ?
  | |- keeps _ (match ?x with _ => _ end) => destruct x
  | |- keeps _ (if ?b then _ else _) => destruct b
  | |- keeps _ _ => solve [eauto with pcf]
  end.

Section Methods.
Context (P : dom closure -> Prop) `{!DomInv P}.

Lemma init_keeps self ctx container : keeps P (init self ctx container).
Proof. unfold init. keeps_tac. Qed.

Lemma renderDoomIframe_keeps self : keeps P (renderDoomIframe self).
Proof. unfold renderDoomIframe, createIFrameElement. keeps_tac. Qed.

Lemma updateView_keeps self ctx : keeps P (updateView self ctx).
Proof. unfold updateView. pose proof renderDoomIframe_keeps. keeps_tac. Qed.

Lemma run_closure_keeps cl : keeps P (run_closure cl).
Proof.
  destruct cl; simpl; unfold onBossKeyClick, animateIn, flyOut, removeContainer; keeps_tac.
Qed.

Lemma host_mount_keeps self ctx : keeps P (host_mount self ctx).
Proof.
  unfold host_mount. pose proof init_keeps. keeps_tac. by intros w.
Qed.

Lemma dispatch_click_keeps n : keeps P (dispatch_click n).
Proof.
  assert (Hall : ∀ cls, keeps P (run_all cls)).
  { induction cls; simpl; pose proof run_closure_keeps; keeps_tac. }
  assert (Hpath : ∀ path, keeps P (dispatch_path path)).
  { induction path; simpl; keeps_tac. }
  unfold dispatch_click. keeps_tac.
Qed.

(** One host step keeps the DOM well formed. *)
Lemma host_step_keeps w e w' :
  P (w_dom w) -> host_step w e = Some w' -> P (w_dom w').
Proof.
  intros Hw. destruct e; simpl.
  - case_decide; [intros [= <-] | discriminate]. by apply host_mount_keeps.
  - case_decide; [intros [= <-] | discriminate]. by apply updateView_keeps.
  - destruct (connected _ _); [intros [= <-] | discriminate]. by apply dispatch_click_keeps.
  - destruct (next_task _) as [[cb tm]|]; [intros [= <-] | discriminate].
    by apply (run_closure_keeps cb (mk_world (w_dom w) tm (w_this w))).
  - case_decide; [intros [= <-] | discriminate]. done.
Qed.

End Methods.

(** ** The boss key's handler on a well-formed page *)

Section BossKey.
Context (self : N) (w : world) (c : PcfDoomComponent).
Hypothesis Hc : w_this w !! self = Some c.

Lemma dom_do_Ret f d :
  f (w_dom w) = Ret d -> dom_do f w = (Ret tt, mk_world d (w_timers w) (w_this w)).
Proof. unfold dom_do, lift_res. intros ->. done. Qed.

Lemma querySelector_class_node (d : dom closure) n cl i :
  querySelector_class d n cl = Some i -> is_Some (d_nodes d !! i).
Proof.
  unfold querySelector_class. intros [_ H]%find_some. unfold has_class, node_at in H.
  destruct (d_nodes d !! i); [by eexists | discriminate].
Qed.

(** The path of [onBossKeyClick] through lines 124-126 to the branch on
    the iframe. *)
Lemma onBossKeyClick_run cont p :
  _container c = Some cont -> parentNode (w_dom w) cont = Some p ->
  onBossKeyClick self w =
  match querySelector_class (w_dom w) cont "PcfDoomComponent_IFrame" with
  | Some i =>
      (dom_do (setStyle i "position" "relative");;
       dom_do (setStyle i "left" "0");;
       dom_do (setStyle i "transition" "left 0.5s ease-in");;
       set_timeout (FlyOut self i) 10) w
  | None =>
      match removeChild p cont (w_dom w) with
      | Ret d' => (Ret tt, mk_world d' (w_timers w) (w_this w))
      | Throw e => (Throw e, w)
      end
  end.
Proof.
  intros Hcont Hp. unfold onBossKeyClick. rewrite st_bind_run. unfold this_get at 1.
  rewrite Hc, Hcont, st_bind_run. unfold dom_read at 1. simpl. rewrite Hp, st_bind_run.
  unfold this_ref at 1. rewrite st_bind_run. unfold this_get. rewrite Hc, Hcont. simpl.
  rewrite st_bind_run. unfold dom_read at 1. simpl.
  destruct (querySelector_class _ _ _) as [i|]; [done|].
  rewrite st_bind_run. unfold this_ref, this_get. rewrite st_bind_run, Hc, Hcont. simpl.
  rewrite st_bind_run. unfold dom_read. simpl. rewrite Hp.
  unfold dom_do, lift_res. by destruct (removeChild p cont (w_dom w)).
Qed.
End BossKey.

(** A style write on an existing node completes and keeps the node. *)
Lemma dom_do_setStyle_ok w i p v :
  is_Some (d_nodes (w_dom w) !! i) ->
  exists d', (∀ A (k : unit -> M A),
               (dom_do (setStyle i p v) ≫= k) w = k tt (mk_world d' (w_timers w) (w_this w))) /\
             is_Some (d_nodes d' !! i).
Proof.
  intros Hi. destruct (update_node_ok i (fun x => set_style_map (<[p:=v]> (n_style x)) x) _ Hi)
    as (d' & H & (Hdom & _)).
  exists d'. split; [|by apply Hdom]. intros A k. by rewrite st_bind_run, (dom_do_Ret w (setStyle i p v) d' H).
Qed.

(** ** Theorems *)

Lemma run_events_runs w es w' : run_events w es = Some w' -> runs w w'.
Proof.
  revert w. induction es as [|e es IH]; simpl; intros w; [intros [= <-]; constructor|].
  destruct (host_step w e) as [w1|] eqn:Hs; [|discriminate]. intros H. econstructor; eauto.
Qed.

(** Whatever the events (mounts of any number of controls, property
    updates, clicks, timer turns, destroys), a page whose DOM is well
    formed stays well formed: parent pointers and child lists agree, no
    node is its own parent, identifiers stay fresh. *)
Lemma runs_keep_dom_wf w w' : runs w w' -> dom_wf (w_dom w) -> dom_wf (w_dom w').
Proof.
  induction 1 as [w | w e w1 w' Hs _ IH]; intros Hw; [done|].
  apply IH. by eapply (host_step_keeps dom_wf).
Qed.

(** Whatever the events, a page whose DOM is a forest (well formed
    and no node its own ancestor) stays one: the [appendChild] calls of
    [init] and [renderDoomIframe] never close a cycle, because the
    hierarchy check they pass is adequate on a forest. *)
Lemma runs_keep_forest w w' : runs w w' -> forest (w_dom w) -> forest (w_dom w').
Proof.
  induction 1 as [w | w e w1 w' Hs _ IH]; intros Hw; [done|].
  apply IH. by eapply (host_step_keeps forest).
Qed.

(** C17. On a well-formed DOM, the boss key's handler of an existing
    control never throws: the iframe found by [querySelector] is a node,
    and in the fallback branch the container's parent is a node that
    lists it, so [removeChild] succeeds. *)
Theorem onBossKeyClick_never_throws self w c :
  dom_wf (w_dom w) -> w_this w !! self = Some c -> completes (onBossKeyClick self) w = true.
Proof.
  intros Hw Hc. unfold completes. destruct (_container c) as [cont|] eqn:Hcont; cycle 1.
  { unfold onBossKeyClick. rewrite st_bind_run. unfold this_get. by rewrite Hc, Hcont. }
  destruct (parentNode (w_dom w) cont) as [p|] eqn:Hp; cycle 1.
  { unfold onBossKeyClick. rewrite st_bind_run. unfold this_get. rewrite Hc, Hcont, st_bind_run.
    unfold dom_read. simpl. by rewrite Hp. }
  rewrite (onBossKeyClick_run self w c Hc cont p Hcont Hp).
  destruct (querySelector_class _ _ _) as [i|] eqn:Hi.
  - apply querySelector_class_node in Hi.
    destruct (dom_do_setStyle_ok w i "position" "relative" Hi) as (d1 & -> & H1).
    destruct (dom_do_setStyle_ok (mk_world d1 (w_timers w) (w_this w)) i "left" "0" H1) as (d2 & -> & H2).
    destruct (dom_do_setStyle_ok (mk_world d2 (w_timers w) (w_this w)) i "transition" "left 0.5s ease-in" H2)
      as (d3 & -> & _).
    unfold set_timeout. by destruct (setTimeout _ _ _).
  - destruct (removeChild_parent_ok p cont (w_dom w) Hw Hp) as [d' ->]. done.
Qed.

(** C18. The fallback branch of [onBossKeyClick] (lines 149-152): when the
    container is in the page but holds no iframe, the handler removes the
    container from its parent at once, keeps the DOM well formed, and
    changes nothing else: no timer is scheduled, no field is written. *)
Theorem onBossKeyClick_fallback self w c cont p :
  dom_wf (w_dom w) -> w_this w !! self = Some c -> _container c = Some cont ->
  parentNode (w_dom w) cont = Some p ->
  querySelector_class (w_dom w) cont "PcfDoomComponent_IFrame" = None ->
  completes (onBossKeyClick self) w = true /\
  exists d', exec (onBossKeyClick self) w = mk_world d' (w_timers w) (w_this w) /\
    dom_wf d' /\ parentNode d' cont = None /\
    children_of d' p = filter (fun y => y ≠ cont) (children_of (w_dom w) p).
Proof.
  intros Hw Hc Hcont Hp Hq. unfold completes, exec.
  rewrite (onBossKeyClick_run self w c Hc cont p Hcont Hp), Hq.
  destruct (removeChild_parent_ok p cont (w_dom w) Hw Hp) as [d' Hr]. rewrite Hr.
  split; [done|]. exists d'. split; [done|]. split; [by eapply removeChild_wf|].
  apply removeChild_Ret in Hr as [_ (_ & C & P)%detach_effect].
  rewrite C, P. by rewrite !decide_True.
Qed.

(** ** A page with one control, mounted and not yet revealed *)

Definition mount_only : list event := [Mount 0 (mk_context None)].

Definition mounted_page : world := default empty_world (run_events empty_world mount_only).

Lemma onBossKeyClick_never_throws_witness : completes (onBossKeyClick 0) mounted_page = true.
Proof.
  apply (onBossKeyClick_never_throws 0 mounted_page
           (mk_component (Some 2%N) (Some 1%N) (Some (mk_context None)) (Some false) None
              (Some 3%N)));
    [apply dom_wfb_spec; vm_compute; reflexivity | vm_compute; reflexivity].
Defined.

Lemma onBossKeyClick_fallback_witness :
  completes (onBossKeyClick 0) mounted_page = true /\
  exists d', exec (onBossKeyClick 0) mounted_page =
             mk_world d' (w_timers mounted_page) (w_this mounted_page) /\
    dom_wf d' /\ parentNode d' 2 = None /\
    children_of d' 1 = filter (fun y => y ≠ 2%N) (children_of (w_dom mounted_page) 1).
Proof.
  apply (onBossKeyClick_fallback 0 mounted_page
           (mk_component (Some 2%N) (Some 1%N) (Some (mk_context None)) (Some false) None
              (Some 3%N)) 2 1);
    [apply dom_wfb_spec | ..]; vm_compute; reflexivity.
Defined.
