(* ===== verification/Page.v ===== *)
(** * A page with one control: its reachable worlds

    The PCF runtime mounts control [0] on an empty page; afterwards the
    events are property updates, clicks, timer turns and [destroy] (no
    second control: see [Scenarios] and [Controls] for that).  [reachable] is the set of
    worlds this produces.

    The main invariant ([reachable_shape]) describes every reachable world
    exactly: it is [shape p] for parameters [p] that satisfy [valid].  The
    parameters are the context the control was mounted with, the one-shot
    flag, the textarea's [display], whether the wrapper is still in the
    page, the iframe's inline style (which depends on how the animation
    timers interleave with the click) and the timer list.  Node [1] is the
    runtime's container, [2] the wrapper [_container], [3] the button
    [_bossKey], [4] the textarea and [5] the iframe.  Each event maps a
    shape to a shape ([step_shape]); the cases are computed by
    [vm_compute] on the symbolic parameters. *)

From S2P Require Import Prelude Dom Timers Widget Host.

Record params := mk_params {
  p_ctx : context;
  p_flag : bool;
  p_display : option string;
  p_attached : bool;
  p_iframe_style : gmap string string;
  p_timers : timers closure
}.

(** The inline style [init] gives the textarea, with its [display]. *)
Definition textarea_style (disp : option string) : gmap string string :=
  let base : gmap string string :=
    <["borderRadius" := "4px"]> (<["border" := "1px solid #ccc"]>
    (<["padding" := "10px"]> (<["fontSize" := "14px"]> (<["height" := "60%"]>
    (<["width" := "95%"]> {["font" := "Segoe UI"]}))))) in
  match disp with None => base | Some v => <["display" := v]> base end.

Definition shape (p : params) : world :=
  let f := p_flag p in
  let nodes : gmap N (node closure) :=
    <[0%N := mk_node Body ∅ ∅ "" "" [] None [1%N]]>
    (<[1%N := mk_node Div ∅ ∅ "" "" [] (Some 0%N)
                      (if p_attached p then [4%N; 2%N] else [4%N])]>
    (<[2%N := mk_node Div {["class" := "iframe-wrapper"]} ∅ "" "" []
                      (if p_attached p then Some 1%N else None)
                      (if f then [5%N; 3%N] else [])]>
    (<[3%N := mk_node Button {["class" := "bossKey"]} ∅ "" "BOSS KEY"
                      [("click", BossKeyClick 0)] (if f then Some 2%N else None) []]>
    (<[4%N := mk_node TextArea {["id" := "seriousTextArea"]} (textarea_style (p_display p))
                 "We are currently working on the TPS report for this customer " "" []
                 (Some 1%N) []]>
    (if f then {[5%N := mk_node IFrame
                          (<["src" := iFrameSrc]> {["class" := "PcfDoomComponent_IFrame"]})
                          (p_iframe_style p) "" "" [] (Some 2%N) []]}
     else ∅))))) in
  mk_world (mk_dom nodes (if f then 6 else 5) 0) (p_timers p)
    {[0%N := mk_component (Some 2%N) (Some 1%N) (Some (p_ctx p)) (Some f)
               (if f then Some 5%N else None) (Some 3%N)]}.

(** The callbacks that can be pending on the page. *)
Definition page_callback (cb : closure) : Prop :=
  cb = AnimateIn 0 \/ cb = FlyOut 0 5 \/ cb = RemoveContainer 0.

Definition valid (p : params) : Prop :=
  timers_wf (p_timers p) /\
  Forall (fun t => page_callback (t_cb t)) (pending (p_timers p)) /\
  within 500 (p_timers p) /\
  if p_flag p
  then (p_attached p = true /\ p_display p = Some "none") \/
       (p_attached p = false /\ p_display p = Some "block")
  else p_display p = None /\ p_attached p = true /\ pending (p_timers p) = [].

(** ** The parameters after each event *)

Definition with_timers (p : params) (tm : timers closure) : params :=
  mk_params (p_ctx p) (p_flag p) (p_display p) (p_attached p) (p_iframe_style p) tm.

(** The style [renderDoomIframe] gives the iframe. *)
Definition render_style : gmap string string :=
  <["transition" := "all 0.8s cubic-bezier(0.2, 0.8, 0.2, 1)"]>
  (<["transform" := "scale(0.5) rotate(-10deg)"]>
  (<["opacity" := "0"]> (<["top" := "100vh"]> {["position" := "relative"]}))).

Definition page_update (ctx : context) (p : params) : params :=
  if negb (p_flag p) && bool_decide (DoomEnablerOptionSet_raw ctx = Some 5%Z)
  then mk_params (p_ctx p) true (Some "none") (p_attached p) render_style
                 (setTimeout (AnimateIn 0) 100 (p_timers p)).2
  else p.

Definition page_click (p : params) : params :=
  mk_params (p_ctx p) (p_flag p) (p_display p) (p_attached p)
    (<["transition" := "left 0.5s ease-in"]> (<["left" := "0"]>
      (<["position" := "relative"]> (p_iframe_style p))))
    (setTimeout (FlyOut 0 5) 10 (p_timers p)).2.

Definition page_run (cb : closure) (p : params) : params :=
  match cb with
  | AnimateIn _ =>
      mk_params (p_ctx p) (p_flag p) (p_display p) (p_attached p)
        (<["transform" := "scale(1) rotate(0deg)"]> (<["opacity" := "1"]>
          (<["top" := "0"]> (p_iframe_style p)))) (p_timers p)
  | FlyOut _ _ =>
      mk_params (p_ctx p) (p_flag p) (p_display p) (p_attached p)
        (<["left" := "-100vw"]> (p_iframe_style p))
        (setTimeout (RemoveContainer 0) 500 (p_timers p)).2
  | RemoveContainer _ =>
      mk_params (p_ctx p) (p_flag p) (Some "block") false (p_iframe_style p) (p_timers p)
  | BossKeyClick _ => p
  end.

(** ** Reachable worlds *)

Definition is_mount (e : event) : bool :=
  match e with Mount _ _ => true | _ => false end.

Inductive reachable : world -> Prop :=
  | reachable_mount ctx : reachable (exec (host_mount 0 ctx) empty_world)
  | reachable_step w e w' :
      reachable w -> is_mount e = false -> host_step w e = Some w' -> reachable w'.

(** ** Each event maps a shape to a shape *)

Lemma mount_shape ctx :
  exec (host_mount 0 ctx) empty_world = shape (mk_params ctx false None true ∅ no_timers).
Proof. vm_compute. reflexivity. Qed.

Lemma update_shape p ctx :
  valid p -> host_step (shape p) (Update 0 ctx) = Some (shape (page_update ctx p)).
Proof.
  intros (_ & _ & _ & Hv). destruct p as [c [] disp att s tm]; simpl in Hv.
  - (* rendered: [updateView] is a no-op *)
    unfold page_update; simpl. unfold host_step, exec, report. simpl.
    by rewrite (updateView_guard_false 0 (shape (mk_params c true disp att s tm)) _ eq_refl
               ctx eq_refl).
  - destruct Hv as (-> & -> & _). destruct ctx as [raw].
    destruct (decide (raw = Some 5%Z)) as [->|Hne]; [vm_compute; reflexivity|].
    unfold page_update; simpl. rewrite bool_decide_eq_false_2 by done. simpl.
    unfold host_step, exec, report; simpl.
    rewrite (updateView_guard_false 0 (shape (mk_params c false None true s tm)) _ eq_refl);
      [done|]. simpl. by rewrite bool_decide_eq_false_2.
Qed.

(** The nodes of a shaped page are the six listed above. *)
Lemma shape_nodes p n :
  is_Some (d_nodes (w_dom (shape p)) !! n) -> n = 0%N \/ n = 1%N \/ n = 2%N \/ n = 3%N \/ n = 4%N \/ n = 5%N.
Proof.
  intros [x Hx]. simpl in Hx.
  repeat (apply lookup_insert_Some in Hx as [[<- _]|[_ Hx]]; [naive_solver|]).
  destruct (p_flag p); [apply lookup_singleton_Some in Hx as [<- _]; naive_solver|].
  by rewrite lookup_empty in Hx.
Qed.

(** A click does something only on the button, and only while it is in the
    page: the revealed state. *)
Definition click_effect (n : N) (p : params) : params :=
  if bool_decide (n = 3%N) && p_flag p && p_attached p then page_click p else p.

(** The three kinds of valid parameters, by the flag and the wrapper. *)
Lemma valid_cases p :
  valid p ->
  (p_flag p = false /\ p_display p = None /\ p_attached p = true /\ pending (p_timers p) = []) \/
  (p_flag p = true /\ p_attached p = true /\ p_display p = Some "none") \/
  (p_flag p = true /\ p_attached p = false /\ p_display p = Some "block").
Proof. intros (_ & _ & _ & Hv). destruct (p_flag p); intuition auto. Qed.

Ltac destruct_params p :=
  let c := fresh "c" in let f := fresh "f" in let disp := fresh "disp" in
  let att := fresh "att" in let s := fresh "s" in let tm := fresh "tm" in
  destruct p as [c f disp att s tm]; simpl in *; subst.

Lemma click_shape p n :
  valid p -> connected (w_dom (shape p)) n = true ->
  host_step (shape p) (Click n) = Some (shape (click_effect n p)).
Proof.
  intros Hv Hc. unfold host_step. rewrite Hc.
  destruct (connected_node _ _ Hc) as [->|Hn%shape_nodes]; [|repeat destruct Hn as [->|Hn]];
    subst; destruct (valid_cases p Hv) as [(?&?&?&?)|[(?&?&?)|(?&?&?)]];
    destruct_params p; vm_compute in Hc |- *; try discriminate; reflexivity.
Qed.

Lemma destroy_shape p : host_step (shape p) (Destroy 0) = Some (shape p).
Proof. reflexivity. Qed.

Lemma tick_shape p cb tm :
  valid p -> next_task (p_timers p) = Some (cb, tm) ->
  host_step (shape p) Tick = Some (shape (page_run cb (with_timers p tm))).
Proof.
  intros Hv Hn. pose proof Hv as (Hwf & Hcb & _).
  destruct (next_task_inv _ _ _ Hwf Hn) as (t & Ht & -> & _).
  unfold host_step. simpl. rewrite Hn. change (mk_world _ tm _) with (shape (with_timers p tm)).
  rewrite Forall_forall in Hcb.
  destruct (valid_cases p Hv) as [(?&?&?&Hnil)|[(?&?&?)|(?&?&?)]];
    [rewrite Hnil in Ht; inversion Ht | | ];
    destruct (Hcb t Ht) as [-> | [-> | ->]]; destruct_params p; vm_compute; reflexivity.
Qed.

(** ** Every reachable world is a valid shape *)

Lemma page_timers_add p cb delay :
  valid p -> page_callback cb -> (delay <= 500)%Z ->
  timers_wf (setTimeout cb delay (p_timers p)).2 /\
  Forall (fun t => page_callback (t_cb t)) (pending (setTimeout cb delay (p_timers p)).2) /\
  within 500 (setTimeout cb delay (p_timers p)).2.
Proof.
  intros (Hwf & Hcb & Hh & _) Hc Hd. split; [by apply setTimeout_wf|]. split.
  - simpl. apply Forall_app. split; [done|]. by constructor.
  - by apply setTimeout_within.
Qed.

Lemma page_update_valid p ctx : valid p -> valid (page_update ctx p).
Proof.
  intros Hv. unfold page_update.
  destruct (negb (p_flag p) && _) eqn:E; [|done].
  destruct (page_timers_add p (AnimateIn 0) 100) as (Hwf' & Hcb' & Hh'); [done | by left | lia |].
  destruct Hv as (_ & _ & _ & Hrest). destruct (p_flag p); [done|].
  destruct Hrest as (_ & Ha & _). split; [done|]. split; [done|]. split; [done|]. simpl. left. by split.
Qed.

Lemma page_click_valid p n : valid p -> valid (click_effect n p).
Proof.
  intros Hv. unfold click_effect.
  destruct (bool_decide _ && _ && _) eqn:E; [|done].
  destruct (page_timers_add p (FlyOut 0 5) 10) as (Hwf' & Hcb' & Hh'); [done | by right; left | lia |].
  apply andb_true_iff in E as [[_ Hf]%andb_true_iff _].
  destruct Hv as (_ & _ & _ & Hv). split; [done|]. split; [done|]. split; [done|].
  simpl. by rewrite Hf in Hv |- *.
Qed.

Lemma page_run_valid p cb tm :
  valid p -> next_task (p_timers p) = Some (cb, tm) -> valid (page_run cb (with_timers p tm)).
Proof.
  intros Hv Hn. pose proof Hv as (Hwf & Hcb & Hh & Hflag).
  pose proof (next_task_within _ _ _ _ Hwf Hh Hn) as Hh'.
  destruct (next_task_inv _ _ _ Hwf Hn) as (t & Ht & -> & _ & Hpend & _ & Hwf').
  rewrite Forall_forall in Hcb.
  assert (Hcb' : Forall (fun t => page_callback (t_cb t)) (pending tm)).
  { apply Forall_forall. intros x Hx. rewrite Hpend in Hx.
    apply remove_task_elem in Hx as [Hx _]. by apply Hcb. }
  destruct (valid_cases p Hv) as [(_&_&_&Hnil)|[(Hf&Ha&Hd)|(Hf&Ha&Hd)]];
    [rewrite Hnil in Ht; inversion Ht | | ].
  all: destruct (Hcb t Ht) as [-> | [-> | ->]].
  all: destruct (page_timers_add (with_timers p tm) (RemoveContainer 0) 500) as (Hwf'' & Hcb'' & Hh'');
    [split; [done|]; split; [done|]; split; [done|]; simpl; rewrite Hf; intuition congruence
    | by right; right | lia |].
  all: split; [done|]; split; [done|]; split; [done|]; simpl; rewrite Hf; intuition congruence.
Qed.

Lemma step_shape p e w' :
  valid p -> is_mount e = false -> host_step (shape p) e = Some w' ->
  exists p', valid p' /\ w' = shape p'.
Proof.
  intros Hv Hm Hs. destruct e as [| self ctx | n | | self]; [done | | | |].
  - destruct (decide (self = 0%N)) as [->|Hne].
    + rewrite update_shape in Hs by done. simplify_eq. eexists; split; [|done].
      by apply page_update_valid.
    + simpl in Hs. rewrite lookup_singleton_ne in Hs by done. by rewrite decide_False in Hs.
  - destruct (connected (w_dom (shape p)) n) eqn:Hc; [|unfold host_step in Hs; by rewrite Hc in Hs].
    rewrite click_shape in Hs by done. simplify_eq. eexists; split; [|done].
    by apply page_click_valid.
  - destruct (next_task (p_timers p)) as [[cb tm]|] eqn:Hn; [|unfold host_step in Hs;
      change (w_timers (shape p)) with (p_timers p) in Hs; by rewrite Hn in Hs].
    rewrite (tick_shape p cb tm) in Hs by done. simplify_eq. eexists; split; [|done].
    by apply page_run_valid.
  - destruct (decide (self = 0%N)) as [->|Hne].
    + rewrite destroy_shape in Hs. simplify_eq. by exists p.
    + simpl in Hs. rewrite lookup_singleton_ne in Hs by done. by rewrite decide_False in Hs.
Qed.

(** The invariant of the page: every reachable world is the shape of
    valid parameters.  In particular the fields of [this] always point to
    the same five elements, the one-shot flag decides whether the iframe
    exists, and only the three timer callbacks of the control are ever
    pending. *)
Lemma reachable_shape w : reachable w -> exists p, valid p /\ w = shape p.
Proof.
  induction 1 as [ctx | w e w' _ [p [Hv ->]] Hm Hs].
  - eexists. rewrite mount_shape. split; [|done].
    repeat split; [constructor | constructor | constructor | constructor].
  - by eapply step_shape.
Qed.

(** ** Two concrete worlds of the page *)

(** The page right after the runtime mounted the control. *)
Definition mounted_world : world := exec (host_mount 0 (mk_context None)) empty_world.

Definition trigger_ctx : context := mk_context (Some 5%Z).

(** The page after the option set reached 5. *)
Definition revealed_world : world :=
  default mounted_world (host_step mounted_world (Update 0 trigger_ctx)).
