(* ===== verification/Methods.v ===== *)
(** * The methods on an arbitrary page

    [init] and [renderDoomIframe] run on any world whose DOM is well
    formed, not only on the single-control page of [Page]: the theorems
    here describe their effect there, node by node.  The proofs execute
    the method symbolically: one rewriting lemma per primitive statement
    ([bind_dom_create], [bind_dom_do], [bind_this_upd], ...), with the
    fresh nodes updated where they were inserted ([update_node_top]), and
    [DomWf]'s description of [appendChild] for the two insertions into
    the page. *)

From S2P Require Import Prelude Dom DomWf Acyclic ClassList Timers Widget Host Page.

Section Bind.
Context {A : Type}.
Implicit Types (m : gmap N (node closure)) (tm : timers closure) (th : gmap N PcfDoomComponent).

Lemma bind_dom_create t (k : N -> M A) m nx doc tm th :
  (dom_create t ≫= k) (mk_world (mk_dom m nx doc) tm th) =
  k nx (mk_world (mk_dom (<[nx := new_node t]> m) (nx + 1) doc) tm th).
Proof. done. Qed.

Lemma bind_dom_read {B} (f : dom closure -> B) (k : B -> M A) w :
  (dom_read f ≫= k) w = k (f (w_dom w)) w.
Proof. done. Qed.

Lemma bind_dom_do f (k : unit -> M A) d d' tm th :
  f d = Ret d' -> (dom_do f ≫= k) (mk_world d tm th) = k tt (mk_world d' tm th).
Proof. intros Hf. rewrite st_bind_run. unfold dom_do, lift_res. simpl. by rewrite Hf. Qed.

(** An update of the node inserted last. *)
Lemma bind_update_top n f (k : unit -> M A) x m nx doc tm th :
  (dom_do (update_node n f) ≫= k) (mk_world (mk_dom (<[n := x]> m) nx doc) tm th) =
  k tt (mk_world (mk_dom (<[n := f x]> m) nx doc) tm th).
Proof. apply bind_dom_do, update_node_top. Qed.

Lemma bind_this_upd self f (k : unit -> M A) d tm th c :
  th !! self = Some c ->
  (this_upd self f ≫= k) (mk_world d tm th) = k tt (mk_world d tm (<[self := f c]> th)).
Proof. intros Hc. rewrite st_bind_run. unfold this_upd. simpl. by rewrite Hc. Qed.

Lemma bind_this_upd_top self f (k : unit -> M A) d tm th c :
  (this_upd self f ≫= k) (mk_world d tm (<[self := c]> th)) =
  k tt (mk_world d tm (<[self := f c]> th)).
Proof. rewrite bind_this_upd with (c := c) by apply lookup_insert_eq. by rewrite insert_insert_eq. Qed.

Lemma bind_this_ref self f (k : N -> M A) d tm th c n :
  f c = Some n -> (this_ref self f ≫= k) (mk_world d tm (<[self := c]> th)) =
                  k n (mk_world d tm (<[self := c]> th)).
Proof.
  intros Hf. rewrite st_bind_run. unfold this_ref. rewrite st_bind_run. unfold this_get. simpl.
  by rewrite lookup_insert_eq, Hf.
Qed.

Lemma bind_this_get self (k : PcfDoomComponent -> M A) d tm th c :
  th !! self = Some c -> (this_get self ≫= k) (mk_world d tm th) = k c (mk_world d tm th).
Proof. intros Hc. rewrite st_bind_run. unfold this_get. simpl. by rewrite Hc. Qed.

(** Reading a field that is [undefined] as an object throws. *)
Lemma bind_this_ref_undefined self f (k : N -> M A) d tm th c :
  f c = None -> (this_ref self f ≫= k) (mk_world d tm (<[self := c]> th)) =
                (Throw TypeError, mk_world d tm (<[self := c]> th)).
Proof.
  intros Hf. rewrite st_bind_run. unfold this_ref. rewrite st_bind_run. unfold this_get. simpl.
  by rewrite lookup_insert_eq, Hf.
Qed.

Lemma bind_dom_do_throw f (k : unit -> M A) d e tm th :
  f d = Throw e -> (dom_do f ≫= k) (mk_world d tm th) = (Throw e, mk_world d tm th).
Proof. intros Hf. rewrite st_bind_run. unfold dom_do, lift_res. simpl. by rewrite Hf. Qed.

Lemma bind_set_timeout cb delay (k : unit -> M A) d tm th :
  (set_timeout cb delay ≫= k) (mk_world d tm th) =
  k tt (mk_world d (setTimeout cb delay tm).2 th).
Proof. rewrite st_bind_run. unfold set_timeout. by destruct (setTimeout _ _ _). Qed.
End Bind.

Lemma this_upd_top self f d tm th c :
  this_upd self f (mk_world d tm (<[self := c]> th)) =
  (Ret tt, mk_world d tm (<[self := f c]> th)).
Proof. unfold this_upd. simpl. by rewrite lookup_insert_eq, insert_insert_eq. Qed.

Lemma set_timeout_run cb delay d tm th :
  set_timeout cb delay (mk_world d tm th) = (Ret tt, mk_world d (setTimeout cb delay tm).2 th).
Proof. unfold set_timeout. by destruct (setTimeout _ _ _). Qed.

(** Run the primitive statement at the head of the goal, then compute the
    records it wrote. *)
Ltac run_step :=
  first
  [ rewrite bind_dom_create
  | rewrite bind_dom_read
  | rewrite bind_set_timeout
  | rewrite bind_this_upd_top
  | rewrite bind_update_top
  | erewrite bind_this_ref by (cbn; first [reflexivity | eassumption])
  | erewrite bind_this_upd by eassumption ];
  cbv beta iota delta [set_attrs set_style_map set_container set_rootContainer set_context
    set_bossKey set_doomIframe set_controlViewRendered new_node app];
  cbn [n_attrs n_style n_tag n_value n_text n_listeners n_parent n_children
       _container _rootContainer _context _controlViewRendered _doomIframe _bossKey].

(** ** [init] *)

(** The three elements [init] creates, as it leaves them before inserting
    them: the wrapper, the button with its listener, the decoy. *)
Definition init_wrapper : node closure :=
  mk_node Div {["class" := "iframe-wrapper"]} ∅ "" "" [] None [].

Definition init_button (self : N) : node closure :=
  mk_node Button {["class" := "bossKey"]} ∅ "" "BOSS KEY" [("click", BossKeyClick self)] None [].

Definition init_textarea : node closure :=
  mk_node TextArea (delete "readonly" {["id" := "seriousTextArea"]}) (textarea_style None)
    "We are currently working on the TPS report for this customer " "" [] None [].

Section InitRun.
Context (self container : N) (ctx : context) (m : gmap N (node closure)) (nx doc : N)
  (tm : timers closure) (th : gmap N PcfDoomComponent) (c0 : PcfDoomComponent).
Hypothesis Hthis : th !! self = Some c0.

(** The store before the two insertions: three fresh nodes. *)
Definition init_fresh : dom closure :=
  mk_dom (<[(nx + 2)%N := init_textarea]> (<[(nx + 1)%N := init_button self]>
           (<[nx := init_wrapper]> m))) (nx + 3) doc.

Definition init_fields (flag : option bool) : PcfDoomComponent :=
  mk_component (Some nx) (Some container) (Some ctx) flag (_doomIframe c0) (Some (nx + 1)%N).

(** [init] on any world: it creates the three elements, then appends the
    decoy and the wrapper to the container it was given; either insertion
    can throw, leaving what was done before. *)
Lemma init_fresh_old j : (j < nx)%N -> d_nodes init_fresh !! j = m !! j.
Proof. intros Hj. simpl. rewrite !lookup_insert_ne by lia. done. Qed.

Lemma init_fresh_wf : dom_wf (mk_dom m nx doc) -> dom_wf init_fresh.
Proof.
  intros Hwf. unfold init_fresh.
  assert (H1 := dom_wf_insert_isolated _ init_wrapper Hwf eq_refl eq_refl). simpl in H1.
  assert (H2 := dom_wf_insert_isolated _ (init_button self) H1 eq_refl eq_refl). simpl in H2.
  assert (H3 := dom_wf_insert_isolated _ init_textarea H2 eq_refl eq_refl). simpl in H3.
  by replace (nx + 2)%N with (nx + 1 + 1)%N by lia; replace (nx + 3)%N with (nx + 1 + 1 + 1)%N by lia.
Qed.

Lemma init_run :
  init self ctx container (mk_world (mk_dom m nx doc) tm th) =
  match appendChild container (nx + 2) init_fresh with
  | Throw e => (Throw e, mk_world init_fresh tm (<[self := init_fields (_controlViewRendered c0)]> th))
  | Ret dB =>
      match appendChild container nx dB with
      | Throw e => (Throw e, mk_world dB tm (<[self := init_fields (_controlViewRendered c0)]> th))
      | Ret dC => (Ret tt, mk_world dC tm (<[self := init_fields (Some false)]> th))
      end
  end.
Proof.
  unfold init, classList_add, setTextContent, addEventListener, setAttribute, setValue, setStyle,
    setReadOnly, removeAttribute.
  repeat run_step.
  assert (E2 : (nx + 1 + 1 = nx + 2)%N) by lia. assert (E3 : (nx + 1 + 1 + 1 = nx + 3)%N) by lia.
  rewrite ?E3, ?E2.
  match goal with |- (dom_do (appendChild _ _) ≫= _) (mk_world ?D _ ?T) = _ =>
    change D with init_fresh; change T with (<[self := init_fields (_controlViewRendered c0)]> th) end.
  destruct (appendChild container (nx + 2) init_fresh) as [dB|e] eqn:E1;
    [rewrite (bind_dom_do _ _ _ _ _ _ E1) | by rewrite (bind_dom_do_throw _ _ _ _ _ _ E1)].
  do 2 run_step.
  destruct (appendChild container nx dB) as [dC|e] eqn:E4;
    [rewrite (bind_dom_do _ _ _ _ _ _ E4) | by rewrite (bind_dom_do_throw _ _ _ _ _ _ E4)].
  by rewrite this_upd_top.
Qed.
End InitRun.

(** The effect of [init] on a well-formed page, node by node. *)
Lemma init_spec self ctx container w c0 :
  dom_wf (w_dom w) -> w_this w !! self = Some c0 -> is_Some (d_nodes (w_dom w) !! container) ->
  let n := d_next (w_dom w) in
  exists d', init self ctx container w =
    (Ret tt, mk_world d' (w_timers w)
       (<[self := mk_component (Some n) (Some container) (Some ctx) (Some false)
                    (_doomIframe c0) (Some (n + 1)%N)]> (w_this w))) /\
    dom_wf d' /\
    children_of d' container = children_of (w_dom w) container ++ [(n + 2)%N; n] /\
    parentNode d' (n + 1) = None /\
    content d' n = Some (content_of init_wrapper) /\
    content d' (n + 1) = Some (content_of (init_button self)) /\
    content d' (n + 2) = Some (content_of init_textarea) /\
    (∀ k, k ≠ container -> is_Some (d_nodes (w_dom w) !! k) -> d_nodes d' !! k = d_nodes (w_dom w) !! k) /\
    children_of d' (n + 1) = [] /\ d_next d' = (n + 3)%N /\ d_document d' = d_document (w_dom w) /\
    (∀ k, is_Some (d_nodes d' !! k) <->
          is_Some (d_nodes (w_dom w) !! k) \/ k = n \/ k = (n + 1)%N \/ k = (n + 2)%N) /\
    (∀ k, is_Some (d_nodes (w_dom w) !! k) -> content d' k = content (w_dom w) k).
Proof.
  destruct w as [[mm nx doc] tm th]; simpl. intros Hwf Hc Hr.
  assert (Hlt : (container < nx)%N) by exact (proj1 (proj2 Hwf) container Hr).
  rewrite (init_run self container ctx mm nx doc tm th c0 Hc).
  set (dA := init_fresh self mm nx doc).
  assert (HwfA : dom_wf dA) by (by apply init_fresh_wf).
  assert (HAold : ∀ j, (j < nx)%N -> d_nodes dA !! j = mm !! j) by (apply init_fresh_old).
  (* the decoy goes in *)
  destruct (appendChild_leaf_ok dA container (nx + 2)) as [dB HB]; [done | by rewrite HAold |
    simpl; rewrite lookup_insert_eq; by eexists | lia |
    unfold children_of, node_at; simpl; by rewrite lookup_insert_eq |].
  rewrite HB. destruct (appendChild_effect _ _ _ _ HwfA HB) as ((FB & FBn & FBd) & CB & PB).
  pose proof (appendChild_wf _ _ _ _ HwfA HB) as HwfB.
  (* the wrapper goes in *)
  assert (HnA : d_nodes dA !! nx = Some init_wrapper) by (simpl; rewrite !lookup_insert_ne by lia;
    apply lookup_insert_eq).
  destruct (appendChild_leaf_ok dB container nx) as [dC HC]; [done | rewrite FB, HAold by done; done |
    rewrite FB, HnA; by eexists | lia |
    rewrite CB, decide_False by lia; unfold children_of, node_at; by rewrite HnA |].
  rewrite HC. destruct (appendChild_effect _ _ _ _ HwfB HC) as ((FC & FCn & FCd) & CC & PC).
  eexists. split; [reflexivity|]. split; [by eapply appendChild_wf|].
  assert (HAviews : ∀ k, (k < nx)%N -> children_of dA k = children_of (mk_dom mm nx doc) k /\
    parentNode dA k = parentNode (mk_dom mm nx doc) k /\ content dA k = content (mk_dom mm nx doc) k).
  { intros k Hk. unfold children_of, parentNode, content, node_at. by rewrite HAold. }
  assert (Hkeep : ∀ k, (k < nx)%N ->
    filter (fun y => y ≠ (nx + 2)%N) (children_of dA k) = children_of dA k /\
    filter (fun y => y ≠ nx) (children_of dA k) = children_of dA k).
  { intros k Hk. rewrite (proj1 (HAviews k Hk)).
    split; apply list_filter_id; intros y Hy%(wf_child_fresh _ _ _ Hwf); simpl in Hy; lia. }
  split; [|split; [|split; [|split; [|split; [|split; [|split; [|split; [|split; [|split]]]]]]]]].
  - rewrite CC, decide_True, CB, decide_True by done.
    destruct (Hkeep container Hlt) as [-> _]. rewrite filter_app, filter_cons_True by lia.
    rewrite (proj2 (Hkeep container Hlt)), (proj1 (HAviews container Hlt)). simpl.
    by rewrite <-app_assoc.
  - rewrite PC, decide_False, PB, decide_False by lia.
    unfold parentNode, node_at. simpl. rewrite lookup_insert_ne, lookup_insert_eq by lia. done.
  - rewrite (appendChild_content _ _ _ _ _ HC), (appendChild_content _ _ _ _ _ HB).
    unfold content. by rewrite HnA.
  - rewrite (appendChild_content _ _ _ _ _ HC), (appendChild_content _ _ _ _ _ HB).
    unfold content. simpl. by rewrite lookup_insert_ne, lookup_insert_eq by lia.
  - rewrite (appendChild_content _ _ _ _ _ HC), (appendChild_content _ _ _ _ _ HB).
    unfold content. simpl. by rewrite lookup_insert_eq.
  - intros k Hk Hks. assert (Hkn : (k < nx)%N) by exact (proj1 (proj2 Hwf) k Hks).
    destruct (HAviews k Hkn) as (Hch & Hpar & Hcon).
    apply (lookup_eq_views (mk_dom mm nx doc) dC k); [| | | done].
    + rewrite (appendChild_content _ _ _ _ _ HC), (appendChild_content _ _ _ _ _ HB). done.
    + rewrite PC, decide_False, PB, decide_False by lia. done.
    + rewrite CC, decide_False, CB, decide_False by done. rewrite !app_nil_r.
      rewrite (proj1 (Hkeep k Hkn)), (proj2 (Hkeep k Hkn)). done.
  - rewrite CC, decide_False, CB, decide_False by lia. rewrite !app_nil_r.
    unfold children_of, node_at. simpl. by rewrite lookup_insert_ne, lookup_insert_eq by lia.
  - rewrite FCn, FBn. simpl. lia.
  - by rewrite FCd, FBd.
  - intros k. rewrite FC, FB. simpl. rewrite !lookup_insert_is_Some'. naive_solver.
  - intros k Hks. assert (Hkn : (k < nx)%N) by exact (proj1 (proj2 Hwf) k Hks).
    rewrite (appendChild_content _ _ _ _ _ HC), (appendChild_content _ _ _ _ _ HB).
    exact (proj2 (proj2 (HAviews k Hkn))).
Qed.


(** C14. [init] on any page whose DOM is well formed, given a container
    that is a node of the page: it completes; the page stays well formed;
    the decoy and then the wrapper are appended, last, to the container;
    the button stays detached; the three new elements hold what lines
    29-47 write (the classes ["iframe-wrapper"] and ["bossKey"], the
    text, the click listener bound to the instance, the decoy's id, value
    and style); the fields point to them and the flag is [false]; no other
    node of the page changes and no timer is scheduled. *)
Theorem init_effect self ctx container w c0 :
  dom_wf (w_dom w) -> w_this w !! self = Some c0 -> is_Some (d_nodes (w_dom w) !! container) ->
  let n := d_next (w_dom w) in
  exists d', init self ctx container w =
    (Ret tt, mk_world d' (w_timers w)
       (<[self := mk_component (Some n) (Some container) (Some ctx) (Some false)
                    (_doomIframe c0) (Some (n + 1)%N)]> (w_this w))) /\
    dom_wf d' /\
    children_of d' container = children_of (w_dom w) container ++ [(n + 2)%N; n] /\
    parentNode d' (n + 1) = None /\
    content d' n = Some (content_of init_wrapper) /\
    content d' (n + 1) = Some (content_of (init_button self)) /\
    content d' (n + 2) = Some (content_of init_textarea) /\
    (∀ k, k ≠ container -> is_Some (d_nodes (w_dom w) !! k) -> d_nodes d' !! k = d_nodes (w_dom w) !! k).
Proof.
  intros Hwf Hc Hr n.
  destruct (init_spec self ctx container w c0 Hwf Hc Hr) as (d' & H1 & H2 & H3 & H4 & H5 & H6 & H7 & H8 & _).
  exists d'. by repeat (split; [done|]).
Qed.

(** ** [renderDoomIframe] *)

(** The iframe [createIFrameElement] and lines 78-82 build, before it is
    inserted. *)
Definition render_iframe : node closure :=
  mk_node IFrame {["class" := "PcfDoomComponent_IFrame"]} render_style "" "" [] None [].

Section RenderRun.
Context (self : N) (m : gmap N (node closure)) (nx doc : N) (tm : timers closure)
  (th : gmap N PcfDoomComponent) (c : PcfDoomComponent) (cont b : N).
Hypothesis Hthis : th !! self = Some c.
Hypothesis Hcont : _container c = Some cont.
Hypothesis Hb : _bossKey c = Some b.

Definition render_fresh : dom closure := mk_dom (<[nx := render_iframe]> m) (nx + 1) doc.

(** [renderDoomIframe] on any world: the iframe is created, styled and
    recorded in [_doomIframe], appended to the container, the button is
    appended after it, the iframe gets its [src], and the animation timer
    is scheduled; each of the three DOM calls that can throw ends the run
    there. *)
Lemma renderDoomIframe_run :
  let th' := <[self := set_doomIframe (Some nx) c]> th in
  renderDoomIframe self (mk_world (mk_dom m nx doc) tm th) =
  match appendChild cont nx render_fresh with
  | Throw e => (Throw e, mk_world render_fresh tm th')
  | Ret dB =>
      match appendChild cont b dB with
      | Throw e => (Throw e, mk_world dB tm th')
      | Ret dC =>
          match setAttribute nx "src" iFrameSrc dC with
          | Throw e => (Throw e, mk_world dC tm th')
          | Ret dD => (Ret tt, mk_world dD (setTimeout (AnimateIn self) 100 tm).2 th')
          end
      end
  end.
Proof.
  unfold renderDoomIframe, createIFrameElement, setStyle.
  rewrite st_bind_assoc, bind_dom_create. cbv beta. rewrite st_bind_assoc.
  unfold setAttribute. rewrite bind_update_top. cbv beta. rewrite st_bind_ret_l.
  repeat run_step.
  match goal with |- (dom_do (appendChild _ _) ≫= _) (mk_world ?D _ ?T) = _ =>
    change D with render_fresh; change T with (<[self := set_doomIframe (Some nx) c]> th) end.
  destruct (appendChild cont nx render_fresh) as [dB|e] eqn:E1;
    [rewrite (bind_dom_do _ _ _ _ _ _ E1) | by rewrite (bind_dom_do_throw _ _ _ _ _ _ E1)].
  do 2 run_step.
  destruct (appendChild cont b dB) as [dC|e] eqn:E2;
    [rewrite (bind_dom_do _ _ _ _ _ _ E2) | by rewrite (bind_dom_do_throw _ _ _ _ _ _ E2)].
  run_step.
  match goal with |- context [update_node nx ?f dC] =>
    destruct (update_node nx f dC) as [dD|e] eqn:E3 end;
    [rewrite (bind_dom_do _ _ _ _ _ _ E3) | by rewrite (bind_dom_do_throw _ _ _ _ _ _ E3)].
  by rewrite set_timeout_run.
Qed.
End RenderRun.

(** The iframe once line 91 has set its [src]. *)
Definition render_iframe_src : node closure :=
  mk_node IFrame (<["src" := iFrameSrc]> {["class" := "PcfDoomComponent_IFrame"]}) render_style
    "" "" [] None [].

(** The effect of [renderDoomIframe] on a well-formed page, node by node. *)
Lemma renderDoomIframe_spec self w c cont b :
  dom_wf (w_dom w) -> w_this w !! self = Some c -> _container c = Some cont -> _bossKey c = Some b ->
  is_Some (d_nodes (w_dom w) !! cont) -> is_Some (d_nodes (w_dom w) !! b) -> b ≠ cont ->
  ¬ is_ancestor (w_dom w) b cont ->
  let i := d_next (w_dom w) in
  exists d', renderDoomIframe self w =
    (Ret tt, mk_world d' (setTimeout (AnimateIn self) 100 (w_timers w)).2
                      (<[self := set_doomIframe (Some i) c]> (w_this w))) /\
    dom_wf d' /\
    children_of d' cont = filter (fun y => y ≠ b) (children_of (w_dom w) cont) ++ [i; b] /\
    (∀ k, k ≠ cont -> children_of d' k = filter (fun y => y ≠ b) (children_of (w_dom w) k)) /\
    parentNode d' i = Some cont /\ parentNode d' b = Some cont /\
    (∀ k, k ≠ i -> k ≠ b -> parentNode d' k = parentNode (w_dom w) k) /\
    content d' i = Some (content_of render_iframe_src) /\
    (∀ k, k ≠ i -> content d' k = content (w_dom w) k).
Proof.
  destruct w as [[mm nx doc] tm th]; simpl. intros Hwf Hc Hcont Hb Hr Hbr Hne Hanc.
  assert (Hlt : ∀ k, is_Some (mm !! k) -> (k < nx)%N) by exact (proj1 (proj2 Hwf)).
  pose proof (Hlt _ Hr). pose proof (Hlt _ Hbr).
  assert (Hfree : mm !! nx = None) by
    (destruct (mm !! nx) eqn:E; [|done]; assert (nx < nx)%N by (apply Hlt; rewrite E; by eexists); lia).
  rewrite (renderDoomIframe_run self mm nx doc tm th c cont b Hc Hcont Hb).
  set (dA := render_fresh mm nx doc).
  assert (HwfA : dom_wf dA) by exact (dom_wf_insert_isolated _ render_iframe Hwf eq_refl eq_refl).
  destruct (insert_isolated_views mm nx render_iframe nx doc (nx + 1) Hfree eq_refl eq_refl)
    as [CA PA]; fold dA in CA, PA.
  assert (HAnx : d_nodes dA !! nx = Some render_iframe) by apply lookup_insert_eq.
  assert (HAk : ∀ k, k ≠ nx -> d_nodes dA !! k = mm !! k) by (intros k ?; by apply lookup_insert_ne).
  (* the iframe goes in *)
  destruct (appendChild_leaf_ok dA cont nx) as [dB HB]; [done | rewrite HAk by lia; done |
    rewrite HAnx; by eexists | lia | unfold children_of, node_at; by rewrite HAnx |].
  rewrite HB. destruct (appendChild_effect _ _ _ _ HwfA HB) as ((FB & _) & CB & PB).
  pose proof (appendChild_wf _ _ _ _ HwfA HB) as HwfB.
  (* the button goes in *)
  assert (HancB : ¬ is_ancestor dB b cont).
  { intros Ha. apply Hanc. apply (is_ancestor_transfer _ dB nx); [| | lia | done].
    - intros k Hk. by rewrite PB, decide_False, PA.
    - intros k Hk. apply HwfB in Hk. rewrite CB, decide_False in Hk by lia.
      rewrite CA in Hk. unfold children_of, node_at in Hk. simpl in Hk. rewrite Hfree in Hk.
      by inversion Hk. }
  destruct (proj2 (proj2 (appendChild_errors cont b dB HwfB))) as [dC HC];
    [rewrite FB, HAk by lia; done | rewrite FB, HAk by lia; done |
     by apply inclusive_ancestor_false |].
  rewrite HC. destruct (appendChild_effect _ _ _ _ HwfB HC) as ((FC & _) & CC & PC).
  pose proof (appendChild_wf _ _ _ _ HwfB HC) as HwfC.
  (* the [src] attribute *)
  destruct (update_node_ok nx (fun x => set_attrs (<["src" := iFrameSrc]> (n_attrs x)) x) dC)
    as (dD & HD & _); [rewrite FC, FB, HAnx; by eexists|].
  destruct (setter_views nx (fun x => set_attrs (<["src" := iFrameSrc]> (n_attrs x)) x) dC dD
    (fun _ => conj eq_refl eq_refl) HD) as [CD PD].
  change (update_node nx _ dC) with (setAttribute nx "src" iFrameSrc dC) in HD. rewrite HD.
  assert (Hkeep : ∀ k, filter (fun y => y ≠ nx) (children_of dA k) = children_of dA k).
  { intros k. apply list_filter_id. intros y Hy. rewrite CA in Hy.
    apply (wf_child_fresh _ _ _ Hwf) in Hy. simpl in Hy. intros ->. lia. }
  assert (HcontC : ∀ k, content dD k = if decide (k = nx) then content dD nx else content dA k).
  { intros k. case_decide; [by subst|].
    pose proof HD as (x & _ & ->)%update_node_Ret. unfold content at 1; simpl.
    rewrite lookup_insert_ne by done. fold (content dC k).
    by rewrite (appendChild_content _ _ _ _ _ HC), (appendChild_content _ _ _ _ _ HB). }
  eexists. split; [reflexivity|]. split; [by eapply (setAttribute_inv dom_wf)|].
  split; [|split; [|split; [|split; [|split; [|split]]]]].
  - rewrite CD, CC, decide_True, CB, decide_True, Hkeep, CA by done.
    rewrite filter_app, filter_cons_True by lia. simpl. by rewrite <-app_assoc.
  - intros k Hk. rewrite CD, CC, decide_False, CB, decide_False, Hkeep, CA by done.
    by rewrite !app_nil_r.
  - rewrite PD, PC, decide_False, PB, decide_True by lia. done.
  - rewrite PD, PC, decide_True by done. done.
  - intros k Hk Hkb. rewrite PD, PC, decide_False, PB, decide_False, PA by done. done.
  - apply update_node_Ret in HD as (x & Hx & ->). unfold content; simpl.
    rewrite lookup_insert_eq. simpl.
    assert (Hcx : content dC nx = Some (content_of render_iframe)).
    { rewrite (appendChild_content _ _ _ _ _ HC), (appendChild_content _ _ _ _ _ HB).
      unfold content. by rewrite HAnx. }
    unfold content in Hcx. rewrite Hx in Hcx. injection Hcx as Hcx.
    destruct x; unfold content_of in *; simpl in *. by simplify_eq.
  - intros k Hk. rewrite HcontC, decide_False by done. unfold content. by rewrite HAk.
Qed.

(** What [renderDoomIframe] needs of the page: a well-formed DOM, an
    instance whose [_container] and [_bossKey] point to two different
    nodes, the button having no children (so it cannot contain the
    container), as [init] leaves them. *)
Definition render_pre (self : N) (w : world) (c : PcfDoomComponent) (cont b : N) : Prop :=
  dom_wf (w_dom w) /\ w_this w !! self = Some c /\ _container c = Some cont /\
  _bossKey c = Some b /\ is_Some (d_nodes (w_dom w) !! cont) /\
  is_Some (d_nodes (w_dom w) !! b) /\ b ≠ cont /\ children_of (w_dom w) b = [].

Lemma render_pre_spec self w c cont b :
  render_pre self w c cont b ->
  dom_wf (w_dom w) /\ w_this w !! self = Some c /\ _container c = Some cont /\
  _bossKey c = Some b /\ is_Some (d_nodes (w_dom w) !! cont) /\
  is_Some (d_nodes (w_dom w) !! b) /\ b ≠ cont /\ ¬ is_ancestor (w_dom w) b cont.
Proof.
  intros (Hwf & Hc & Hcont & Hb & Hr & Hbr & Hne & Hleaf).
  do 7 (split; [done|]). by apply leaf_not_ancestor.
Qed.

(** C19. [renderDoomIframe] on any page whose DOM is well formed, when the
    fields [_container] and [_bossKey] point to nodes and the button is
    neither the container nor one of its ancestors: it completes, the page
    stays well formed, the new iframe and then the button become the last
    two children of the container (the button leaves its previous parent,
    if it had one), the iframe holds its class, [src] and the initial
    animation style, [_doomIframe] points to it, the 100 ms animation is
    scheduled, and nothing else changes. *)
Theorem renderDoomIframe_effect self w c cont b :
  render_pre self w c cont b ->
  let i := d_next (w_dom w) in
  exists d', renderDoomIframe self w =
    (Ret tt, mk_world d' (setTimeout (AnimateIn self) 100 (w_timers w)).2
                      (<[self := set_doomIframe (Some i) c]> (w_this w))) /\
    dom_wf d' /\
    children_of d' cont = filter (fun y => y ≠ b) (children_of (w_dom w) cont) ++ [i; b] /\
    (∀ k, k ≠ cont -> children_of d' k = filter (fun y => y ≠ b) (children_of (w_dom w) k)) /\
    parentNode d' i = Some cont /\ parentNode d' b = Some cont /\
    (∀ k, k ≠ i -> k ≠ b -> parentNode d' k = parentNode (w_dom w) k) /\
    content d' i = Some (content_of render_iframe_src) /\
    (∀ k, k ≠ i -> content d' k = content (w_dom w) k).
Proof.
  intros (Hwf & Hc & Hcont & Hb & Hr & Hbr & Hne & Hanc)%render_pre_spec.
  by apply renderDoomIframe_spec.
Qed.

Lemma size_two (m : gmap N (node closure)) a b :
  is_Some (m !! a) -> is_Some (m !! b) -> a ≠ b -> 2 <= size m.
Proof.
  intros Ha Hb Hne. pose proof (map_size_delete_Some a m Ha) as Hd.
  assert (size (delete a m) ≠ 0); [|lia].
  apply (map_size_ne_0_lookup_2 _ b). by rewrite lookup_delete_ne.
Qed.

(** C16. Round trip between the class [createIFrameElement] writes (line
    103) and the selector [onBossKeyClick] reads (line 126): after
    [renderDoomIframe] into an empty container, as [init] leaves it,
    [querySelector('.PcfDoomComponent_IFrame')] on the container returns
    exactly the iframe just created. *)
Theorem render_then_query_finds_iframe self w c cont b :
  render_pre self w c cont b -> children_of (w_dom w) cont = [] ->
  querySelector_class (w_dom (exec (renderDoomIframe self) w)) cont "PcfDoomComponent_IFrame" =
    Some (d_next (w_dom w)).
Proof.
  intros (Hwf & Hc & Hcont & Hb & Hr & Hbr & Hne & Hanc)%render_pre_spec Hempty.
  destruct (renderDoomIframe_spec self w c cont b Hwf Hc Hcont Hb Hr Hbr Hne Hanc)
    as (d' & Hrun & Hwf' & Hch & _ & Hpi & _ & _ & Hci & _).
  unfold exec. rewrite Hrun. simpl. rewrite Hempty in Hch. simpl in Hch.
  set (i := d_next (w_dom w)) in *.
  assert (Hi : is_Some (d_nodes d' !! i)) by (unfold content in Hci; destruct (d_nodes d' !! i); [by eexists|done]).
  assert (Hcn : is_Some (d_nodes d' !! cont)).
  { apply Hwf', elem_children_of in Hpi as (x & Hx & _). by eexists. }
  assert (Hic : i ≠ cont) by (pose proof (proj1 (proj2 Hwf) cont Hr); unfold i; lia).
  pose proof (size_two _ _ _ Hcn Hi (not_eq_sym Hic)) as Hsz.
  unfold querySelector_class, tree_order.
  destruct (size (d_nodes d')) as [|[|f]]; [lia | lia |]. simpl.
  destruct Hcn as [xc Hxc]. unfold node_at. rewrite Hxc.
  unfold children_of, node_at in Hch. rewrite Hxc in Hch. simpl in Hch. rewrite Hch. simpl.
  assert (Hhas : has_class d' "PcfDoomComponent_IFrame" i = true).
  { unfold has_class, node_at. unfold content in Hci.
    destruct (d_nodes d' !! i) as [[t0 a0 s0 v0 x0 l0 p0 ch0]|]; [|done].
    injection Hci as _ Ha _ _ _ _. cbn in Ha. subst a0. vm_compute. reflexivity. }
  by rewrite Hhas.
Qed.

(** C15. [updateView] on an instance whose [init] has not run (every
    field [undefined]) with the option set at 5: line 65 sets the one-shot
    flag, the decoy is hidden if the page has one, an iframe is created,
    and line 84 throws a [TypeError] on [this._container]; the flag stays
    set, so every later [updateView] does nothing and the control never
    renders. *)
Theorem updateView_before_init self ctx w :
  w_this w !! self = Some fresh_component -> DoomEnablerOptionSet_raw ctx = Some 5%Z ->
  exists w', updateView self ctx w = (Throw TypeError, w') /\
    (w_this w' !! self ≫= _controlViewRendered) = Some true /\
    d_nodes (w_dom w') !! d_next (w_dom w) = Some render_iframe /\
    parentNode (w_dom w') (d_next (w_dom w)) = None /\
    ∀ ctx', updateView self ctx' w' = (Ret tt, w').
Proof.
  destruct w as [d tm th]. intros Hthis Hraw. simpl in Hthis.
  unfold updateView at 1. rewrite Hraw, (bind_this_get _ _ _ _ _ _ Hthis).
  rewrite bool_decide_eq_true_2 by done.
  change (negb (truthy (_controlViewRendered fresh_component)) && true) with true. cbv iota.
  rewrite (bind_this_upd _ _ _ _ _ _ _ Hthis), bind_dom_read. cbn [w_dom].
  assert (Hrest : ∀ d1, d_next d1 = d_next d -> exists w',
    (renderDoomIframe self) (mk_world d1 tm (<[self := set_controlViewRendered (Some true)
                                                    fresh_component]> th)) = (Throw TypeError, w') /\
    (w_this w' !! self ≫= _controlViewRendered) = Some true /\
    d_nodes (w_dom w') !! d_next d = Some render_iframe /\
    parentNode (w_dom w') (d_next d) = None /\
    ∀ ctx', updateView self ctx' w' = (Ret tt, w')).
  { intros [m1 nx1 doc1] Hnx. simpl in Hnx. subst nx1. unfold renderDoomIframe, createIFrameElement, setStyle.
    rewrite st_bind_assoc, bind_dom_create. cbv beta. rewrite st_bind_assoc.
    unfold setAttribute. rewrite bind_update_top. cbv beta. rewrite st_bind_ret_l.
    repeat run_step. rewrite bind_this_ref_undefined by done.
    eexists. split; [reflexivity|]. cbn [w_this w_dom d_nodes]. rewrite !lookup_insert_eq.
    split; [done|]. split; [done|]. split; [unfold parentNode, node_at; simpl; by rewrite lookup_insert_eq|].
    intros ctx'. apply (updateView_guard_false self _ _ (lookup_insert_eq _ _ _)). done. }
  destruct (getElementById d "seriousTextArea") as [t|] eqn:Ht; cbn [when_some].
  - assert (Hnode : is_Some (d_nodes d !! t)).
    { unfold getElementById in Ht. apply find_some in Ht as [_ Ht]. unfold has_id, node_at in Ht.
      destruct (d_nodes d !! t); [by eexists|]. by apply bool_decide_eq_true in Ht. }
    destruct (update_node_ok t (fun x => set_style_map (<["display" := "none"]> (n_style x)) x) d Hnode)
      as (d1 & Hd1 & _).
    rewrite (bind_dom_do (setStyle t "display" "none") _ _ _ _ _ Hd1). apply Hrest.
    by apply update_node_Ret in Hd1 as (? & _ & ->).
  - rewrite st_bind_ret_l. by apply Hrest.
Qed.

(** ** Witnesses on concrete pages *)

(** The page as the runtime hands it to [init]: the document's root with
    the control's container [div] (node [1]), and a fresh instance. *)
Definition pre_init_world : world :=
  mk_world (mk_dom {[ 0%N := mk_node Body ∅ ∅ "" "" [] None [1%N];
                      1%N := mk_node Div ∅ ∅ "" "" [] (Some 0%N) [] ]} 2 0)
           no_timers {[ 0%N := fresh_component ]}.

Definition inited_world : world := exec (init 0 (mk_context None) 1) pre_init_world.

Lemma init_effect_witness :
  children_of (w_dom inited_world) 1 = [4%N; 2%N].
Proof.
  destruct (init_effect 0 (mk_context None) 1 pre_init_world fresh_component)
    as (d' & Hrun & _ & Hch & _);
    [apply dom_wfb_spec; vm_compute; reflexivity | reflexivity | vm_compute; by eexists |].
  unfold inited_world, exec. rewrite Hrun. exact Hch.
Defined.

Lemma updateView_before_init_witness :
  fst (updateView 0 (mk_context (Some 5%Z)) pre_init_world) = Throw TypeError.
Proof.
  destruct (updateView_before_init 0 (mk_context (Some 5%Z)) pre_init_world)
    as (w' & Hrun & _); [reflexivity | reflexivity |].
  by rewrite Hrun.
Defined.

Definition inited_fields : PcfDoomComponent :=
  mk_component (Some 2%N) (Some 1%N) (Some (mk_context None)) (Some false) None (Some 3%N).

(** Discharge [render_pre] on a concrete page by computation. *)
Ltac solve_render_pre :=
  unfold render_pre;
  split; [apply dom_wfb_spec; vm_compute; reflexivity|];
  repeat split; vm_compute; first [reflexivity | eexists; reflexivity | discriminate].

Lemma render_then_query_finds_iframe_witness :
  querySelector_class (w_dom (exec (renderDoomIframe 0) inited_world)) 2
    "PcfDoomComponent_IFrame" = Some 5%N.
Proof.
  apply (render_then_query_finds_iframe 0 inited_world inited_fields 2 3);
    [solve_render_pre | vm_compute; reflexivity].
Defined.

Lemma renderDoomIframe_effect_witness :
  children_of (w_dom (exec (renderDoomIframe 0) inited_world)) 2 = [5%N; 3%N].
Proof.
  destruct (renderDoomIframe_effect 0 inited_world inited_fields 2 3) as (d' & Hrun & _ & Hch & _);
    [solve_render_pre|].
  unfold exec. rewrite Hrun. simpl. rewrite Hch. vm_compute. reflexivity.
Defined.
