(* ===== verification/Callbacks.v ===== *)
(** * The fly-out branch and the timer callbacks on an arbitrary page

    [Safety] shows that [onBossKeyClick] never throws and describes its
    fallback branch (lines 149-152); [Page] follows the callbacks on the
    single-control page.  Here the fly-out branch (lines 127-148) and the
    timer callbacks run on any page whose DOM is a forest:

    - [onBossKeyClick_flyout]: when the container is in the page and one
      of its descendants carries the iframe's class, the handler takes
      the fly-out branch on such a descendant (the first in tree order:
      [querySelector]'s traversal is adequate on a forest, [Acyclic]),
      writes its three styles and schedules [FlyOut] 10 ms later;
    - [flyOut_run]: the outer callback moves the iframe out and schedules
      [RemoveContainer] 500 ms later;
    - [removeContainer_effect]: the inner callback detaches the container
      if it is still attached (the [?.] of line 140: a second run does not
      throw) and shows the first connected decoy, which [getElementById]
      finds whenever one is connected;
    - [animateIn_run]: the 100 ms callback of [renderDoomIframe];
    - [boss_key_sequence]: the click followed by the two turns of the
      event loop, which run the callbacks it scheduled in the order of
      their due times, detaches the container and shows a connected
      decoy. *)

From S2P Require Import Prelude Dom DomWf Acyclic Timers Widget Host Safety Page Methods.

(** The iframe after lines 129-131: the start of the fly-out. *)
Definition flyout_prepared (x : node closure) : node closure :=
  set_style_map (<["transition" := "left 0.5s ease-in"]> (<["left" := "0"]>
    (<["position" := "relative"]> (n_style x)))) x.

(** The iframe after line 135. *)
Definition flown_out (x : node closure) : node closure :=
  set_style_map (<["left" := "-100vw"]> (n_style x)) x.

(** The iframe after lines 95-97. *)
Definition animated_in (x : node closure) : node closure :=
  set_style_map (<["transform" := "scale(1) rotate(0deg)"]> (<["opacity" := "1"]>
    (<["top" := "0"]> (n_style x)))) x.

(** The click handler, then the event loop's next two timer turns
    ([host_step _ Tick]): on a page with no other pending timer, the
    10 ms fly-out (lines 134-136) and the 500 ms removal (lines 138-147)
    it schedules. *)
Definition boss_key_turns (self : N) (w : world) : option world :=
  w1 ← host_step (exec (onBossKeyClick self) w) Tick; host_step w1 Tick.

(** The store [d] with node [i] replaced. *)
Definition dom_set (d : dom closure) (i : N) (x : node closure) : dom closure :=
  mk_dom (<[i := x]> (d_nodes d)) (d_next d) (d_document d).

Section Run.
Context {A : Type}.
Implicit Types (d : dom closure) (tm : timers closure) (th : gmap N PcfDoomComponent).

Lemma bind_setStyle i p v x (k : unit -> M A) d tm th :
  d_nodes d !! i = Some x ->
  (dom_do (setStyle i p v) ≫= k) (mk_world d tm th) =
  k tt (mk_world (dom_set d i (set_style_map (<[p:=v]> (n_style x)) x)) tm th).
Proof. intros Hx. apply bind_dom_do. unfold setStyle. by rewrite (update_node_Some _ _ _ _ Hx). Qed.

Lemma setStyle_run i p v x d tm th :
  d_nodes d !! i = Some x ->
  dom_do (setStyle i p v) (mk_world d tm th) =
  (Ret tt, mk_world (dom_set d i (set_style_map (<[p:=v]> (n_style x)) x)) tm th).
Proof. intros Hx. unfold dom_do, lift_res, setStyle. simpl. by rewrite (update_node_Some _ _ _ _ Hx). Qed.

Lemma dom_set_lookup d i x : d_nodes (dom_set d i x) !! i = Some x.
Proof. apply lookup_insert_eq. Qed.

Lemma dom_set_twice d i x y : dom_set (dom_set d i x) i y = dom_set d i y.
Proof. unfold dom_set; simpl. by rewrite insert_insert_eq. Qed.

Lemma bind_this_ref_at self f (k : N -> M A) d tm th c n :
  th !! self = Some c -> f c = Some n ->
  (this_ref self f ≫= k) (mk_world d tm th) = k n (mk_world d tm th).
Proof.
  intros Hc Hf. rewrite st_bind_run. unfold this_ref. rewrite st_bind_run. unfold this_get. simpl.
  by rewrite Hc, Hf.
Qed.
End Run.

(** Three style writes on one node. *)
Lemma setStyle3_run i p1 v1 p2 v2 p3 v3 (k : M unit) x d tm th :
  d_nodes d !! i = Some x ->
  ((dom_do (setStyle i p1 v1);; dom_do (setStyle i p2 v2);; dom_do (setStyle i p3 v3);; k) : M unit)
    (mk_world d tm th) =
  k (mk_world (dom_set d i (set_style_map (<[p3:=v3]> (<[p2:=v2]> (<[p1:=v1]> (n_style x)))) x)) tm th).
Proof.
  intros Hx. rewrite (bind_setStyle _ _ _ x) by done. cbv beta.
  rewrite (bind_setStyle _ _ _ _ _ _ _ _ (dom_set_lookup _ _ _)). cbv beta.
  rewrite (bind_setStyle _ _ _ _ _ _ _ _ (dom_set_lookup _ _ _)). cbv beta.
  rewrite !dom_set_twice. by destruct x.
Qed.

(** ** The boss key's fly-out branch, lines 127-148 *)

Lemma onBossKeyClick_flyout_run self w c cont p j x :
  w_this w !! self = Some c -> _container c = Some cont -> parentNode (w_dom w) cont = Some p ->
  querySelector_class (w_dom w) cont "PcfDoomComponent_IFrame" = Some j ->
  d_nodes (w_dom w) !! j = Some x ->
  onBossKeyClick self w =
  (Ret tt, mk_world (dom_set (w_dom w) j (flyout_prepared x))
                    (setTimeout (FlyOut self j) 10 (w_timers w)).2 (w_this w)).
Proof.
  intros Hc Hcont Hp Hq Hx. rewrite (onBossKeyClick_run self w c Hc cont p Hcont Hp), Hq.
  destruct w as [d tm th]. rewrite (setStyle3_run _ _ _ _ _ _ _ _ x) by done.
  apply set_timeout_run.
Qed.

(** The outer callback, lines 134-148. *)
Lemma flyOut_run self i x w :
  d_nodes (w_dom w) !! i = Some x ->
  flyOut self i w = (Ret tt, mk_world (dom_set (w_dom w) i (flown_out x))
                                      (setTimeout (RemoveContainer self) 500 (w_timers w)).2 (w_this w)).
Proof.
  intros Hx. destruct w as [d tm th]. unfold flyOut. rewrite (bind_setStyle _ _ _ x) by done.
  apply set_timeout_run.
Qed.

(** The callback of [renderDoomIframe], lines 94-98: it reads
    [this._doomIframe] three times and writes the three final styles. *)
Lemma animateIn_run self w c i x :
  w_this w !! self = Some c -> _doomIframe c = Some i -> d_nodes (w_dom w) !! i = Some x ->
  animateIn self w = (Ret tt, mk_world (dom_set (w_dom w) i (animated_in x)) (w_timers w) (w_this w)).
Proof.
  intros Hc Hi Hx. destruct w as [d tm th]. unfold animateIn. simpl in *.
  rewrite (bind_this_ref_at _ _ _ _ _ _ c i) by done. cbv beta.
  rewrite (bind_setStyle _ _ _ x) by done. cbv beta.
  rewrite (bind_this_ref_at _ _ _ _ _ _ c i) by done. cbv beta.
  rewrite (bind_setStyle _ _ _ _ _ _ _ _ (dom_set_lookup _ _ _)). cbv beta.
  rewrite (bind_this_ref_at _ _ _ _ _ _ c i) by done. cbv beta.
  rewrite (setStyle_run _ _ _ _ _ _ _ (dom_set_lookup _ _ _)).
  rewrite !dom_set_twice. by destruct x.
Qed.

(** ** The inner callback, lines 138-147 *)

Lemma set_style_map_twice st st' (x : node closure) :
  set_style_map st (set_style_map st' x) = set_style_map st x.
Proof. by destruct x. Qed.

(** A style write keeps a forest, its links, its root and the ids. *)
Lemma dom_set_style d j x st :
  forest d -> d_nodes d !! j = Some x ->
  forest (dom_set d j (set_style_map st x)) /\ same_links d (dom_set d j (set_style_map st x)) /\
  (∀ k s, has_id (dom_set d j (set_style_map st x)) s k = has_id d s k).
Proof.
  intros Hf Hx.
  assert (Hu : update_node j (set_style_map st) d = Ret (dom_set d j (set_style_map st x)))
    by exact (update_node_Some _ _ _ _ Hx).
  split; [exact (inv_setter _ (set_style_map st) _ _ (fun _ => conj eq_refl eq_refl) Hf Hu)|]. split.
  - intros m. symmetry. exact (proj2 (setter_views _ (set_style_map st) _ _ (fun _ => conj eq_refl eq_refl) Hu) m).
  - intros k s. unfold has_id, node_at, dom_set; simpl.
    destruct (decide (k = j)) as [->|]; [by rewrite lookup_insert_eq, Hx | by rewrite lookup_insert_ne].
Qed.

(** Lines 142-145: the first element in tree order with the decoy's id,
    if any, is shown; the store stays a forest and keeps its links and
    ids. *)
Lemma show_decoy_run d tm th :
  forest d ->
  exists d2, ((t ← dom_read (fun d => getElementById d "seriousTextArea");
               when_some t (fun t => dom_do (setStyle t "display" "block"))) : M unit)
               (mk_world d tm th) = (Ret tt, mk_world d2 tm th) /\
    forest d2 /\ same_links d d2 /\ d_document d2 = d_document d /\ (∀ k s, has_id d2 s k = has_id d s k) /\
    (∀ k q, q ≠ "display" -> style_of d2 k q = style_of d k q) /\
    (∀ y, getElementById d "seriousTextArea" = Some y -> style_of d2 y "display" = Some "block").
Proof.
  intros Hf. rewrite bind_dom_read. simpl.
  destruct (getElementById d "seriousTextArea") as [y|] eqn:Hy; simpl.
  - destruct (getElementById_node d _ y (proj1 Hf) Hy) as [x Hx].
    rewrite (setStyle_run _ _ _ x) by done.
    destruct (dom_set_style d y x (<["display":="block"]> (n_style x)) Hf Hx) as (Hf2 & Hl & Hid).
    eexists. split; [done|]. do 4 (split; [done|]). split.
    + intros k q Hq. unfold style_of, node_at, dom_set; simpl.
      destruct (decide (k = y)) as [->|]; [|by rewrite lookup_insert_ne].
      rewrite lookup_insert_eq, Hx. simpl. by rewrite lookup_insert_ne.
    + intros ? [= <-]. unfold style_of, node_at. rewrite dom_set_lookup. simpl.
    by rewrite lookup_insert_eq.
  - exists d. do 6 (split; [done|]). discriminate.
Qed.

(** The inner callback on a forest: the container is detached if it is
    still attached, and not otherwise (no exception: the optional chain of
    line 140); then a connected element with the decoy's id, if there is
    one, is found by [getElementById] and shown.  Nothing else changes. *)
Theorem removeContainer_effect self w c cont :
  forest (w_dom w) -> w_this w !! self = Some c -> _container c = Some cont ->
  exists d1 d2, removeContainer self w = (Ret tt, mk_world d2 (w_timers w) (w_this w)) /\
    forest d1 /\ forest d2 /\ parentNode d1 cont = None /\ d_document d1 = d_document (w_dom w) /\
    d_document d2 = d_document d1 /\
    (∀ k, k ≠ cont -> parentNode d1 k = parentNode (w_dom w) k) /\ same_links d1 d2 /\
    (∀ k, content d1 k = content (w_dom w) k) /\ (∀ k s, has_id d2 s k = has_id d1 s k) /\
    (∀ k q, q ≠ "display" -> style_of d2 k q = style_of d1 k q) /\
    (∀ t, connected d1 t = true -> has_id d1 "seriousTextArea" t = true ->
       exists y, getElementById d1 "seriousTextArea" = Some y /\ connected d1 y = true /\
                 style_of d2 y "display" = Some "block").
Proof.
  intros Hf Hc Hcont. destruct w as [d tm th]; simpl in *. unfold removeContainer.
  rewrite (bind_this_ref_at _ _ _ _ _ _ c cont) by done. cbv beta. rewrite bind_dom_read. simpl.
  assert (Hd1 : exists d1, forest d1 /\ parentNode d1 cont = None /\ d_document d1 = d_document d /\
                  (∀ k, k ≠ cont -> parentNode d1 k = parentNode d k) /\ (∀ k, content d1 k = content d k) /\
                  (when_some (parentNode d cont) (fun p => cont ← this_ref self _container;
                     dom_do (removeChild p cont)) : M unit) (mk_world d tm th) = (Ret tt, mk_world d1 tm th)).
  { destruct (parentNode d cont) as [p|] eqn:Hp; simpl.
    - destruct (removeChild_parent_ok p cont d (proj1 Hf) Hp) as [d1 Hr].
      exists d1. split; [by eapply (removeChild_inv forest)|].
      pose proof Hr as [_ ((_ & _ & Hdoc) & _ & P)%detach_effect]%removeChild_Ret.
      split; [by rewrite P, decide_True|]. split; [done|]. split; [intros k Hk; by rewrite P, decide_False|].
      split; [intros k; apply removeChild_Ret in Hr as [_ Hr]; by eapply detach_content|].
      rewrite st_bind_run. unfold this_ref. rewrite st_bind_run. unfold this_get. simpl.
      rewrite Hc, Hcont. simpl. unfold dom_do, lift_res. simpl. by rewrite Hr.
    - exists d. do 5 (split; [done|]). done. }
  destruct Hd1 as (d1 & Hf1 & Hcont1 & Hdoc1 & Hsame & Hcontent & Hrun).
  rewrite st_bind_run, Hrun.
  destruct (show_decoy_run d1 tm th Hf1) as (d2 & Hrun2 & Hf2 & Hl & Hdoc2 & Hid & Hst & Hshow).
  exists d1, d2. rewrite Hrun2. do 11 (split; [done|]).
  intros t Ht Htid. destruct (getElementById_found d1 _ t Hf1 Ht Htid) as (y & Hy & _ & Hyc).
  exists y. split; [done|]. split; [done|]. by apply Hshow.
Qed.

(** C23. The fly-out branch (lines 127-134) on any page whose DOM is a
    forest: when the container is attached and some descendant of it
    carries the iframe's class, the handler picks a descendant with that
    class, writes its position, left and transition
    styles, schedules the outer callback 10 ms later, and changes nothing
    else. *)
Theorem onBossKeyClick_flyout self w c cont p i :
  forest (w_dom w) -> w_this w !! self = Some c -> _container c = Some cont ->
  parentNode (w_dom w) cont = Some p -> is_ancestor (w_dom w) cont i ->
  has_class (w_dom w) "PcfDoomComponent_IFrame" i = true ->
  exists j x, is_ancestor (w_dom w) cont j /\
    has_class (w_dom w) "PcfDoomComponent_IFrame" j = true /\ d_nodes (w_dom w) !! j = Some x /\
    onBossKeyClick self w =
    (Ret tt, mk_world (dom_set (w_dom w) j (flyout_prepared x))
                      (setTimeout (FlyOut self j) 10 (w_timers w)).2 (w_this w)).
Proof.
  intros Hf Hc Hcont Hp Hi Hcl.
  destruct (querySelector_class_found _ _ _ _ Hf Hi Hcl) as (j & Hq & Hcj & Hj).
  destruct (proj2 (is_ancestor_nodes _ _ _ (proj1 Hf) Hj)) as [x Hx].
  exists j, x. do 3 (split; [done|]). by eapply onBossKeyClick_flyout_run.
Qed.

(** A timer turn whose callback completes. *)
Lemma tick_run w cb tm w' :
  next_task (w_timers w) = Some (cb, tm) ->
  run_closure cb (mk_world (w_dom w) tm (w_this w)) = (Ret tt, w') -> host_step w Tick = Some w'.
Proof. intros Hn Hr. simpl. rewrite Hn. unfold exec, report. by rewrite Hr. Qed.

(** C24. The boss key's whole effect on any page whose DOM is a forest
    and whose timer list is idle: the click, then the two turns of the
    event loop, which run the 10 ms fly-out the handler scheduled and the
    500 ms removal that one scheduled, complete without exception at
    510 ms, leave no timer pending, keep the page a forest and the fields
    untouched, move the iframe the handler's query found out, and detach
    the container; and when some element outside the container was
    connected with the decoy's id, a connected element with that id is
    shown with [display: block]. *)
Theorem boss_key_sequence self w c cont p i :
  forest (w_dom w) -> w_this w !! self = Some c -> _container c = Some cont ->
  parentNode (w_dom w) cont = Some p -> is_ancestor (w_dom w) cont i ->
  has_class (w_dom w) "PcfDoomComponent_IFrame" i = true -> pending (w_timers w) = [] ->
  exists j w', querySelector_class (w_dom w) cont "PcfDoomComponent_IFrame" = Some j /\
    boss_key_turns self w = Some w' /\ pending (w_timers w') = [] /\
    now (w_timers w') = (now (w_timers w) + 510)%N /\
    forest (w_dom w') /\ w_this w' = w_this w /\ parentNode (w_dom w') cont = None /\
    style_of (w_dom w') j "left" = Some "-100vw" /\
    (∀ t, connected (w_dom w) t = true -> t ≠ cont -> ¬ is_ancestor (w_dom w) cont t ->
          has_id (w_dom w) "seriousTextArea" t = true ->
          exists y, connected (w_dom w') y = true /\ has_id (w_dom w') "seriousTextArea" y = true /\
                    style_of (w_dom w') y "display" = Some "block").
Proof.
  intros Hf Hc Hcont Hp Hi Hcl Hpend.
  destruct (querySelector_class_found _ _ _ _ Hf Hi Hcl) as (j & Hq & _ & Hj).
  destruct (proj2 (is_ancestor_nodes _ _ _ (proj1 Hf) Hj)) as [x Hx]. exists j.
  set (d := w_dom w) in *. set (st := <["left":="-100vw"]> (n_style (flyout_prepared x))).
  set (tmA := mk_timers (C:=closure) (now (w_timers w) + 10) [] (next_seq (w_timers w) + 1)).
  set (tmC := mk_timers (C:=closure) (now tmA + 500) [] (next_seq tmA + 1)).
  assert (H1 : host_step (exec (onBossKeyClick self) w) Tick =
    Some (mk_world (dom_set d j (set_style_map st x)) (setTimeout (RemoveContainer self) 500 tmA).2 (w_this w))).
  { unfold exec. rewrite (onBossKeyClick_flyout_run self w c cont p j x) by done. cbn [snd].
    apply (tick_run _ (FlyOut self j) tmA); [cbn [w_timers]; by rewrite next_task_only|].
    cbn [run_closure w_dom w_this]. rewrite (flyOut_run self j (flyout_prepared x)) by apply dom_set_lookup.
    cbn [w_dom w_timers w_this]. rewrite dom_set_twice. unfold flown_out, flyout_prepared at 2.
    by rewrite set_style_map_twice. }
  destruct (dom_set_style d j x st Hf Hx) as (Hf2 & Hl2 & Hid2).
  destruct (removeContainer_effect self (mk_world (dom_set d j (set_style_map st x)) tmC (w_this w)) c cont
              Hf2 Hc Hcont)
    as (d1 & d3 & Hrun & Hf1 & Hf3 & Hcont1 & Hdoc1 & Hdoc3 & Hsame & Hl3 & Hcontent & Hid3 & Hst3 & Hshow).
  exists (mk_world d3 tmC (w_this w)). cbn [w_dom w_this w_timers] in *. split; [done|].
  split; [unfold boss_key_turns; rewrite H1; apply (tick_run _ (RemoveContainer self) tmC); [cbn [w_timers]; by rewrite next_task_only | exact Hrun]|].
  split; [done|]. split; [simpl; lia|].
  split; [done|]. split; [done|]. split; [by rewrite <-Hl3|]. split.
  - rewrite Hst3, (style_of_content _ _ _ _ (Hcontent j)) by done.
    unfold style_of, node_at. rewrite dom_set_lookup. simpl. unfold st. by rewrite lookup_insert_eq.
  - intros t Ht Htc Hct Htid.
    assert (Ht2 : connected (dom_set d j (set_style_map st x)) t = true)
      by (rewrite <-(connected_same_links d) by done; done).
    assert (Ht1 : connected d1 t = true).
    { apply (connected_avoid _ _ cont t Hf2 Hf1 Hdoc1 Hsame Ht2 Htc). by rewrite <-Hl2. }
    assert (Htid1 : has_id d1 "seriousTextArea" t = true) by (by rewrite (has_id_content _ _ _ _ (Hcontent t)), Hid2).
    destruct (Hshow t Ht1 Htid1) as (y & Hy & Hyc & Hyd). exists y.
    apply find_some in Hy as [_ Hyid]. rewrite Hid3.
    split; [by rewrite <-(connected_same_links d1) | done].
Qed.

(** ** The revealed single-control page: the container [2] holds the
    iframe [5] and the button [3], the decoy [4] is its sibling. *)

Definition revealed_this : PcfDoomComponent :=
  mk_component (Some 2%N) (Some 1%N) (Some (mk_context None)) (Some true) (Some 5%N) (Some 3%N).

Lemma onBossKeyClick_flyout_witness :
  exists j x, is_ancestor (w_dom revealed_world) 2 j /\
    has_class (w_dom revealed_world) "PcfDoomComponent_IFrame" j = true /\
    d_nodes (w_dom revealed_world) !! j = Some x /\
    onBossKeyClick 0 revealed_world =
    (Ret tt, mk_world (dom_set (w_dom revealed_world) j (flyout_prepared x))
                      (setTimeout (FlyOut 0 j) 10 (w_timers revealed_world)).2 (w_this revealed_world)).
Proof.
  apply (onBossKeyClick_flyout 0 revealed_world revealed_this 2 1 5);
    [solve_forest | vm_compute; reflexivity | reflexivity | vm_compute; reflexivity
    | constructor; vm_compute; reflexivity | vm_compute; reflexivity].
Defined.

(** The revealed page once the 100 ms animation has run: no timer is
    pending. *)
Definition animated_world : world := default revealed_world (host_step revealed_world Tick).

Lemma boss_key_sequence_witness :
  exists w', boss_key_turns 0 animated_world = Some w' /\ parentNode (w_dom w') 2 = None.
Proof.
  destruct (boss_key_sequence 0 animated_world revealed_this 2 1 5)
    as (j & w' & _ & Ht & _ & _ & _ & _ & Hp & _);
    [solve_forest | vm_compute; reflexivity | reflexivity | vm_compute; reflexivity
    | constructor; vm_compute; reflexivity | vm_compute; reflexivity | vm_compute; reflexivity |].
  exists w'. split; [exact Ht | exact Hp].
Defined.

