(* ===== verification/Reveal.v ===== *)
(** * [updateView] on an arbitrary page

    [Behaviour.update_reveals] follows [updateView] on the single-control
    page; [Methods] gives [renderDoomIframe] on any well-formed page.
    Here the whole reveal (lines 64-72) runs on any page whose DOM is a
    forest, with any number of controls: the flag is set, the first
    element in tree order whose id is [seriousTextArea] is hidden, and
    the iframe is rendered.  With several controls on one page the ids
    collide: the element hidden is the first in the document, which is
    the decoy of whichever control comes first, not necessarily the
    caller's own (the aliasing of [Scenarios.reveal_hides_first_decoy]).
    The adequacy of [getElementById]'s traversal ([Acyclic]) makes the
    statement exact: when some connected element has the id, one is
    hidden. *)

From S2P Require Import Prelude Dom DomWf Acyclic Timers Widget Host Safety Page Methods Callbacks.

(** The fields after the reveal: the flag of line 65 and the iframe of
    line 75. *)
Definition revealed_fields (c : PcfDoomComponent) (i : N) : PcfDoomComponent :=
  set_doomIframe (Some i) (set_controlViewRendered (Some true) c).

(** The tag, the attributes and the listeners of a node: what the
    control's invariants read of a node, untouched by style writes and
    tree moves. *)
Definition node_kind (d : dom closure) (k : N) :
    option (tag * gmap string string * list (string * closure)) :=
  (fun x => (n_tag x, n_attrs x, n_listeners x)) <$> d_nodes d !! k.

Lemma node_kind_content d d' k : content d' k = content d k -> node_kind d' k = node_kind d k.
Proof.
  unfold content, node_kind. destruct (d_nodes d !! k), (d_nodes d' !! k); simpl; try done.
  by intros [= -> -> _ _ _ ->].
Qed.

Lemma node_kind_style d j x st k :
  d_nodes d !! j = Some x -> node_kind (dom_set d j (set_style_map st x)) k = node_kind d k.
Proof.
  intros Hx. unfold node_kind, dom_set; simpl.
  destruct (decide (k = j)) as [->|]; [by rewrite lookup_insert_eq, Hx | by rewrite lookup_insert_ne].
Qed.

(** The renderer's precondition survives a change that keeps the links,
    the nodes and the counter of the store. *)
Lemma render_pre_frame self w c cont b d1 (th1 : gmap N PcfDoomComponent) c1 :
  render_pre self w c cont b -> forest d1 -> same_links (w_dom w) d1 -> frame (w_dom w) d1 ->
  th1 !! self = Some c1 -> _container c1 = Some cont -> _bossKey c1 = Some b ->
  dom_wf d1 /\ th1 !! self = Some c1 /\ _container c1 = Some cont /\ _bossKey c1 = Some b /\
  is_Some (d_nodes d1 !! cont) /\ is_Some (d_nodes d1 !! b) /\ b ≠ cont /\ ¬ is_ancestor d1 b cont.
Proof.
  intros Hpre%render_pre_spec Hf1 Hl (Hdom & _ & _) Hc1 Hcont1 Hb1.
  destruct Hpre as (_ & _ & _ & _ & Hr & Hbr & Hne & Hanc).
  split; [apply Hf1|]. do 3 (split; [done|]). rewrite !Hdom. do 3 (split; [done|]). by rewrite <-Hl.
Qed.

(** The reveal on a forest page, with what the invariants of [Controls]
    need besides the claim below. *)
Lemma updateView_reveal_spec self ctx w c cont b :
  forest (w_dom w) -> render_pre self w c cont b -> truthy (_controlViewRendered c) = false ->
  DoomEnablerOptionSet_raw ctx = Some 5%Z ->
  let i := d_next (w_dom w) in
  exists d', updateView self ctx w =
    (Ret tt, mk_world d' (setTimeout (AnimateIn self) 100 (w_timers w)).2
       (<[self := revealed_fields c i]> (w_this w))) /\
    forest d' /\ parentNode d' i = Some cont /\
    children_of d' cont = filter (fun y => y ≠ b) (children_of (w_dom w) cont) ++ [i; b] /\
    content d' i = Some (content_of render_iframe_src) /\
    (∀ t, connected (w_dom w) t = true -> has_id (w_dom w) "seriousTextArea" t = true ->
       exists y, getElementById (w_dom w) "seriousTextArea" = Some y /\ connected (w_dom w) y = true /\
                 style_of d' y "display" = Some "none") /\
    (∀ k, k ≠ cont -> children_of d' k = filter (fun y => y ≠ b) (children_of (w_dom w) k)) /\
    (∀ k, k ≠ i -> node_kind d' k = node_kind (w_dom w) k) /\
    d_document d' = d_document (w_dom w) /\
    (∀ t, getElementById (w_dom w) "seriousTextArea" = Some t -> style_of d' t "display" = Some "none") /\
    (∀ k, k ≠ i -> getElementById (w_dom w) "seriousTextArea" ≠ Some k -> content d' k = content (w_dom w) k).
Proof.
  intros Hf Hpre Hflag Hraw i. unfold revealed_fields. pose proof Hpre as (Hwf & Hc & Hcont & Hb & _).
  destruct w as [d tm th]; simpl in *.
  set (c1 := set_controlViewRendered (Some true) c).
  assert (Hrender : ∀ d1, forest d1 -> same_links d d1 -> frame d d1 ->
    (∀ k, children_of d1 k = children_of d k) ->
    exists d', renderDoomIframe self (mk_world d1 tm (<[self := c1]> th)) =
      (Ret tt, mk_world d' (setTimeout (AnimateIn self) 100 tm).2
                        (<[self := set_doomIframe (Some i) c1]> th)) /\
      forest d' /\ parentNode d' i = Some cont /\
      children_of d' cont = filter (fun y => y ≠ b) (children_of d cont) ++ [i; b] /\
      content d' i = Some (content_of render_iframe_src) /\
      (∀ k, k ≠ i -> content d' k = content d1 k) /\
      (∀ k, k ≠ cont -> children_of d' k = filter (fun y => y ≠ b) (children_of d k)) /\
      d_document d' = d_document d1).
  { intros d1 Hf1 Hl Hfr Hch1.
    destruct (render_pre_frame self (mk_world d tm th) c cont b d1 (<[self := c1]> th) c1 Hpre Hf1 Hl Hfr
                (lookup_insert_eq _ _ _) Hcont Hb) as (Hwf1 & Hc1 & Hcont1 & Hb1 & Hr1 & Hbr1 & Hne1 & Hanc1).
    destruct (renderDoomIframe_spec self (mk_world d1 tm (<[self := c1]> th)) c1 cont b
                Hwf1 Hc1 Hcont1 Hb1 Hr1 Hbr1 Hne1 Hanc1) as (d' & Hrun & _ & Hch & Hcho & Hpi & _ & _ & Hci & Hck).
    simpl in *. destruct Hfr as (_ & Hnx & _). rewrite Hnx in *.
    pose proof (renderDoomIframe_keeps forest self (mk_world d1 tm (<[self := c1]> th)) Hf1) as Hf'.
    pose proof (renderDoomIframe_keeps _ self (mk_world d1 tm (<[self := c1]> th))
                  (eq_refl (d_document d1))) as Hdoc'.
    rewrite Hrun in Hf', Hdoc'. exists d'. rewrite Hrun, insert_insert_eq.
    do 3 (split; [done|]). split; [by rewrite Hch, Hch1|]. do 2 (split; [done|]). split; [|done].
    intros k Hk. by rewrite Hcho, Hch1. }
  unfold updateView at 1. rewrite Hraw, (bind_this_get _ _ _ _ _ _ Hc), Hflag, bool_decide_eq_true_2 by done.
  change (negb false && true) with true. cbv iota.
  rewrite (bind_this_upd _ _ _ _ _ _ _ Hc), bind_dom_read. cbn [w_dom]. fold c1.
  destruct (getElementById d "seriousTextArea") as [t|] eqn:Ht; cbn [when_some].
  - destruct (getElementById_node d _ t Hwf Ht) as [x Hx].
    set (st := <["display":="none"]> (n_style x)).
    rewrite (bind_setStyle _ _ _ x) by done. cbv beta. fold st.
    assert (Hu : update_node t (set_style_map st) d = Ret (dom_set d t (set_style_map st x)))
      by exact (update_node_Some _ _ _ _ Hx).
    destruct (dom_set_style d t x st Hf Hx) as (Hf1 & Hl1 & _).
    destruct (setter_views _ (set_style_map st) _ _ (fun _ => conj eq_refl eq_refl) Hu) as [Hch1 _].
    destruct (Hrender _ Hf1 Hl1 (update_node_frame _ _ _ _ Hu) Hch1)
      as (d' & Hrun & Hf' & Hpi & Hch & Hci & Hck & Hcho & Hdoc').
    assert (Hti : t ≠ i) by (pose proof (proj1 (proj2 Hwf) t ltac:(by eexists)); unfold i; lia).
    assert (Hst : style_of d' t "display" = Some "none").
    { rewrite (style_of_content _ _ _ _ (Hck t Hti)). unfold style_of, node_at. rewrite dom_set_lookup.
      simpl. unfold st. by rewrite lookup_insert_eq. }
    exists d'. rewrite Hrun. do 5 (split; [done|]). split.
    { intros t' Ht' Hid'. exists t. split; [done|]. split; [|done].
      by destruct (getElementById_found d _ t' Hf Ht' Hid') as (? & ? & _ & ?); congruence. }
    split; [done|]. split.
    { intros k Hk. by rewrite (node_kind_content _ _ _ (Hck k Hk)), (node_kind_style _ _ _ _ _ Hx). }
    split; [done|]. split; [by intros ? [= <-]|].
    intros k Hk Hkt. rewrite (Hck k Hk). unfold content, dom_set; simpl.
    rewrite lookup_insert_ne; [done|]. intros ->. by apply Hkt.
  - rewrite st_bind_ret_l.
    destruct (Hrender d Hf (reflexivity _) (frame_refl d) (fun _ => eq_refl))
      as (d' & Hrun & Hf' & Hpi & Hch & Hci & Hck & Hcho & Hdoc').
    exists d'. rewrite Hrun. do 5 (split; [done|]). split.
    { intros t' Ht' Hid'. destruct (getElementById_found d _ t' Hf Ht' Hid') as (? & ? & _). congruence. }
    split; [done|]. split; [intros k Hk; by rewrite (node_kind_content _ _ _ (Hck k Hk))|].
    split; [done|]. split; [intros ? Ht'; congruence|]. intros k Hk _. by apply Hck.
Qed.

(** C25. [updateView] with the option set at 5 on a control not yet
    rendered, on any page whose DOM is a forest: it completes, sets the
    flag, hides the first element in tree order with the decoy's id (one
    exists whenever a connected element has that id), renders the iframe
    as the last-but-one child of the container, schedules the animation,
    and the page stays a forest. *)
Theorem updateView_reveal self ctx w c cont b :
  forest (w_dom w) -> render_pre self w c cont b -> truthy (_controlViewRendered c) = false ->
  DoomEnablerOptionSet_raw ctx = Some 5%Z ->
  let i := d_next (w_dom w) in
  exists d', updateView self ctx w =
    (Ret tt, mk_world d' (setTimeout (AnimateIn self) 100 (w_timers w)).2
       (<[self := revealed_fields c i]> (w_this w))) /\
    forest d' /\ parentNode d' i = Some cont /\
    children_of d' cont = filter (fun y => y ≠ b) (children_of (w_dom w) cont) ++ [i; b] /\
    content d' i = Some (content_of render_iframe_src) /\
    (∀ t, connected (w_dom w) t = true -> has_id (w_dom w) "seriousTextArea" t = true ->
       exists y, getElementById (w_dom w) "seriousTextArea" = Some y /\ connected (w_dom w) y = true /\
                 style_of d' y "display" = Some "none").
Proof.
  intros Hf Hpre Hflag Hraw i.
  destruct (updateView_reveal_spec self ctx w c cont b Hf Hpre Hflag Hraw) as (d' & H1 & H2 & H3 & H4 & H5 & H6 & _).
  exists d'. by repeat (split; [done|]).
Qed.

(** The page of [Methods.inited_world]: one control, mounted and not yet
    revealed, its decoy [4] a child of the root container [1]. *)
Lemma updateView_reveal_witness :
  let i := d_next (w_dom inited_world) in
  exists d', updateView 0 (mk_context (Some 5%Z)) inited_world =
    (Ret tt, mk_world d' (setTimeout (AnimateIn 0) 100 (w_timers inited_world)).2
       (<[0%N := revealed_fields inited_fields i]> (w_this inited_world))) /\
    forest d' /\ parentNode d' i = Some 2%N /\
    children_of d' 2 = filter (fun y => y ≠ 3%N) (children_of (w_dom inited_world) 2) ++ [i; 3%N] /\
    content d' i = Some (content_of render_iframe_src) /\
    (∀ t, connected (w_dom inited_world) t = true -> has_id (w_dom inited_world) "seriousTextArea" t = true ->
       exists y, getElementById (w_dom inited_world) "seriousTextArea" = Some y /\
                 connected (w_dom inited_world) y = true /\ style_of d' y "display" = Some "none").
Proof.
  apply (updateView_reveal 0 (mk_context (Some 5%Z)) inited_world inited_fields 2 3);
    [solve_forest | solve_render_pre | reflexivity | reflexivity].
Defined.
