(* ===== verification/Behaviour.v ===== *)
(** * What the control does on a page, for every reachable world

    Consequences of the page invariant [Page.reachable_shape], stated on
    the fields of [this] and on what the DOM shows (the element
    [getElementById] finds, its style, the parent of [_container]):
    the reveal on the trigger value, the dead fallback branch of
    [onBossKeyClick], the termination of the timer loop with an explicit
    bound, and the boss key's promise that the decoy comes back. *)

From S2P Require Import Prelude Dom Timers Widget Host Page.

(** Observations of a world. *)
Definition decoy_display (w : world) : option string :=
  getElementById (w_dom w) "seriousTextArea" ≫= fun t => style_of (w_dom w) t "display".

Definition wrapper_parent (w : world) : option N :=
  (w_this w !! 0%N ≫= _container) ≫= parentNode (w_dom w).

(** The lookup [onBossKeyClick] performs (line 126): the first element of
    class [PcfDoomComponent_IFrame] inside [this._container]. *)
Definition boss_key_query (w : world) : option N :=
  (w_this w !! 0%N ≫= _container) ≫= fun c =>
    querySelector_class (w_dom w) c "PcfDoomComponent_IFrame".

(** ** The timer loop terminates *)

(** A fly-out task schedules one more task, the other callbacks none. *)
Definition page_weight (cb : closure) : nat :=
  match cb with FlyOut _ _ => 2 | _ => 1 end.

Definition timer_measure (w : world) : nat :=
  weight_sum page_weight (pending (w_timers w)).

Lemma tick_measure p cb tm :
  valid p -> next_task (p_timers p) = Some (cb, tm) ->
  weight_sum page_weight (pending (p_timers (page_run cb (with_timers p tm)))) <
  weight_sum page_weight (pending (p_timers p)).
Proof.
  intros Hv Hn. pose proof Hv as (Hwf & _ & _).
  destruct (next_task_inv _ _ _ Hwf Hn) as (t & Ht & -> & _ & Hpend & _ & _).
  pose proof (weight_sum_remove page_weight t _ (proj1 Hwf) Ht) as Hw.
  destruct (t_cb t) eqn:E; simpl; rewrite ?weight_sum_app, Hpend; simpl in *;
    unfold weight_sum in *; simpl in *; rewrite ?E in Hw; simpl in *; lia.
Qed.

Lemma reachable_tick w w' :
  reachable w -> host_step w Tick = Some w' -> reachable w' /\ timer_measure w' < timer_measure w.
Proof.
  intros Hr Hs. split; [by apply (reachable_step w Tick w')|].
  destruct (reachable_shape w Hr) as (p & Hv & ->).
  destruct (next_task (p_timers p)) as [[cb tm]|] eqn:Hn;
    [|unfold host_step in Hs; change (w_timers (shape p)) with (p_timers p) in Hs;
      by rewrite Hn in Hs].
  rewrite (tick_shape p cb tm Hv Hn) in Hs. simplify_eq.
  by apply tick_measure.
Qed.

Lemma drain_idle fuel w :
  reachable w -> timer_measure w <= fuel ->
  reachable (drain fuel w) /\ pending (w_timers (drain fuel w)) = [].
Proof.
  revert w. induction fuel as [|fuel IH]; intros w Hr Hm; cbn [drain].
  - split; [done|]. destruct (pending (w_timers w)) as [|t l] eqn:E; [done|].
    unfold timer_measure, weight_sum in Hm. rewrite E in Hm. simpl in Hm.
    destruct (t_cb t); simpl in Hm; lia.
  - destruct (host_step w Tick) as [w'|] eqn:Hs.
    + destruct (reachable_tick w w' Hr Hs). apply IH; [done | lia].
    + split; [done|]. by apply host_step_tick_None.
Qed.

(** C9. The event loop goes idle: from any reachable world, [timer_measure]
    turns of the timer source (each pending fly-out counts two, as it
    schedules the removal) run every pending callback, and the world
    reached is still reachable. *)
Theorem drain_terminates w :
  reachable w ->
  reachable (drain (timer_measure w) w) /\ pending (w_timers (drain (timer_measure w) w)) = [].
Proof. intros Hr. by apply drain_idle. Qed.

(** ** The boss key brings the decoy back *)

(** A dismissal is under way: the wrapper is gone, or a fly-out or a
    removal is pending. *)
Definition dismissing (p : params) : Prop :=
  p_attached p = false \/
  exists t, t ∈ pending (p_timers p) /\ (t_cb t = FlyOut 0 5 \/ t_cb t = RemoveContainer 0).

Lemma tick_dismissing p cb tm :
  valid p -> next_task (p_timers p) = Some (cb, tm) -> dismissing p ->
  dismissing (page_run cb (with_timers p tm)).
Proof.
  intros Hv Hn Hd. pose proof Hv as ((Hnd & _) & _ & _).
  destruct (next_task_inv _ _ _ (proj1 Hv) Hn) as (t & Ht & -> & _ & Hpend & _ & _).
  (* a task other than [t] that was pending still is *)
  assert (Hkeep : forall x, x ∈ pending (p_timers p) -> x ≠ t -> x ∈ pending tm).
  { intros x Hx Hne. rewrite Hpend. by apply remove_task_keep. }
  destruct (t_cb t) eqn:E; simpl; try (by left).
  all: destruct Hd as [Ha | (x & Hx & Hcb)]; [by left|].
  (* a fly-out schedules a removal; any other callback keeps the pending one *)
  all: first [ right; eexists; split; [apply elem_of_app; right; by left | by right]
             | destruct (decide (x = t)) as [->|Hne];
               [rewrite E in Hcb; destruct Hcb; discriminate
               | right; exists x; split; [by apply Hkeep | done]] ].
Qed.

(** The flag and the wrapper decide whether the button is in the page. *)
Lemma shape_bossKey_connected p :
  valid p -> connected (w_dom (shape p)) 3 = true -> p_flag p = true /\ p_attached p = true.
Proof.
  intros Hv Hc. destruct (valid_cases p Hv) as [(?&?&?&?)|[(?&?&?)|(?&?&?)]];
    destruct_params p; vm_compute in Hc; by try discriminate.
Qed.

Lemma drain_dismissing fuel p :
  valid p -> dismissing p ->
  exists p', valid p' /\ dismissing p' /\ drain fuel (shape p) = shape p'.
Proof.
  revert p. induction fuel as [|fuel IH]; intros p Hv Hd; cbn [drain]; [by exists p|].
  destruct (next_task (p_timers p)) as [[cb tm]|] eqn:Hn.
  - rewrite (tick_shape p cb tm Hv Hn).
    apply IH; [by apply page_run_valid | by apply tick_dismissing].
  - unfold host_step. change (w_timers (shape p)) with (p_timers p). rewrite Hn. by exists p.
Qed.

(** A finished dismissal: the wrapper is out of the page and the textarea
    is displayed again. *)
Lemma dismissed_observed p :
  valid p -> p_attached p = false ->
  wrapper_parent (shape p) = None /\ decoy_display (shape p) = Some "block".
Proof.
  intros Hv Ha. destruct (valid_cases p Hv) as [(?&?&?&?)|[(?&?&?)|(?&?&?)]];
    try congruence. destruct_params p. by vm_compute.
Qed.

(** C2. The panic button works: in every reachable world where the boss
    key is in the page, clicking it and letting the timers run (the 10 ms
    fly-out, then the 500 ms removal, in whatever order they interleave
    with the slide-in animation) ends with the wrapper out of the page
    and the decoy textarea displayed again. *)
Theorem boss_key_restores_decoy w b :
  reachable w -> (w_this w !! 0%N ≫= _bossKey) = Some b -> connected (w_dom w) b = true ->
  exists w1, host_step w (Click b) = Some w1 /\
    pending (w_timers (drain (timer_measure w1) w1)) = [] /\
    wrapper_parent (drain (timer_measure w1) w1) = None /\
    decoy_display (drain (timer_measure w1) w1) = Some "block".
Proof.
  intros Hr Hb Hc. destruct (reachable_shape w Hr) as (p & Hv & ->).
  assert (b = 3%N) as -> by (vm_compute in Hb; congruence).
  destruct (shape_bossKey_connected p Hv Hc) as [Hf Ha].
  eexists. split; [by apply click_shape|].
  assert (Hr1 : reachable (shape (click_effect 3 p))).
  { apply (reachable_step (shape p) (Click 3)); [done | done | by apply click_shape]. }
  destruct (drain_idle _ _ Hr1 (le_n _)) as [_ Hidle].
  unfold click_effect in *. rewrite Hf, Ha in Hidle |- *. simpl in Hidle |- *.
  destruct (drain_dismissing (timer_measure (shape (page_click p))) (page_click p))
    as (p' & Hv' & Hd' & Hdr).
  { apply (page_click_valid p 3) in Hv. unfold click_effect in Hv. by rewrite Hf, Ha in Hv. }
  { right. eexists. split; [apply elem_of_app; right; by left | by left]. }
  rewrite Hdr in Hidle |- *. split; [done|].
  apply dismissed_observed; [done|].
  destruct Hd' as [Ha' | (t & Ht & _)]; [done|].
  change (w_timers (shape p')) with (p_timers p') in Hidle. rewrite Hidle in Ht. inversion Ht.
Qed.

(** ** The reveal *)

Lemma shape_flag p : (w_this (shape p) !! 0%N ≫= _controlViewRendered) = Some (p_flag p).
Proof. simpl. by rewrite lookup_singleton_eq. Qed.

(** C8. The fallback branch of [onBossKeyClick] (no iframe found: remove
    the container at once, without showing the textarea again) is dead
    code on the page: whenever the boss key is in the page, the wrapper's
    [querySelector('.PcfDoomComponent_IFrame')] finds [this._doomIframe]. *)
Theorem click_finds_iframe w b :
  reachable w -> (w_this w !! 0%N ≫= _bossKey) = Some b ->
  connected (w_dom w) b = true ->
  is_Some (boss_key_query w) /\ boss_key_query w = (w_this w !! 0%N ≫= _doomIframe).
Proof.
  intros Hr Hb Hc. destruct (reachable_shape w Hr) as (p & Hv & ->).
  assert (b = 3%N) as -> by (vm_compute in Hb; congruence).
  destruct (shape_bossKey_connected p Hv Hc) as [Hf Ha].
  destruct_params p. split; [eexists|]; by vm_compute.
Qed.

(** C3. The trigger: on a reachable page where the flag is still unset,
    [updateView] with the option set at 5 sets the flag, hides the decoy
    ([display: none]), puts the iframe, with its class and its [src],
    into the wrapper followed by the button, and schedules the slide-in
    100 ms later. *)
Theorem update_reveals w w' ctx :
  reachable w -> (w_this w !! 0%N ≫= _controlViewRendered) = Some false ->
  DoomEnablerOptionSet_raw ctx = Some 5%Z -> host_step w (Update 0 ctx) = Some w' ->
  exists c i cont b, w_this w' !! 0%N = Some c /\ _controlViewRendered c = Some true /\
    _doomIframe c = Some i /\ _container c = Some cont /\ _bossKey c = Some b /\
    children_of (w_dom w') cont = [i; b] /\ connected (w_dom w') i = true /\
    attr_of (w_dom w') i "src" = Some iFrameSrc /\
    has_class (w_dom w') "PcfDoomComponent_IFrame" i = true /\
    decoy_display w' = Some "none" /\
    pending (w_timers w') =
      pending (w_timers w) ++ [mk_task (now (w_timers w) + 100) (next_seq (w_timers w)) (AnimateIn 0)].
Proof.
  intros Hr Hflag Hraw Hs. destruct (reachable_shape w Hr) as (p & Hv & ->).
  rewrite update_shape in Hs by done. simplify_eq.
  destruct (valid_cases p Hv) as [(Hf&?&?&?)|[(Hf&?&?)|(Hf&?&?)]];
    [| rewrite shape_flag, Hf in Hflag; congruence..].
  unfold page_update. rewrite Hf, Hraw. simpl.
  destruct_params p. do 4 eexists. by vm_compute.
Qed.

(** C11. Before the trigger the page shows the decoy: while the flag is
    unset, the textarea has no [display] override, no element of the page
    has the iframe's class, and no timer is pending. *)
Theorem decoy_before_trigger w :
  reachable w -> (w_this w !! 0%N ≫= _controlViewRendered) = Some false ->
  decoy_display w = None /\
  find (has_class (w_dom w) "PcfDoomComponent_IFrame") (tree_order (w_dom w) 0) = None /\
  pending (w_timers w) = [].
Proof.
  intros Hr Hflag. destruct (reachable_shape w Hr) as (p & Hv & ->).
  destruct (valid_cases p Hv) as [(Hf&?&?&Hnil)|[(Hf&?&?)|(Hf&?&?)]];
    [| rewrite shape_flag, Hf in Hflag; congruence..].
  destruct_params p. by vm_compute.
Qed.

(** C5. The page's invariant, as the user sees it: in every reachable
    world the decoy textarea is hidden exactly while the iframe
    [this._doomIframe] is in the page. *)
Theorem decoy_hidden_iff_frame_shown w :
  reachable w ->
  (decoy_display w = Some "none" <->
   exists i, (w_this w !! 0%N ≫= _doomIframe) = Some i /\ connected (w_dom w) i = true).
Proof.
  intros Hr. destruct (reachable_shape w Hr) as (p & Hv & ->).
  destruct (valid_cases p Hv) as [(?&?&?&?)|[(?&?&?)|(?&?&?)]]; destruct_params p.
  - match goal with |- context [decoy_display ?w] =>
      assert (Hd : decoy_display w = None) by (vm_compute; reflexivity); rewrite Hd end.
    split; [discriminate|]. intros (i & Hi & _). vm_compute in Hi. discriminate.
  - split; intros _; [exists 5%N|]; by vm_compute.
  - match goal with |- context [decoy_display ?w] =>
      assert (Hd : decoy_display w = Some "block") by (vm_compute; reflexivity); rewrite Hd end.
    split; [discriminate|]. intros (i & Hi & Hc). vm_compute in Hi. injection Hi as <-.
    vm_compute in Hc. discriminate.
Qed.

(** A pending task is due between the clock and 500 ms after it, the
    longest delay the code passes to [setTimeout] (line 147). *)
Definition due_window (w : world) (t : task closure) : bool :=
  (now (w_timers w) <=? t_due t)%N && (t_due t <=? now (w_timers w) + 500)%N.

(** The button [_bossKey] of control [0]. *)
Definition boss_key_of (w : world) : option N := w_this w !! 0%N ≫= _bossKey.

(** The tag of the element a field points to. *)
Definition tag_at (d : dom closure) (n : N) : option tag := n_tag <$> node_at d n.

(** C20. Timer bounds: on every reachable page each pending timer is due
    no earlier than the clock and at most 500 ms after it (the longest
    delay the code passes to [setTimeout]), so every scheduled callback
    runs within half a second of simulated time. *)
Theorem pending_timers_bounded w :
  reachable w -> Forall (fun t => due_window w t = true) (pending (w_timers w)).
Proof.
  intros Hr. destruct (reachable_shape w Hr) as (p & ((_ & Hnow) & _ & Hh & _) & ->).
  simpl. unfold within in Hh. rewrite Forall_forall in Hnow, Hh |- *.
  intros t Ht. unfold due_window. apply andb_true_iff. rewrite !N.leb_le.
  split; [apply Hnow | apply Hh]; done.
Qed.

(** C21. The fields keep their types: on every reachable page
    [_rootContainer] and [_container] are [div]s, [_bossKey] is a
    [button], [_doomIframe] is an [iframe] exactly when the flag
    [_controlViewRendered] is set and is [undefined] before, and the
    decoy found by [getElementById] is a [textarea]. *)
Theorem fields_typed w :
  reachable w ->
  exists c root cont b, w_this w !! 0%N = Some c /\ _rootContainer c = Some root /\
    _container c = Some cont /\ _bossKey c = Some b /\
    tag_at (w_dom w) root = Some Div /\ tag_at (w_dom w) cont = Some Div /\
    tag_at (w_dom w) b = Some Button /\
    (getElementById (w_dom w) "seriousTextArea" ≫= tag_at (w_dom w)) = Some TextArea /\
    (if truthy (_controlViewRendered c)
     then exists i, _doomIframe c = Some i /\ tag_at (w_dom w) i = Some IFrame
     else _doomIframe c = None).
Proof.
  intros Hr. destruct (reachable_shape w Hr) as (p & Hv & ->).
  exists (mk_component (Some 2%N) (Some 1%N) (Some (p_ctx p)) (Some (p_flag p))
            (if p_flag p then Some 5%N else None) (Some 3%N)), 1%N, 2%N, 3%N.
  destruct (valid_cases p Hv) as [(?&?&?&?)|[(?&?&?)|(?&?&?)]]; destruct_params p;
    vm_compute; (split; [reflexivity|]); repeat split; eauto.
Qed.

(** C22. Dispatching a click on the boss key, along the button and its
    ancestors with every ["click"] listener they hold, is equivalent on
    every reachable page to one direct call of the bound handler
    [onBossKeyClick] on the control. *)
Theorem click_dispatch_equiv w b :
  reachable w -> boss_key_of w = Some b -> connected (w_dom w) b = true ->
  host_step w (Click b) = Some (exec (onBossKeyClick 0) w).
Proof.
  intros Hr Hb Hc. destruct (reachable_shape w Hr) as (p & Hv & ->).
  assert (b = 3%N) as -> by (vm_compute in Hb; congruence).
  destruct (shape_bossKey_connected p Hv Hc) as [Hf Ha].
  rewrite click_shape by done. f_equal.
  destruct_params p. vm_compute. reflexivity.
Qed.

(** ** Witnesses at the concrete worlds of the page *)

Lemma decoy_hidden_iff_frame_shown_witness :
  decoy_display revealed_world = Some "none" <->
  exists i, (w_this revealed_world !! 0%N ≫= _doomIframe) = Some i /\
            connected (w_dom revealed_world) i = true.
Proof.
  apply decoy_hidden_iff_frame_shown.
  apply (reachable_step mounted_world (Update 0 trigger_ctx));
    [apply reachable_mount | reflexivity | vm_compute; reflexivity].
Defined.

Lemma drain_terminates_witness :
  pending (w_timers (drain (timer_measure revealed_world) revealed_world)) = [].
Proof.
  apply drain_terminates.
  apply (reachable_step mounted_world (Update 0 trigger_ctx));
    [apply reachable_mount | reflexivity | vm_compute; reflexivity].
Defined.

Lemma boss_key_restores_decoy_witness :
  exists w1, host_step revealed_world (Click 3) = Some w1 /\
    pending (w_timers (drain (timer_measure w1) w1)) = [] /\
    wrapper_parent (drain (timer_measure w1) w1) = None /\
    decoy_display (drain (timer_measure w1) w1) = Some "block".
Proof.
  apply boss_key_restores_decoy.
  - apply (reachable_step mounted_world (Update 0 trigger_ctx));
      [apply reachable_mount | reflexivity | vm_compute; reflexivity].
  - vm_compute. reflexivity.
  - vm_compute. reflexivity.
Defined.

Lemma click_finds_iframe_witness :
  is_Some (boss_key_query revealed_world) /\
  boss_key_query revealed_world = (w_this revealed_world !! 0%N ≫= _doomIframe).
Proof.
  apply (click_finds_iframe revealed_world 3).
  - apply (reachable_step mounted_world (Update 0 trigger_ctx));
      [apply reachable_mount | reflexivity | vm_compute; reflexivity].
  - vm_compute. reflexivity.
  - vm_compute. reflexivity.
Defined.

Lemma update_reveals_witness :
  exists c i cont b, w_this revealed_world !! 0%N = Some c /\ _controlViewRendered c = Some true /\
    _doomIframe c = Some i /\ _container c = Some cont /\ _bossKey c = Some b /\
    children_of (w_dom revealed_world) cont = [i; b] /\
    connected (w_dom revealed_world) i = true /\
    attr_of (w_dom revealed_world) i "src" = Some iFrameSrc /\
    has_class (w_dom revealed_world) "PcfDoomComponent_IFrame" i = true /\
    decoy_display revealed_world = Some "none" /\
    pending (w_timers revealed_world) =
      pending (w_timers mounted_world) ++
      [mk_task (now (w_timers mounted_world) + 100) (next_seq (w_timers mounted_world)) (AnimateIn 0)].
Proof.
  apply (update_reveals mounted_world revealed_world trigger_ctx).
  - apply reachable_mount.
  - vm_compute. reflexivity.
  - reflexivity.
  - vm_compute. reflexivity.
Defined.

Lemma decoy_before_trigger_witness :
  decoy_display mounted_world = None /\
  find (has_class (w_dom mounted_world) "PcfDoomComponent_IFrame") (tree_order (w_dom mounted_world) 0) = None /\
  pending (w_timers mounted_world) = [].
Proof.
  apply decoy_before_trigger; [apply reachable_mount | vm_compute; reflexivity].
Defined.

Lemma pending_timers_bounded_witness :
  Forall (fun t => due_window revealed_world t = true) (pending (w_timers revealed_world)).
Proof.
  apply pending_timers_bounded.
  apply (reachable_step mounted_world (Update 0 trigger_ctx));
    [apply reachable_mount | reflexivity | vm_compute; reflexivity].
Defined.

Lemma fields_typed_witness :
  exists c root cont b, w_this mounted_world !! 0%N = Some c /\ _rootContainer c = Some root /\
    _container c = Some cont /\ _bossKey c = Some b /\
    tag_at (w_dom mounted_world) root = Some Div /\ tag_at (w_dom mounted_world) cont = Some Div /\
    tag_at (w_dom mounted_world) b = Some Button /\
    (getElementById (w_dom mounted_world) "seriousTextArea" ≫= tag_at (w_dom mounted_world)) =
      Some TextArea /\
    (if truthy (_controlViewRendered c)
     then exists i, _doomIframe c = Some i /\ tag_at (w_dom mounted_world) i = Some IFrame
     else _doomIframe c = None).
Proof. apply fields_typed, reachable_mount. Defined.

Lemma click_dispatch_equiv_witness :
  host_step revealed_world (Click 3) = Some (exec (onBossKeyClick 0) revealed_world).
Proof.
  apply click_dispatch_equiv.
  - apply (reachable_step mounted_world (Update 0 trigger_ctx));
      [apply reachable_mount | reflexivity | vm_compute; reflexivity].
  - vm_compute. reflexivity.
  - vm_compute. reflexivity.
Defined.
