(* ===== verification/Spec.v ===== *)
(** * The control's contract, and the refinement theorem

    The abstract machine is what the control promises its user: a decoy
    phase, a revealed phase entered only by a property update with the
    option set at 5, and a dismissed phase entered only by a timer turn
    (the removal the boss key schedules); every other event leaves the
    phase as it is.  Each phase comes with what the page shows
    ([promise]).  The refinement theorem says that every step of the
    host from a reachable world is a step of this machine between the
    phases the worlds are in, and that the world reached keeps the
    promise of its phase. *)

From S2P Require Import Prelude Dom Timers Widget Host Page Behaviour.

Inductive phase := Decoy | Revealed | Dismissed.

#[export] Instance phase_eq_dec : EqDecision phase.
Proof. solve_decision. Defined.

Inductive astep : phase -> event -> phase -> Prop :=
  | astep_reveal ctx :
      DoomEnablerOptionSet_raw ctx = Some 5%Z -> astep Decoy (Update 0 ctx) Revealed
  | astep_dismiss : astep Revealed Tick Dismissed
  | astep_stay ph e : astep ph e ph.

(** What the page shows in each phase. *)
Definition promise (ph : phase) (w : world) : Prop :=
  match ph with
  | Decoy => decoy_display w = None /\ wrapper_parent w = Some 1%N /\
             (w_this w !! 0%N ≫= _doomIframe) = None
  | Revealed => decoy_display w = Some "none" /\ wrapper_parent w = Some 1%N /\
                exists i, (w_this w !! 0%N ≫= _doomIframe) = Some i /\
                          connected (w_dom w) i = true /\
                          attr_of (w_dom w) i "src" = Some iFrameSrc
  | Dismissed => decoy_display w = Some "block" /\ wrapper_parent w = None /\
                 exists i, (w_this w !! 0%N ≫= _doomIframe) = Some i /\
                           connected (w_dom w) i = false
  end.

(** The phase a world is in, read from the flag and the wrapper. *)
Definition phase_of (w : world) : phase :=
  match w_this w !! 0%N ≫= _controlViewRendered with
  | Some true => match wrapper_parent w with Some _ => Revealed | None => Dismissed end
  | _ => Decoy
  end.

Definition phase_params (p : params) : phase :=
  if p_flag p then if p_attached p then Revealed else Dismissed else Decoy.

Lemma phase_of_shape p : valid p -> phase_of (shape p) = phase_params p.
Proof.
  intros Hv. destruct (valid_cases p Hv) as [(?&?&?&?)|[(?&?&?)|(?&?&?)]];
    destruct_params p; by vm_compute.
Qed.

Lemma promise_shape p : valid p -> promise (phase_params p) (shape p).
Proof.
  intros Hv. destruct (valid_cases p Hv) as [(?&?&?&?)|[(?&?&?)|(?&?&?)]];
    destruct_params p; vm_compute; [done | |]; (split; [done|]; split; [done|]);
    eexists; by vm_compute.
Qed.

Lemma phase_params_eq p q :
  valid p -> valid q -> shape p = shape q -> phase_params p = phase_params q.
Proof. intros Hp Hq Hs. by rewrite <-(phase_of_shape p), <-(phase_of_shape q), Hs. Qed.

(** A step between shapes is a step of the abstract machine. *)
Lemma astep_shape p e p' :
  valid p -> valid p' -> is_mount e = false -> host_step (shape p) e = Some (shape p') ->
  astep (phase_params p) e (phase_params p').
Proof.
  intros Hv Hv' Hm Hs. destruct e as [| [|s] ctx | n | | s]; try done.
  - (* updateView *)
    rewrite update_shape in Hs by done.
    assert (Hs' : shape (page_update ctx p) = shape p') by congruence.
    rewrite <-(phase_params_eq _ _ (page_update_valid p ctx Hv) Hv' Hs').
    unfold page_update. destruct (p_flag p) eqn:Hf; simpl; [apply astep_stay|].
    destruct (decide (DoomEnablerOptionSet_raw ctx = Some 5%Z)) as [H5|H5].
    + rewrite bool_decide_eq_true_2 by done. destruct (valid_cases p Hv) as [(_&_&Ha&_)|[(?&_)|(?&_)]];
        [|congruence..].
      unfold phase_params. rewrite Hf, Ha. simpl. by apply astep_reveal.
    + rewrite bool_decide_eq_false_2 by done. apply astep_stay.
  - simpl in Hs. rewrite lookup_singleton_ne in Hs by done. by rewrite decide_False in Hs.
  - (* a click keeps the flag and the wrapper *)
    destruct (connected (w_dom (shape p)) n) eqn:Hc; [|unfold host_step in Hs; by rewrite Hc in Hs].
    rewrite click_shape in Hs by done.
    assert (Hs' : shape (click_effect n p) = shape p') by congruence.
    rewrite <-(phase_params_eq _ _ (page_click_valid p n Hv) Hv' Hs').
    unfold click_effect. destruct (_ && _ && _); apply astep_stay.
  - (* a timer turn: only the removal changes the phase *)
    destruct (next_task (p_timers p)) as [[cb tm]|] eqn:Hn;
      [|unfold host_step in Hs; change (w_timers (shape p)) with (p_timers p) in Hs;
        by rewrite Hn in Hs].
    rewrite (tick_shape p cb tm Hv Hn) in Hs.
    assert (Hs' : shape (page_run cb (with_timers p tm)) = shape p') by congruence.
    rewrite <-(phase_params_eq _ _ (page_run_valid p cb tm Hv Hn) Hv' Hs').
    destruct cb; simpl; try apply astep_stay.
    destruct (valid_cases p Hv) as [(_&_&_&Hnil)|[(Hf&Ha&_)|(Hf&Ha&_)]].
    + pose proof Hv as (Hwf & _). destruct (next_task_inv _ _ _ Hwf Hn) as (t & Ht & _).
      rewrite Hnil in Ht. inversion Ht.
    + unfold phase_params. simpl. rewrite Hf, Ha. apply astep_dismiss.
    + unfold phase_params. simpl. rewrite Hf, Ha. apply astep_stay.
  - destruct (decide (s = 0%N)) as [->|Hne].
    + rewrite destroy_shape in Hs. assert (Hs' : shape p = shape p') by congruence.
      rewrite <-(phase_params_eq _ _ Hv Hv' Hs'). apply astep_stay.
    + simpl in Hs. rewrite lookup_singleton_ne in Hs by done. by rewrite decide_False in Hs.
Qed.

Lemma reachable_astep w e w' :
  reachable w -> is_mount e = false -> host_step w e = Some w' ->
  astep (phase_of w) e (phase_of w').
Proof.
  intros Hr Hm Hs. destruct (reachable_shape w Hr) as (p & Hv & ->).
  destruct (step_shape p e w' Hv Hm Hs) as (p' & Hv' & ->).
  rewrite !phase_of_shape by done. by apply astep_shape.
Qed.

(** C1. Refinement: every step of the host from a reachable world (a
    property update, a click, a timer turn, [destroy]) is a step of the
    abstract machine between the phases of the two worlds, and the world
    reached shows what its phase promises.  So the decoy is only ever
    replaced by the iframe on an update with the option set at 5, and
    the iframe is only ever dismissed by the removal timer. *)
Theorem refinement w e w' :
  reachable w -> is_mount e = false -> host_step w e = Some w' ->
  astep (phase_of w) e (phase_of w') /\ promise (phase_of w') w'.
Proof.
  intros Hr Hm Hs. split; [by apply reachable_astep|].
  destruct (reachable_shape w Hr) as (p & Hv & ->).
  destruct (step_shape p e w' Hv Hm Hs) as (p' & Hv' & ->).
  rewrite phase_of_shape by done. by apply promise_shape.
Qed.

(** The rank of a phase: the machine only moves forward. *)
Definition phase_rank (ph : phase) : nat :=
  match ph with Decoy => 0 | Revealed => 1 | Dismissed => 2 end.

Lemma astep_rank ph e ph' : astep ph e ph' -> phase_rank ph <= phase_rank ph'.
Proof. destruct 1; simpl; lia. Qed.

(** C7. One way only: along any sequence of events after mounting, the
    phase never goes back.  Once dismissed, the control stays dismissed,
    whatever the option set becomes: the flag [_controlViewRendered]
    is never reset. *)
Theorem phase_never_goes_back w es w' :
  reachable w -> Forall (fun e => is_mount e = false) es -> run_events w es = Some w' ->
  phase_rank (phase_of w) <= phase_rank (phase_of w').
Proof.
  intros Hr Hes. revert w Hr. induction Hes as [|e es He Hes IH]; intros w Hr Hrun.
  - simpl in Hrun. by simplify_eq.
  - simpl in Hrun. destruct (host_step w e) as [w1|] eqn:Hs; [|done]. simpl in Hrun.
    pose proof (astep_rank _ _ _ (reachable_astep w e w1 Hr He Hs)).
    specialize (IH w1 (reachable_step w e w1 Hr He Hs) Hrun). lia.
Qed.

(** ** Witnesses at the concrete worlds of the page *)

Lemma refinement_witness :
  astep (phase_of mounted_world) (Update 0 trigger_ctx) (phase_of revealed_world) /\
  promise (phase_of revealed_world) revealed_world.
Proof.
  apply refinement; [apply reachable_mount | reflexivity | vm_compute; reflexivity].
Defined.

(** Reveal, press the boss key, let the three timers run. *)
Definition panic_events : list event := [Update 0 trigger_ctx; Click 3; Tick; Tick; Tick].

Lemma phase_never_goes_back_witness :
  phase_rank (phase_of mounted_world) <=
  phase_rank (phase_of (default mounted_world (run_events mounted_world panic_events))).
Proof.
  apply (phase_never_goes_back mounted_world panic_events); [apply reachable_mount | |].
  - repeat constructor.
  - vm_compute. reflexivity.
Defined.
