(* ===== verification/Scenarios.v ===== *)
(** * Two controls on one page: the decoys share an id

    Every control gives its textarea the id ["seriousTextArea"], and
    [updateView] looks the decoy up with [document.getElementById], a
    document-wide lookup (line 67).  On any forest page, whatever the
    controls on it, the reveal hides the first element with that id in
    tree order; when another control's decoy comes first, the caller's
    own decoy ([own_decoy], the textarea in its root container) stays on
    screen next to its iframe. *)

From S2P Require Import Prelude Dom DomWf Acyclic Timers Widget Host Methods Reveal.

(** The textarea a control appended to its own root container. *)
Definition own_decoy (w : world) (self : N) : option N :=
  (w_this w !! self ≫= _rootContainer) ≫= fun r =>
    find (fun n => bool_decide ((n_tag <$> node_at (w_dom w) n) = Some TextArea))
         (children_of (w_dom w) r).

Definition trigger : context := mk_context (Some 5%Z).

(** Two controls mounted, neither revealed. *)
Definition two_mounted : world :=
  default empty_world (run_events empty_world [Mount 0 (mk_context None); Mount 1 (mk_context None)]).

(** The fields of the second control of [two_mounted]. *)
Definition second_fields : PcfDoomComponent :=
  mk_component (Some 6%N) (Some 5%N) (Some (mk_context None)) (Some false) None (Some 7%N).

Lemma own_decoy_fresh w self t :
  dom_wf (w_dom w) -> own_decoy w self = Some t -> (t < d_next (w_dom w))%N.
Proof.
  unfold own_decoy. intros Hwf Ho.
  destruct (w_this w !! self ≫= _rootContainer) as [r|]; [|discriminate]. simpl in Ho.
  apply find_some in Ho as [Hin _]. apply list_elem_of_In in Hin. exact (wf_child_fresh _ _ _ Hwf Hin).
Qed.

(** C6. The reveal hides the first decoy of the document, not the
    caller's: on any page whose DOM is a forest, with any controls on it,
    [updateView] with the option set at 5 on a control not yet rendered
    sets its flag and hides the first element in tree order with the id
    ["seriousTextArea"]; when that element is not the control's own decoy,
    the own decoy keeps its display, so it stays on screen beside the
    iframe the reveal renders. *)
Theorem reveal_hides_first_decoy self ctx w c cont b t t' :
  forest (w_dom w) -> render_pre self w c cont b -> truthy (_controlViewRendered c) = false ->
  DoomEnablerOptionSet_raw ctx = Some 5%Z ->
  getElementById (w_dom w) "seriousTextArea" = Some t -> own_decoy w self = Some t' -> t' ≠ t ->
  exists w', updateView self ctx w = (Ret tt, w') /\
    (w_this w' !! self ≫= _controlViewRendered) = Some true /\
    style_of (w_dom w') t "display" = Some "none" /\
    style_of (w_dom w') t' "display" = style_of (w_dom w) t' "display".
Proof.
  intros Hf Hpre Hflag Hraw Ht Ho Hne.
  destruct (updateView_reveal_spec self ctx w c cont b Hf Hpre Hflag Hraw)
    as (d' & Hrun & _ & _ & _ & _ & _ & _ & _ & _ & Hst & Hco).
  eexists. split; [exact Hrun|]. cbn [w_dom w_this].
  split; [rewrite lookup_insert_eq; reflexivity|]. split; [exact (Hst t Ht)|].
  apply style_of_content, Hco; [|congruence].
  pose proof (own_decoy_fresh w self t' (proj1 Hf) Ho). lia.
Qed.

Lemma reveal_hides_first_decoy_witness :
  exists w', updateView 1 trigger two_mounted = (Ret tt, w') /\
    style_of (w_dom w') 4 "display" = Some "none" /\ style_of (w_dom w') 8 "display" = None.
Proof.
  assert (Hwf : dom_wf (w_dom two_mounted)) by (apply dom_wfb_spec; vm_compute; reflexivity).
  destruct (reveal_hides_first_decoy 1 trigger two_mounted second_fields 6 7 4 8)
    as (w' & Hrun & _ & H4 & H8).
  - split; [exact Hwf | apply (acyclicb_spec _ Hwf); vm_compute; reflexivity].
  - split; [exact Hwf|]. split; [vm_compute; reflexivity|]. do 2 (split; [reflexivity|]).
    split; [vm_compute; by eexists|]. split; [vm_compute; by eexists|].
    split; [discriminate | vm_compute; reflexivity].
  - reflexivity.
  - reflexivity.
  - vm_compute. reflexivity.
  - vm_compute. reflexivity.
  - discriminate.
  - exists w'. split; [done|]. split; [done|]. rewrite H8. vm_compute. reflexivity.
Defined.
