(* ===== verification/Controls.v ===== *)
(** * Any number of controls on one page

    [Page] follows one control from its mount; [Safety] keeps the DOM a
    forest on any page.  Here the page starts empty and the host mounts
    any number of controls, updates them, dispatches clicks and runs
    timers in any order.  [page_ok] is the invariant of such a page:

    - the DOM is a forest whose root is the [body];
    - a [button] has no children (nobody appends into one);
    - every control's fields are set as [init] leaves them and point to
      nodes of the right tags: [_rootContainer] and [_container] to
      [div]s, [_bossKey] to a [button], [_doomIframe], once set, to an
      [iframe] ([ctl_ok]);
    - every listener and every pending timer is a closure of a mounted
      control whose references are good ([closure_ok]): the fly-out's
      iframe is a node, the animation's control has its iframe;
    - no two controls share a boss key, and a control's boss key is
      either not in the tree yet or a child of the control's container
      beside the control's iframe, which has the class the handler looks
      for ([key_linked], [links_ok]).

    Each host step keeps it: the mount through [host_mount_spec], the
    reveal through [Reveal.updateView_reveal_spec], the callbacks (which
    write styles and detach [div]s only, [keys_stay]) through
    [Callbacks].  [runs_page_ok]: every page reached from the empty page
    satisfies it.  [no_exception]: on such a page no method the host can
    call throws: [host_mount] (with [init]), [updateView], every timer
    callback and every click listener complete.  The [TypeError] paths of
    the code (a field still [undefined], [parentNode] being [null], a node
    missing) are dead in every run the host can produce.
    [boss_key_flies_out]: whenever a boss key is in the page its handler
    takes the fly-out branch; the fallback is dead. *)

From S2P Require Import Prelude Dom DomWf Acyclic Timers Widget Host Safety Page Methods Callbacks Reveal Behaviour Scenarios.

(** A control's fields once [init] has run. *)
Definition ctl_ok (d : dom closure) (c : PcfDoomComponent) : Prop :=
  exists root cont b ctx, _rootContainer c = Some root /\ _container c = Some cont /\
    _bossKey c = Some b /\ _context c = Some ctx /\
    tag_at d root = Some Div /\ tag_at d cont = Some Div /\ tag_at d b = Some Button /\
    (∀ i, _doomIframe c = Some i -> tag_at d i = Some IFrame).

(** What a listener or a timer callback needs to run. *)
Definition closure_ok (th : gmap N PcfDoomComponent) (d : dom closure) (cl : closure) : Prop :=
  match cl with
  | BossKeyClick self | RemoveContainer self => is_Some (th !! self)
  | AnimateIn self => exists c i, th !! self = Some c /\ _doomIframe c = Some i
  | FlyOut self i => is_Some (th !! self) /\ is_Some (d_nodes d !! i)
  end.

Definition dom_ok (th : gmap N PcfDoomComponent) (d : dom closure) : Prop :=
  forest d /\ tag_at d (d_document d) = Some Body /\
  (∀ n x, d_nodes d !! n = Some x -> n_tag x = Button -> n_children x = []) /\
  (∀ self c, th !! self = Some c -> ctl_ok d c) /\
  (∀ n x ty cl, d_nodes d !! n = Some x -> (ty, cl) ∈ n_listeners x -> closure_ok th d cl).

(** Where a control's boss key hangs: nowhere yet (before the reveal), or
    in the control's container beside the control's iframe, which carries
    the class the boss key's handler looks for. *)
Definition key_linked (d : dom closure) (c : PcfDoomComponent) : Prop :=
  ∀ b, _bossKey c = Some b ->
    parentNode d b = None \/
    exists cont i, _container c = Some cont /\ _doomIframe c = Some i /\
      parentNode d b = Some cont /\ parentNode d i = Some cont /\
      has_class d "PcfDoomComponent_IFrame" i = true.

(** No two controls share a boss key. *)
Definition keys_distinct (th : gmap N PcfDoomComponent) : Prop :=
  ∀ s s' c c', th !! s = Some c -> th !! s' = Some c' -> _bossKey c = _bossKey c' -> s = s'.

Definition links_ok (th : gmap N PcfDoomComponent) (d : dom closure) : Prop :=
  (∀ s c, th !! s = Some c -> key_linked d c) /\ keys_distinct th.

Definition page_ok (w : world) : Prop :=
  dom_ok (w_this w) (w_dom w) /\ links_ok (w_this w) (w_dom w) /\
  Forall (fun t => closure_ok (w_this w) (w_dom w) (t_cb t)) (pending (w_timers w)).

(** A change that moves no node but [div]s. *)
Definition keys_stay (d d' : dom closure) : Prop :=
  ∀ x, tag_at d x ≠ Some Div -> parentNode d' x = parentNode d x.

(** The old nodes persist with their tags and listeners, under the same
    root. *)
Definition grows (d d' : dom closure) : Prop :=
  d_document d' = d_document d /\
  ∀ k, is_Some (d_nodes d !! k) -> node_kind d' k = node_kind d k.

(** The controls of [th] stay in [th'], with their iframe if they had one. *)
Definition fields_grow (th th' : gmap N PcfDoomComponent) : Prop :=
  ∀ s c, th !! s = Some c ->
    exists c', th' !! s = Some c' /\ (is_Some (_doomIframe c) -> is_Some (_doomIframe c')).

(** The fields of a control once the host has mounted it on the [div]
    [root] it created, the wrapper [div] being node [root + 1] and the
    button the next node: the assignments of [init] to a fresh object. *)
Definition mounted_fields (root : N) (ctx : context) : PcfDoomComponent :=
  mk_component (Some (root + 1)%N) (Some root) (Some ctx) (Some false) None (Some (root + 1 + 1)%N).

(** No call the host makes on the page [w] throws: mounting a new
    control, [updateView] on a mounted one, any listener of any node, and
    the timer turn's callback. *)
Definition host_calls_complete (w : world) : Prop :=
  (∀ self ctx, w_this w !! self = None -> completes (host_mount self ctx) w = true) /\
  (∀ self ctx, is_Some (w_this w !! self) -> completes (updateView self ctx) w = true) /\
  (∀ n x ty cl, d_nodes (w_dom w) !! n = Some x -> (ty, cl) ∈ n_listeners x ->
     completes (run_closure cl) w = true) /\
  (∀ cb tm, next_task (w_timers w) = Some (cb, tm) ->
     completes (run_closure cb) (mk_world (w_dom w) tm (w_this w)) = true).

(** The branch [onBossKeyClick] takes on [w]: the container is in a
    parent, the query of line 125 finds an element [j] below it with the
    iframe's class, and the handler runs the fly-out of lines 127-148 on
    [j], not the fallback of lines 149-152. *)
Definition flies_out (self : N) (w : world) : Prop :=
  exists c cont p j x, w_this w !! self = Some c /\ _container c = Some cont /\
    parentNode (w_dom w) cont = Some p /\
    querySelector_class (w_dom w) cont "PcfDoomComponent_IFrame" = Some j /\
    is_ancestor (w_dom w) cont j /\ d_nodes (w_dom w) !! j = Some x /\
    onBossKeyClick self w =
      (Ret tt, mk_world (dom_set (w_dom w) j (flyout_prepared x))
                        (setTimeout (FlyOut self j) 10 (w_timers w)).2 (w_this w)).

(** Two controls mounted and revealed, the first one's boss key pressed,
    and one timer turn. *)
Definition two_controls : list event :=
  [Mount 0 trigger; Mount 1 trigger; Update 0 trigger; Update 1 trigger; Click 3; Tick].

Definition two_page : world := default empty_world (run_events empty_world two_controls).

(** ** Growth *)

Lemma grows_refl d : grows d d.
Proof. by split. Qed.

Lemma grows_trans d1 d2 d3 : grows d1 d2 -> grows d2 d3 -> grows d1 d3.
Proof.
  intros [Hd1 H1] [Hd2 H2]. split; [congruence|]. intros k Hk. rewrite <-(H1 k Hk). apply H2.
  specialize (H1 k Hk). unfold node_kind in H1. destruct Hk as [x Hx]. rewrite Hx in H1.
  destruct (d_nodes d2 !! k); [by eexists | discriminate].
Qed.

Lemma grows_node d d' k : grows d d' -> is_Some (d_nodes d !! k) -> is_Some (d_nodes d' !! k).
Proof.
  intros [_ H] Hk. specialize (H k Hk). unfold node_kind in H. destruct Hk as [x Hx].
  rewrite Hx in H. destruct (d_nodes d' !! k); [by eexists | discriminate].
Qed.

Lemma grows_old d d' n x y :
  grows d d' -> d_nodes d !! n = Some x -> d_nodes d' !! n = Some y ->
  n_tag y = n_tag x /\ n_attrs y = n_attrs x /\ n_listeners y = n_listeners x.
Proof.
  intros [_ Hg] Hx Hy. specialize (Hg n ltac:(by eexists)). unfold node_kind in Hg.
  rewrite Hx, Hy in Hg. by injection Hg as -> -> ->.
Qed.

Lemma tag_at_grows d d' k t : grows d d' -> tag_at d k = Some t -> tag_at d' k = Some t.
Proof.
  intros [_ H] Ht. unfold tag_at, node_at in *. destruct (d_nodes d !! k) as [x|] eqn:Hx; [|done].
  specialize (H k ltac:(by eexists)). unfold node_kind in H. rewrite Hx in H.
  destruct (d_nodes d' !! k); simpl in *; [injection H as H _ _; congruence | discriminate].
Qed.

Lemma ctl_ok_grows d d' c : grows d d' -> ctl_ok d c -> ctl_ok d' c.
Proof.
  intros Hg (root & cont & b & ctx & H1 & H2 & H3 & H4 & Hr & Hc & Hb & Hi).
  exists root, cont, b, ctx. do 4 (split; [done|]).
  split; [exact (tag_at_grows _ _ _ _ Hg Hr)|]. split; [exact (tag_at_grows _ _ _ _ Hg Hc)|].
  split; [exact (tag_at_grows _ _ _ _ Hg Hb)|].
  intros i Hci. exact (tag_at_grows _ _ _ _ Hg (Hi i Hci)).
Qed.

Lemma closure_ok_grows th d d' cl : grows d d' -> closure_ok th d cl -> closure_ok th d' cl.
Proof. intros Hg. destruct cl; simpl; try done. intros [? ?]. split; [done | by eapply grows_node]. Qed.

Lemma tag_at_node d k t : tag_at d k = Some t -> is_Some (d_nodes d !! k).
Proof. unfold tag_at, node_at. destruct (d_nodes d !! k); [by eexists | discriminate]. Qed.

(** A change that adds no node, keeps tags and listeners and only drops
    children keeps the DOM part of the invariant. *)
Lemma dom_ok_shrink th d d' :
  dom_ok th d -> forest d' -> grows d d' -> (∀ k, is_Some (d_nodes d' !! k) -> is_Some (d_nodes d !! k)) ->
  (∀ k, children_of d' k ⊆ children_of d k) -> dom_ok th d'.
Proof.
  intros (Hf & Hroot & Hleaf & Hctl & Hlis) Hf' Hg Hnew Hch. pose proof Hg as [Hdoc Htl].
  split; [done|]. split; [rewrite Hdoc; by eapply tag_at_grows|]. split; [|split].
  - intros n y Hy Hb. destruct (Hnew n ltac:(by eexists)) as [x Hx].
    pose proof (Htl n ltac:(by eexists)) as Hn. unfold node_kind in Hn. rewrite Hx, Hy in Hn.
    injection Hn as Htag _ _. specialize (Hleaf n x Hx ltac:(congruence)).
    specialize (Hch n). unfold children_of, node_at in Hch. rewrite Hx, Hy in Hch. simpl in Hch. rewrite Hleaf in Hch.
    destruct (n_children y) as [|z zs]; [done|]. exfalso. by apply (elem_of_nil z), Hch, elem_of_cons; left.
  - intros self c Hc. by eapply ctl_ok_grows, Hctl.
  - intros n y ty cl Hy Hin. destruct (Hnew n ltac:(by eexists)) as [x Hx].
    pose proof (Htl n ltac:(by eexists)) as Hn. unfold node_kind in Hn. rewrite Hx, Hy in Hn.
    injection Hn as _ _ Hl. eapply closure_ok_grows; [done|]. eapply Hlis; [done | by rewrite <-Hl].
Qed.

(** ** The DOM operations of the callbacks *)

Lemma dom_ok_setter th n f d d' :
  (∀ x, n_parent (f x) = n_parent x /\ n_children (f x) = n_children x) ->
  (∀ x, n_tag (f x) = n_tag x /\ n_attrs (f x) = n_attrs x /\ n_listeners (f x) = n_listeners x) ->
  dom_ok th d -> update_node n f d = Ret d' -> dom_ok th d' /\ grows d d'.
Proof.
  intros Hl Ht Hok Hu. pose proof (inv_setter _ _ _ _ Hl (proj1 Hok) Hu) as Hf'.
  destruct (setter_views n f d d' Hl Hu) as [Hch _].
  pose proof Hu as (x & Hx & ->)%update_node_Ret.
  assert (Hg : grows d (mk_dom (<[n:=f x]> (d_nodes d)) (d_next d) (d_document d))).
  { split; [done|]. intros k _. unfold node_kind; simpl. destruct (decide (k = n)) as [->|].
    - rewrite lookup_insert_eq, Hx. simpl. by rewrite (proj1 (Ht x)), (proj1 (proj2 (Ht x))), (proj2 (proj2 (Ht x))).
    - by rewrite lookup_insert_ne. }
  split; [|done]. apply (dom_ok_shrink th d); [done | done | done | |].
  - intros k. simpl. rewrite lookup_insert_is_Some'. intros [<-|]; [by eexists | done].
  - intros k. by rewrite Hch.
Qed.

Lemma dom_ok_removeChild th p c d d' :
  dom_ok th d -> removeChild p c d = Ret d' -> dom_ok th d' /\ grows d d'.
Proof.
  intros Hok Hr. pose proof (inv_removeChild _ _ _ _ (proj1 Hok) Hr) as Hf'.
  pose proof Hr as [_ Hdet]%removeChild_Ret.
  destruct (detach_effect _ _ _ _ Hdet) as ((Hdom & _ & Hdoc) & C & _).
  assert (Hg : grows d d').
  { split; [done|]. intros k _. apply node_kind_content. by eapply detach_content. }
  split; [|done]. apply (dom_ok_shrink th d); [done | done | done | intros k; by rewrite Hdom |].
  intros k y. rewrite C. case_decide; subst; [|done]. rewrite list_elem_of_filter. tauto.
Qed.

Section Closures.
Context (th : gmap N PcfDoomComponent) (d0 : dom closure).

(** The DOM part of the invariant, reached from [d0]. *)
Definition dom_ok_from (d : dom closure) : Prop := dom_ok th d /\ grows d0 d.

Lemma setStyle_ok n p v : op_inv dom_ok_from (setStyle n p v).
Proof.
  intros d d' [Hok Hg] Hu.
  destruct (dom_ok_setter th n (fun x => set_style_map (<[p:=v]> (n_style x)) x) d d'
             (fun _ => conj eq_refl eq_refl) (fun _ => conj eq_refl (conj eq_refl eq_refl)) Hok Hu).
  split; [done | by eapply grows_trans].
Qed.

Lemma removeChild_ok p c : op_inv dom_ok_from (removeChild p c).
Proof.
  intros d d' [Hok Hg] Hr. destruct (dom_ok_removeChild th p c d d' Hok Hr).
  split; [done | by eapply grows_trans].
Qed.

#[local] Hint Resolve setStyle_ok removeChild_ok : pcf.

(** The callbacks write styles and detach nodes only. *)
Lemma run_closure_dom_ok cl : keeps dom_ok_from (run_closure cl).
Proof. destruct cl; simpl; unfold onBossKeyClick, animateIn, flyOut, removeContainer; keeps_tac. Qed.
End Closures.

(** ** The links of the boss keys *)

Lemma has_class_grows d d' cl k :
  grows d d' -> is_Some (d_nodes d !! k) -> has_class d' cl k = has_class d cl k.
Proof.
  intros Hg [x Hx]. destruct (grows_node d d' k Hg ltac:(by eexists)) as [y Hy].
  destruct (grows_old _ _ _ _ _ Hg Hx Hy) as (_ & Ha & _).
  unfold has_class, node_at, class_tokens. by rewrite Hx, Hy, Ha.
Qed.

Lemma has_class_content d k (x : node closure) cl :
  content d k = Some (content_of x) -> has_class d cl k = bool_decide (cl ∈ class_tokens x).
Proof.
  unfold content, has_class, node_at, class_tokens. destruct (d_nodes d !! k) as [y|]; [|done].
  by intros [= _ -> _ _ _ _].
Qed.

(** A control keeps its links when its key and its iframe stay where
    they are. *)
Lemma key_linked_move d d' c :
  ctl_ok d c -> grows d d' ->
  (∀ b, _bossKey c = Some b -> parentNode d' b = parentNode d b) ->
  (∀ i, _doomIframe c = Some i -> parentNode d' i = parentNode d i) ->
  key_linked d c -> key_linked d' c.
Proof.
  intros (_ & _ & _ & _ & _ & _ & _ & _ & _ & _ & _ & Hti) Hg Hb Hi Hk b Hb0.
  destruct (Hk b Hb0) as [Hn|(cont & i & Hc & Hi0 & Hpb & Hpi & Hcl)]; [left; by rewrite (Hb b Hb0)|].
  right. exists cont, i.
  by rewrite (Hb b Hb0), (Hi i Hi0), (has_class_grows d d' _ _ Hg (tag_at_node _ _ _ (Hti i Hi0))).
Qed.

Lemma links_ok_keep th d d' :
  dom_ok th d -> keys_stay d d' -> grows d d' -> links_ok th d -> links_ok th d'.
Proof.
  intros (_ & _ & _ & Hctl & _) Hk Hg [Hl Hd]. split; [|done]. intros s c Hs.
  pose proof (Hctl s c Hs) as Hc. pose proof Hc as (_ & _ & b0 & _ & _ & _ & Hb0 & _ & _ & _ & Htb & Hti).
  apply (key_linked_move d); [done | done | | | exact (Hl s c Hs)].
  - intros b Hb. apply Hk. rewrite Hb0 in Hb. injection Hb as <-. by rewrite Htb.
  - intros i Hi. apply Hk. by rewrite (Hti i Hi).
Qed.

Lemma keys_stay_refl d : keys_stay d d.
Proof. by intros x _. Qed.

Lemma keys_stay_dom_set d j x y :
  d_nodes d !! j = Some x -> n_parent y = n_parent x -> keys_stay d (dom_set d j y).
Proof.
  intros Hx Hp k _. unfold parentNode, node_at, dom_set; simpl.
  destruct (decide (k = j)) as [->|]; [by rewrite lookup_insert_eq, Hx; simpl; rewrite Hp|].
  by rewrite lookup_insert_ne.
Qed.

Lemma keys_stay_removeChild p c d d' :
  tag_at d c = Some Div -> removeChild p c d = Ret d' -> keys_stay d d'.
Proof.
  intros Hc [_ Hdet]%removeChild_Ret x Hx. destruct (detach_effect _ _ _ _ Hdet) as (_ & _ & P).
  rewrite P. case_decide; [subst; congruence | done].
Qed.

(** ** The callbacks complete *)

(** A callback of a good closure on a good page completes, leaves the
    fields alone, moves no node but [div]s and schedules at most one
    closure, itself good. *)
Lemma closure_shape w cl :
  page_ok w -> closure_ok (w_this w) (w_dom w) cl ->
  exists d' tm', run_closure cl w = (Ret tt, mk_world d' tm' (w_this w)) /\ keys_stay (w_dom w) d' /\
    (tm' = w_timers w \/
     exists cl' delay, tm' = (setTimeout cl' delay (w_timers w)).2 /\ closure_ok (w_this w) d' cl').
Proof.
  intros [(Hf & _ & _ & Hctl & _) _] Hcl. destruct w as [d tm th]; simpl in *.
  destruct cl as [self|self|self i|self]; simpl in Hcl |- *.
  - destruct Hcl as [c Hc].
    destruct (Hctl self c Hc) as (root & cont & b & ctx & _ & Hcont & _ & _ & _ & Htc & _).
    destruct (parentNode d cont) as [p|] eqn:Hp; cycle 1.
    { unfold onBossKeyClick. rewrite (bind_this_get _ _ _ _ _ _ Hc), Hcont, bind_dom_read. simpl.
      rewrite Hp. exists d, tm. split; [done|]. split; [apply keys_stay_refl | by left]. }
    destruct (querySelector_class d cont "PcfDoomComponent_IFrame") as [j|] eqn:Hq.
    + destruct (querySelector_class_node _ _ _ _ Hq) as [x Hx].
      rewrite (onBossKeyClick_flyout_run self (mk_world d tm th) c cont p j x) by done.
      eexists _, _. split; [done|]. split; [by apply (keys_stay_dom_set _ _ x)|].
      right. exists (FlyOut self j), 10%Z. split; [done|].
      split; [by eexists | rewrite dom_set_lookup; by eexists].
    + rewrite (onBossKeyClick_run self (mk_world d tm th) c Hc cont p Hcont Hp).
      cbn [w_dom w_timers w_this]. rewrite Hq.
      destruct (removeChild_parent_ok p cont d (proj1 Hf) Hp) as [d' Hr]. rewrite Hr.
      exists d', tm. split; [done|]. split; [exact (keys_stay_removeChild _ _ _ _ Htc Hr) | by left].
  - destruct Hcl as (c & i & Hc & Hi). destruct (Hctl self c Hc) as (_ & _ & _ & _ & _ & _ & _ & _ & _ & _ & _ & Ht).
    destruct (tag_at_node _ _ _ (Ht i Hi)) as [x Hx].
    rewrite (animateIn_run self (mk_world d tm th) c i x) by done. eexists _, _.
    split; [done|]. split; [by apply (keys_stay_dom_set _ _ x) | by left].
  - destruct Hcl as [Hs [x Hx]]. rewrite (flyOut_run self i x (mk_world d tm th)) by done.
    eexists _, _. split; [done|]. split; [by apply (keys_stay_dom_set _ _ x)|].
    right. by exists (RemoveContainer self), 500%Z.
  - destruct Hcl as [c Hc].
    destruct (Hctl self c Hc) as (root & cont & b & ctx & _ & Hcont & _ & _ & _ & Htc & _).
    destruct (removeContainer_effect self (mk_world d tm th) c cont Hf Hc Hcont)
      as (d1 & d2 & Hrun & _ & _ & _ & _ & _ & Hp1 & Hl12 & _).
    rewrite Hrun. exists d2, tm. split; [done|]. split; [|by left].
    intros x Hx. rewrite <-(Hl12 x). apply Hp1. intros ->. by rewrite Htc in Hx.
Qed.

Lemma closure_step w cl :
  page_ok w -> closure_ok (w_this w) (w_dom w) cl ->
  exists w', run_closure cl w = (Ret tt, w') /\ page_ok w' /\ w_this w' = w_this w /\
             grows (w_dom w) (w_dom w').
Proof.
  intros Hok Hcl. destruct (closure_shape w cl Hok Hcl) as (d' & tm' & Hrun & Hks & Htm).
  pose proof (run_closure_dom_ok (w_this w) (w_dom w) cl w (conj (proj1 Hok) (grows_refl _))) as Hd.
  rewrite Hrun in Hd. destruct Hd as [Hdom Hg]. simpl in *.
  exists (mk_world d' tm' (w_this w)). split; [done|]. split; [|by split].
  destruct Hok as (Hd & Hl & Htm0). split; [done|]. simpl.
  split; [exact (links_ok_keep _ _ _ Hd Hks Hg Hl)|].
  assert (Hold : Forall (fun t => closure_ok (w_this w) d' (t_cb t)) (pending (w_timers w))).
  { eapply Forall_impl; [exact Htm0|]. intros t. by apply closure_ok_grows. }
  destruct Htm as [->|(cl' & delay & -> & Hcl')]; [done|]. simpl.
  apply Forall_app. split; [done|]. by constructor.
Qed.

(** ** Clicks and timer turns *)

Lemma report_Ret (m : M unit) w w' : m w = (Ret tt, w') -> report m w = (Ret tt, w').
Proof. unfold report. by intros ->. Qed.

Lemma run_all_ok cls w :
  page_ok w -> Forall (closure_ok (w_this w) (w_dom w)) cls ->
  exists w', run_all cls w = (Ret tt, w') /\ page_ok w' /\ w_this w' = w_this w /\
             grows (w_dom w) (w_dom w').
Proof.
  revert w. induction cls as [|cl cls IH]; intros w Hok Hall; simpl.
  - exists w. do 3 (split; [done|]). apply grows_refl.
  - apply Forall_cons in Hall as [Hcl Hall].
    destruct (closure_step w cl Hok Hcl) as (w1 & Hrun & Hok1 & Hth1 & Hg1).
    rewrite st_bind_run, (report_Ret _ _ _ Hrun). cbv beta iota.
    destruct (IH w1 Hok1) as (w2 & Hrun2 & Hok2 & Hth2 & Hg2).
    { rewrite Hth1. eapply Forall_impl; [exact Hall|]. intros cl'. by apply closure_ok_grows. }
    exists w2. split; [done|]. split; [done|]. split; [congruence | by eapply grows_trans].
Qed.

Lemma click_listeners_ok w n :
  page_ok w -> Forall (closure_ok (w_this w) (w_dom w)) (click_listeners (w_dom w) n).
Proof.
  intros [(_ & _ & _ & _ & Hlis) _]. unfold click_listeners, node_at.
  destruct (d_nodes (w_dom w) !! n) as [x|] eqn:Hx; [|constructor].
  apply Forall_forall. intros cl (l & -> & Hl)%list_elem_of_fmap.
  apply list_elem_of_filter in Hl as [_ Hl]. destruct l as [ty cl]. by apply (Hlis n x ty cl).
Qed.

Lemma dispatch_path_ok path w :
  page_ok w -> exists w', dispatch_path path w = (Ret tt, w') /\ page_ok w' /\ w_this w' = w_this w.
Proof.
  revert w. induction path as [|n path IH]; intros w Hok; simpl; [by exists w|].
  rewrite bind_dom_read. cbv beta.
  destruct (run_all_ok _ w Hok (click_listeners_ok w n Hok)) as (w1 & Hr & Hok1 & Hth1 & _).
  rewrite st_bind_run, Hr. cbv beta iota.
  destruct (IH w1 Hok1) as (w2 & Hr2 & Hok2 & Hth2). exists w2. split; [done|]. split; [done | congruence].
Qed.

Lemma dispatch_click_ok n w : page_ok w -> page_ok (exec (dispatch_click n) w).
Proof.
  intros Hok. unfold exec, dispatch_click. rewrite bind_dom_read. cbv beta.
  destruct (dispatch_path_ok (n :: ancestors (w_dom w) n) w Hok) as (w' & -> & Hok' & _). done.
Qed.

(** A timer turn takes a good closure off a good list. *)
Lemma next_task_ok w cb tm' :
  page_ok w -> next_task (w_timers w) = Some (cb, tm') ->
  closure_ok (w_this w) (w_dom w) cb /\ page_ok (mk_world (w_dom w) tm' (w_this w)).
Proof.
  intros (Hdom & Hl & Htm) Hn. unfold next_task in Hn.
  destruct (earliest (pending (w_timers w))) as [t|] eqn:E; [|done]. injection Hn as <- <-.
  pose proof (earliest_elem _ _ E) as Ht. rewrite Forall_forall in Htm.
  split; [by apply Htm|]. split; [done|]. split; [done|]. simpl. apply Forall_forall.
  intros x [_ Hx]%list_elem_of_filter. by apply Htm.
Qed.

(** ** Property updates *)

Lemma tag_at_tl d d' k : node_kind d' k = node_kind d k -> tag_at d' k = tag_at d k.
Proof.
  unfold node_kind, tag_at, node_at.
  destruct (d_nodes d !! k), (d_nodes d' !! k); simpl; try done. by intros [= -> _].
Qed.

Lemma node_kind_new d k x :
  content d k = Some (content_of x) -> node_kind d k = Some (n_tag x, n_attrs x, n_listeners x).
Proof. unfold content, node_kind. destruct (d_nodes d !! k); simpl; [|done]. by intros [= -> -> _ _ _ ->]. Qed.

Lemma node_children (d : dom closure) n y : d_nodes d !! n = Some y -> n_children y = children_of d n.
Proof. unfold children_of, node_at. by intros ->. Qed.

(** Filling in fields keeps the closures good. *)
Lemma closure_ok_this th th' d cl :
  (∀ s c, th !! s = Some c ->
     exists c', th' !! s = Some c' /\ (is_Some (_doomIframe c) -> is_Some (_doomIframe c'))) ->
  closure_ok th d cl -> closure_ok th' d cl.
Proof.
  intros Hth. destruct cl; simpl.
  - intros [c Hc]. destruct (Hth _ _ Hc) as (c' & ? & _). by eexists.
  - intros (c & i & Hc & Hi). destruct (Hth _ _ Hc) as (c' & Hc' & Hi').
    destruct Hi' as [i' ?]; [by eexists|]. by exists c', i'.
  - intros [[c Hc] Hn]. destruct (Hth _ _ Hc) as (c' & ? & _). split; [by eexists | done].
  - intros [c Hc]. destruct (Hth _ _ Hc) as (c' & ? & _). by eexists.
Qed.

Lemma fields_grow_insert th s c : th !! s = None -> fields_grow th (<[s := c]> th).
Proof. intros Hs s' c0 Hs'. assert (s' ≠ s) by congruence. rewrite lookup_insert_ne by done. by eexists. Qed.

Lemma fields_grow_update th s c c' :
  th !! s = Some c -> (is_Some (_doomIframe c) -> is_Some (_doomIframe c')) ->
  fields_grow th (<[s := c']> th).
Proof.
  intros Hs Hi s' c0 Hs'. destruct (decide (s' = s)) as [->|].
  - rewrite lookup_insert_eq. exists c'. split; [done|]. rewrite Hs in Hs'. by injection Hs' as <-.
  - rewrite lookup_insert_ne by done. by eexists.
Qed.

Lemma tag_at_lookup (d : dom closure) n x : d_nodes d !! n = Some x -> tag_at d n = Some (n_tag x).
Proof. unfold tag_at, node_at. by intros ->. Qed.

Lemma tag_at_of_tl d k t a l : node_kind d k = Some (t, a, l) -> tag_at d k = Some t.
Proof. unfold node_kind, tag_at, node_at. destruct (d_nodes d !! k); simpl; [|done]. by intros [= -> _ _]. Qed.

Lemma leaf_at th d n : dom_ok th d -> tag_at d n = Some Button -> children_of d n = [].
Proof.
  intros (_ & _ & Hleaf & _) Ht. unfold tag_at, node_at in Ht.
  destruct (d_nodes d !! n) as [x|] eqn:Hx; [|done].
  rewrite <-(node_children _ _ _ Hx). apply (Hleaf n x Hx). by injection Ht.
Qed.

(** A node a change creates, known by its tag and listeners. *)
Lemma new_node_ok th d n y x :
  d_nodes d !! n = Some y -> node_kind d n = Some (n_tag x, n_attrs x, n_listeners x) ->
  (n_tag x = Button -> children_of d n = []) ->
  (∀ ty cl, (ty, cl) ∈ n_listeners x -> closure_ok th d cl) ->
  (n_tag y = Button -> n_children y = []) /\ (∀ ty cl, (ty, cl) ∈ n_listeners y -> closure_ok th d cl).
Proof.
  unfold node_kind. intros Hy Htl Hb Hl. rewrite Hy in Htl. injection Htl as Ht _ Hls.
  by rewrite (node_children _ _ _ Hy), Ht, Hls.
Qed.

(** A change that adds nodes and fills in fields keeps the DOM part of
    the invariant when the old buttons stay leaves, the new nodes are
    good and every control it changed is good. *)
Lemma dom_ok_extend th th' d d' :
  dom_ok th d -> forest d' -> grows d d' -> fields_grow th th' ->
  (∀ s c', th' !! s = Some c' -> th !! s = Some c' \/ ctl_ok d' c') ->
  (∀ n, tag_at d n = Some Button -> children_of d' n = []) ->
  (∀ n y, d_nodes d' !! n = Some y -> d_nodes d !! n = None ->
     (n_tag y = Button -> n_children y = []) /\
     (∀ ty cl, (ty, cl) ∈ n_listeners y -> closure_ok th' d' cl)) ->
  dom_ok th' d'.
Proof.
  intros (Hf & Hroot & Hleaf & Hctl & Hlis) Hf' Hg Hth Hctl' Hold Hnew.
  split; [done|]. split; [|split; [|split]].
  - rewrite (proj1 Hg). exact (tag_at_grows _ _ _ _ Hg Hroot).
  - intros n y Hy Hb. destruct (d_nodes d !! n) as [x|] eqn:Hx; [|by apply (Hnew n y Hy Hx)].
    destruct (grows_old _ _ _ _ _ Hg Hx Hy) as [Ht _]. rewrite (node_children _ _ _ Hy).
    apply Hold. rewrite (tag_at_lookup _ _ _ Hx). congruence.
  - intros s c' Hs. destruct (Hctl' s c' Hs) as [Hs0|]; [|done].
    exact (ctl_ok_grows _ _ _ Hg (Hctl _ _ Hs0)).
  - intros n y ty cl Hy Hin. destruct (d_nodes d !! n) as [x|] eqn:Hx;
      [|exact (proj2 (Hnew n y Hy Hx) ty cl Hin)].
    destruct (grows_old _ _ _ _ _ Hg Hx Hy) as (_ & _ & Hl).
    eapply closure_ok_grows; [exact Hg|]. eapply closure_ok_this; [exact Hth|].
    eapply Hlis; [exact Hx | by rewrite <-Hl].
Qed.

Lemma timers_ok_extend th th' d d' ts :
  grows d d' -> fields_grow th th' ->
  Forall (fun t => closure_ok th d (t_cb t)) ts -> Forall (fun t => closure_ok th' d' (t_cb t)) ts.
Proof.
  intros Hg Hth Hts. eapply Forall_impl; [exact Hts|]. intros t Ht.
  eapply closure_ok_grows; [exact Hg|]. by eapply closure_ok_this.
Qed.

(** A node whose parent has it among its children exactly as before
    keeps its parent. *)
Lemma parent_same (d d' : dom closure) x :
  dom_wf d -> dom_wf d' -> (∀ p, x ∈ children_of d' p <-> x ∈ children_of d p) ->
  parentNode d' x = parentNode d x.
Proof.
  intros (_ & _ & Hco & _) (_ & _ & Hco' & _) Hx.
  destruct (parentNode d x) as [p|] eqn:Hp; [apply Hco', Hx, Hco, Hp|].
  destruct (parentNode d' x) as [p'|] eqn:Hp'; [|done].
  apply Hco', Hx, Hco in Hp'. congruence.
Qed.

(** The reveal moves the key to the end of the container and adds the
    iframe before it; the other nodes keep their places. *)
Lemma reveal_children_iff (d d' : dom closure) cont b i x :
  (∀ k, k ≠ cont -> children_of d' k = filter (fun y => y ≠ b) (children_of d k)) ->
  children_of d' cont = filter (fun y => y ≠ b) (children_of d cont) ++ [i; b] ->
  x ≠ b -> x ≠ i -> ∀ p, x ∈ children_of d' p <-> x ∈ children_of d p.
Proof.
  intros Ho Hc Hb Hi p. destruct (decide (p = cont)) as [->|].
  - rewrite Hc, elem_of_app, list_elem_of_filter, !elem_of_cons, elem_of_nil.
    split; [intros [[_ ?]|[?|[?|[]]]]; [done | congruence | congruence] | by left].
  - rewrite Ho, list_elem_of_filter by done. split; [by intros [_ ?] | done].
Qed.

Lemma keys_distinct_update th s c c' :
  th !! s = Some c -> _bossKey c' = _bossKey c -> keys_distinct th -> keys_distinct (<[s := c']> th).
Proof.
  intros Hs Hb Hd s1 s2 c1 c2 H1 H2 Heq.
  assert (Hl : ∀ s0 c0, <[s:=c']> th !! s0 = Some c0 ->
                 exists c0', th !! s0 = Some c0' /\ _bossKey c0 = _bossKey c0').
  { intros s0 c0 H0. destruct (decide (s0 = s)) as [->|].
    - rewrite lookup_insert_eq in H0. injection H0 as <-. by exists c.
    - rewrite lookup_insert_ne in H0 by done. by exists c0. }
  destruct (Hl _ _ H1) as (c1' & H1' & E1), (Hl _ _ H2) as (c2' & H2' & E2).
  apply (Hd s1 s2 c1' c2'); [done | done | congruence].
Qed.

Lemma keys_distinct_insert th s c' :
  th !! s = None -> (∀ s0 c0, th !! s0 = Some c0 -> _bossKey c0 ≠ _bossKey c') ->
  keys_distinct th -> keys_distinct (<[s := c']> th).
Proof.
  intros Hs Hnew Hd s1 s2 c1 c2 H1 H2 Heq.
  destruct (decide (s1 = s)) as [->|Hn1], (decide (s2 = s)) as [->|Hn2]; [done | | |].
  - rewrite lookup_insert_eq in H1. rewrite lookup_insert_ne in H2 by done. injection H1 as <-.
    exfalso. apply (Hnew _ _ H2). congruence.
  - rewrite lookup_insert_ne in H1 by done. rewrite lookup_insert_eq in H2. injection H2 as <-.
    exfalso. apply (Hnew _ _ H1). congruence.
  - rewrite lookup_insert_ne in H1, H2 by done. exact (Hd _ _ _ _ H1 H2 Heq).
Qed.

(** The reveal links the caller's key beside its new iframe and leaves
    the other controls' keys and iframes where they are. *)
Lemma reveal_links th d d' self c cont b i :
  dom_ok th d -> links_ok th d -> th !! self = Some c -> _container c = Some cont ->
  _bossKey c = Some b -> dom_wf d' -> (∀ k, is_Some (d_nodes d !! k) -> k ≠ i) -> grows d d' ->
  parentNode d' i = Some cont ->
  children_of d' cont = filter (fun y => y ≠ b) (children_of d cont) ++ [i; b] ->
  (∀ k, k ≠ cont -> children_of d' k = filter (fun y => y ≠ b) (children_of d k)) ->
  has_class d' "PcfDoomComponent_IFrame" i = true ->
  links_ok (<[self := revealed_fields c i]> th) d'.
Proof.
  intros Hd [Hl Hdis] Hc Hcont Hb Hwf' Hfresh Hg Hpi Hch Hcho Hcl.
  pose proof Hd as ((Hwf & _) & _ & _ & Hctl & _).
  split; [|by apply (keys_distinct_update _ _ c)].
  intros s c' Hs. destruct (decide (s = self)) as [->|Hne].
  - rewrite lookup_insert_eq in Hs. injection Hs as <-. intros b' Hb'. right.
    unfold revealed_fields, set_doomIframe, set_controlViewRendered in *; simpl in *.
    rewrite Hb in Hb'. injection Hb' as <-. exists cont, i. do 2 (split; [done|]). split; [|done].
    apply (proj1 (proj2 (proj2 Hwf'))). rewrite Hch. set_solver.
  - rewrite lookup_insert_ne in Hs by done. pose proof (Hctl s c' Hs) as Hc'.
    pose proof Hc' as (_ & _ & b' & _ & _ & _ & Hb' & _ & _ & _ & Htb' & Hti').
    pose proof (Hctl self c Hc) as (_ & _ & b0 & _ & _ & _ & Hb0 & _ & _ & _ & Htb & _).
    rewrite Hb in Hb0. injection Hb0 as <-.
    apply (key_linked_move d); [done | done | | | exact (Hl s c' Hs)].
    + intros b0 Hb0. rewrite Hb' in Hb0. injection Hb0 as <-.
      apply parent_same; [done | done |]. apply (reveal_children_iff d d' cont b i); [done | done | |].
      * intros ->. apply Hne, (Hdis s self c' c Hs Hc). congruence.
      * apply Hfresh, (tag_at_node _ _ _ Htb').
    + intros i0 Hi0. specialize (Hti' i0 Hi0).
      apply parent_same; [done | done |]. apply (reveal_children_iff d d' cont b i); [done | done | |].
      * intros ->. congruence.
      * apply Hfresh, (tag_at_node _ _ _ Hti').
Qed.

(** The reveal keeps a good page good. *)
Lemma reveal_page_ok w self c ctx :
  page_ok w -> w_this w !! self = Some c -> truthy (_controlViewRendered c) = false ->
  DoomEnablerOptionSet_raw ctx = Some 5%Z ->
  exists w', updateView self ctx w = (Ret tt, w') /\ page_ok w'.
Proof.
  intros Hok Hc Hflag Hraw. pose proof Hok as (Hd & Hl & Htm). pose proof Hd as (Hf & _ & _ & Hctl & _).
  destruct (Hctl self c Hc) as (root & cont & b & ctx0 & Hr & Hcont & Hb & Hctx & Htr & Htc & Htb & Hti).
  assert (Hpre : render_pre self w c cont b).
  { split; [apply Hf|]. do 3 (split; [done|]). split; [exact (tag_at_node _ _ _ Htc)|].
    split; [exact (tag_at_node _ _ _ Htb)|]. split; [intros ->; congruence|].
    exact (leaf_at _ _ _ Hd Htb). }
  destruct (updateView_reveal_spec self ctx w c cont b Hf Hpre Hflag Hraw)
    as (d' & Hrun & Hf' & Hpi & Hch & Hci & _ & Hcho & Htl & Hdoc & _ & _).
  set (i := d_next (w_dom w)) in *. set (th' := <[self := revealed_fields c i]> (w_this w)).
  exists (mk_world d' (setTimeout (AnimateIn self) 100 (w_timers w)).2 th'). split; [done|].
  assert (Hfresh : ∀ k, is_Some (d_nodes (w_dom w) !! k) -> k ≠ i).
  { intros k Hk ->. pose proof (proj1 (proj2 (proj1 Hf)) _ Hk). unfold i in *. lia. }
  assert (Hg : grows (w_dom w) d') by (split; [done | intros k Hk; apply Htl, Hfresh, Hk]).
  pose proof (node_kind_new _ _ _ Hci) as Hnew. simpl in Hnew.
  assert (Hth : fields_grow (w_this w) th') by (apply (fields_grow_update _ _ c); [done | by eexists]).
  split; cbn [w_dom w_this w_timers]; [eapply dom_ok_extend; [exact Hd | exact Hf' | exact Hg | exact Hth | | |] |].
  - intros s c' Hs. unfold th' in Hs. destruct (decide (s = self)) as [->|Hne]; [right | left].
    + rewrite lookup_insert_eq in Hs. injection Hs as <-. exists root, cont, b, ctx0.
      unfold revealed_fields, set_doomIframe, set_controlViewRendered; simpl.
      do 4 (split; [done|]). split; [exact (tag_at_grows _ _ _ _ Hg Htr)|].
      split; [exact (tag_at_grows _ _ _ _ Hg Htc)|]. split; [exact (tag_at_grows _ _ _ _ Hg Htb)|].
      intros ? [= <-]. exact (tag_at_of_tl _ _ _ _ _ Hnew).
    + by rewrite lookup_insert_ne in Hs.
  - intros n Hn. assert (n ≠ cont) by (intros ->; congruence).
    rewrite Hcho by done. by rewrite (leaf_at _ _ _ Hd Hn).
  - intros n y Hy Hn. assert (n = i) as ->.
    { destruct (decide (n = i)) as [|Hne]; [done|]. specialize (Htl n Hne).
      unfold node_kind in Htl. by rewrite Hy, Hn in Htl. }
    apply (new_node_ok _ _ _ _ render_iframe_src Hy Hnew); simpl; [discriminate | by intros ? ? ?%elem_of_nil].
  - split.
    { apply (reveal_links _ (w_dom w) _ _ _ cont b); try done; [apply Hf' |].
      rewrite (has_class_content _ _ _ _ Hci). vm_compute. reflexivity. }
    simpl. apply Forall_app. split; [exact (timers_ok_extend _ _ _ _ _ Hg Hth Htm)|].
    constructor; [|done]. exists (revealed_fields c i), i. unfold th'. by rewrite lookup_insert_eq.
Qed.

(** [updateView] on a mounted control keeps a good page good, on every
    branch. *)
Lemma updateView_page_ok w self c ctx :
  page_ok w -> w_this w !! self = Some c ->
  exists w', updateView self ctx w = (Ret tt, w') /\ page_ok w'.
Proof.
  intros Hok Hc.
  destruct (negb (truthy (_controlViewRendered c)) &&
            bool_decide (DoomEnablerOptionSet_raw ctx = Some 5%Z)) eqn:Hg.
  - apply andb_true_iff in Hg as [Hf Hv%bool_decide_eq_true]. apply negb_true_iff in Hf.
    exact (reveal_page_ok w self c ctx Hok Hc Hf Hv).
  - exists w. split; [exact (updateView_guard_false self w c Hc ctx Hg) | done].
Qed.

(** ** Mounting *)

(** The host's mount on a forest: the new [div] goes under the root, the
    fields are those of [mounted_fields], the old nodes keep their
    content, the old leaves other than the root stay leaves, and the only
    new nodes are the four the mount creates. *)
Lemma host_mount_spec m nx doc tm th self ctx :
  forest (mk_dom m nx doc) -> is_Some (m !! doc) ->
  exists d', host_mount self ctx (mk_world (mk_dom m nx doc) tm th) =
    (Ret tt, mk_world d' tm (<[self := mounted_fields nx ctx]> th)) /\
    forest d' /\ d_document d' = doc /\
    (∀ k, is_Some (m !! k) -> content d' k = content (mk_dom m nx doc) k /\
       parentNode d' k = parentNode (mk_dom m nx doc) k /\
       (k ≠ doc -> children_of (mk_dom m nx doc) k = [] -> children_of d' k = [])) /\
    content d' nx = Some (content_of (new_node Div)) /\
    content d' (nx + 1) = Some (content_of init_wrapper) /\
    content d' (nx + 1 + 1) = Some (content_of (init_button self)) /\
    content d' (nx + 1 + 2) = Some (content_of init_textarea) /\
    children_of d' (nx + 1 + 1) = [] /\ parentNode d' (nx + 1 + 1) = None /\
    (∀ k, is_Some (d_nodes d' !! k) ->
       is_Some (m !! k) \/ k = nx \/ k = (nx + 1)%N \/ k = (nx + 1 + 1)%N \/ k = (nx + 1 + 2)%N).
Proof.
  intros Hf Hdoc.
  assert (Hnx : m !! nx = None) by exact (createElement_fresh (mk_dom m nx doc) (proj1 Hf)).
  assert (Hdn : nx ≠ doc) by (intros ->; destruct Hdoc; congruence).
  set (d1 := mk_dom (<[nx := new_node Div]> m) (nx + 1) doc).
  assert (Hf1 : forest d1) by exact (inv_createElement Div (mk_dom m nx doc) Hf).
  assert (Hc1 : ∀ k, k ≠ nx -> d_nodes d1 !! k = m !! k) by (intros; simpl; by rewrite lookup_insert_ne).
  destruct (appendChild_leaf_ok d1 doc nx) as [d2 H2];
    [apply Hf1 | by rewrite Hc1 | simpl; rewrite lookup_insert_eq; by eexists | done
    | unfold children_of, node_at; simpl; by rewrite lookup_insert_eq |].
  pose proof (appendChild_effect _ _ _ _ (proj1 Hf1) H2) as ((F2 & F2n & F2d) & C2 & P2).
  assert (Hrun1 : host_mount self ctx (mk_world (mk_dom m nx doc) tm th) =
                  init self ctx nx (mk_world d2 tm (<[self := fresh_component]> th))).
  { unfold host_mount. rewrite bind_dom_create, bind_dom_read. cbn [w_dom d_document].
    fold d1. by rewrite (bind_dom_do _ _ d1 d2 _ _ H2). }
  assert (Hk2 : ∀ k, is_Some (d_nodes d2 !! k) <-> is_Some (m !! k) \/ k = nx).
  { intros k. rewrite F2. simpl. destruct (decide (k = nx)) as [->|].
    - rewrite lookup_insert_eq. split; [by right | intros _; by eexists].
    - rewrite lookup_insert_ne by done. split; [by left | by intros [?|?]]. }
  destruct (init_spec self ctx nx (mk_world d2 tm (<[self := fresh_component]> th)) fresh_component)
    as (d' & Hrun & _ & _ & Hpb & Hcw & Hcb & Hct & Hsame & Hchb & _ & Hdoc' & Hdom & Hcont);
    cbn [w_dom w_this w_timers] in *;
    [apply (inv_appendChild _ _ _ _ Hf1 H2) | apply lookup_insert_eq | apply Hk2; by right |].
  rewrite F2n, insert_insert_eq in *. change (d_next d1) with (nx + 1)%N in *.
  assert (Hc2 : ∀ k, is_Some (d_nodes d2 !! k) -> content d' k = content d1 k)
    by (intros k Hk; rewrite Hcont by done; apply (appendChild_content _ _ _ _ _ H2)).
  exists d'. split; [by rewrite Hrun1, Hrun|].
  split; [pose proof (host_mount_keeps forest self ctx (mk_world (mk_dom m nx doc) tm th) Hf) as Hf'; by rewrite Hrun1, Hrun in Hf'|].
  split; [by rewrite Hdoc', F2d|]. split; [|split].
  - intros k Hk. assert (k ≠ nx) by (intros ->; destruct Hk; congruence). split.
    + rewrite Hc2 by (apply Hk2; by left). unfold content. by rewrite Hc1.
    + split.
      { assert (parentNode d' k = parentNode d2 k) as ->
          by (unfold parentNode, node_at; rewrite Hsame; [done | done | apply Hk2; by left]).
        rewrite P2, decide_False by done. unfold parentNode, node_at; simpl. by rewrite lookup_insert_ne. }
      intros Hkd Hleaf.
      assert (children_of d' k = children_of d2 k) as ->
        by (unfold children_of, node_at; rewrite Hsame; [done | done | apply Hk2; by left]).
      rewrite C2, decide_False, app_nil_r by done.
      replace (children_of d1 k) with (children_of (mk_dom m nx doc) k)
        by (unfold children_of, node_at; simpl; by rewrite lookup_insert_ne).
      by rewrite Hleaf.
  - rewrite Hc2 by (apply Hk2; by right). unfold content. simpl. by rewrite lookup_insert_eq.
  - do 5 (split; [done|]). intros k Hk.
    apply Hdom in Hk as [[Hk| ->]%Hk2|Hk]; [by left | by right; left | by do 2 right].
Qed.

(** The new control's key is not in the page yet; the old controls'
    keys and iframes stay where they are. *)
Lemma mount_links th m nx doc d' self ctx :
  dom_ok th (mk_dom m nx doc) -> links_ok th (mk_dom m nx doc) -> th !! self = None ->
  grows (mk_dom m nx doc) d' ->
  (∀ k, is_Some (m !! k) -> parentNode d' k = parentNode (mk_dom m nx doc) k) ->
  parentNode d' (nx + 1 + 1) = None ->
  links_ok (<[self := mounted_fields nx ctx]> th) d'.
Proof.
  intros Hd [Hl Hdis] Hself Hg Hp Hpb. pose proof Hd as (Hf & _ & _ & Hctl & _).
  assert (Hnodes : ∀ s c, th !! s = Some c ->
    (∀ b, _bossKey c = Some b -> is_Some (m !! b)) /\ (∀ i, _doomIframe c = Some i -> is_Some (m !! i))).
  { intros s c Hs. destruct (Hctl s c Hs) as (_ & _ & b0 & _ & _ & _ & Hb0 & _ & _ & _ & Htb & Hti).
    split; [intros b Hb; rewrite Hb0 in Hb; injection Hb as <-; exact (tag_at_node _ _ _ Htb)|].
    intros i Hi. exact (tag_at_node _ _ _ (Hti i Hi)). }
  split.
  - intros s c' Hs. destruct (decide (s = self)) as [->|Hne].
    + rewrite lookup_insert_eq in Hs. injection Hs as <-. intros b [= <-]. by left.
    + rewrite lookup_insert_ne in Hs by done. destruct (Hnodes s c' Hs) as [Hb Hi].
      apply (key_linked_move (mk_dom m nx doc)); [exact (Hctl s c' Hs) | exact Hg | | | exact (Hl s c' Hs)].
      * intros b Hb0. exact (Hp b (Hb b Hb0)).
      * intros i Hi0. exact (Hp i (Hi i Hi0)).
  - apply keys_distinct_insert; [done | | done]. intros s0 c0 Hs0 Heq.
    destruct (Hctl s0 c0 Hs0) as (_ & _ & b0 & _ & _ & _ & Hb0 & _).
    rewrite Hb0 in Heq. unfold mounted_fields in Heq. simpl in Heq. injection Heq as ->.
    pose proof (proj1 (proj2 (proj1 Hf)) _ (proj1 (Hnodes s0 c0 Hs0) _ Hb0)). simpl in *. lia.
Qed.

(** Mounting a new control keeps a good page good. *)
Lemma mount_page_ok w self ctx :
  page_ok w -> w_this w !! self = None ->
  exists w', host_mount self ctx w = (Ret tt, w') /\ page_ok w'.
Proof.
  destruct w as [[m nx doc] tm th]. intros (Hd & Hl & Htm) Hself. cbn [w_dom w_this w_timers] in *.
  pose proof Hd as (Hf & Hroot & _). cbn [d_document] in Hroot.
  pose proof (tag_at_node _ _ _ Hroot) as Hdoc.
  destruct (host_mount_spec m nx doc tm th self ctx Hf Hdoc)
    as (d' & Hrun & Hf' & Hdoc' & Hold & Hcr & Hcw & Hcb & Hct & Hchb & Hpb & Hnew).
  eexists. split; [exact Hrun|].
  assert (Hg : grows (mk_dom m nx doc) d')
    by (split; [done | intros k Hk; apply node_kind_content, (proj1 (Hold k Hk))]).
  pose proof (fields_grow_insert th self (mounted_fields nx ctx) Hself) as Hth.
  split; cbn [w_dom w_this w_timers];
    [eapply dom_ok_extend; [exact Hd | exact Hf' | exact Hg | exact Hth | | |]
    | split; [apply (mount_links _ _ _ _ _ _ _ Hd Hl Hself Hg); [intros k Hk; apply (Hold k Hk) | done]
             | exact (timers_ok_extend _ _ _ _ _ Hg Hth Htm)]].
  - intros s c' Hs. destruct (decide (s = self)) as [->|Hne];
      [right | left; by rewrite lookup_insert_ne in Hs].
    rewrite lookup_insert_eq in Hs. injection Hs as <-.
    exists nx, (nx + 1)%N, (nx + 1 + 1)%N, ctx. do 4 (split; [done|]).
    split; [exact (tag_at_of_tl _ _ _ _ _ (node_kind_new _ _ _ Hcr))|].
    split; [exact (tag_at_of_tl _ _ _ _ _ (node_kind_new _ _ _ Hcw))|].
    split; [exact (tag_at_of_tl _ _ _ _ _ (node_kind_new _ _ _ Hcb))|]. by intros ? [=].
  - intros k Hk. pose proof (tag_at_node _ _ _ Hk) as Hks.
    apply (proj2 (proj2 (Hold k Hks))); [intros ->; congruence | exact (leaf_at _ _ _ Hd Hk)].
  - intros k y Hy Hk. destruct (Hnew k ltac:(by eexists)) as [[? ?]|[->|[->|[->| ->]]]];
      [simpl in Hk; congruence | | | |].
    + apply (new_node_ok _ _ _ _ _ Hy (node_kind_new _ _ _ Hcr));
        simpl; [discriminate | by intros ? ? ?%elem_of_nil].
    + apply (new_node_ok _ _ _ _ _ Hy (node_kind_new _ _ _ Hcw));
        simpl; [discriminate | by intros ? ? ?%elem_of_nil].
    + apply (new_node_ok _ _ _ _ _ Hy (node_kind_new _ _ _ Hcb)); [done|].
      simpl. intros ty cl [= _ ->]%list_elem_of_singleton. simpl. by rewrite lookup_insert_eq.
    + apply (new_node_ok _ _ _ _ _ Hy (node_kind_new _ _ _ Hct));
        simpl; [discriminate | by intros ? ? ?%elem_of_nil].
Qed.

(** ** Runs of the host *)

Lemma host_step_page_ok w e w' : page_ok w -> host_step w e = Some w' -> page_ok w'.
Proof.
  intros Hok. destruct e as [self ctx|self ctx|n| |self]; simpl.
  - case_decide as Hs; [intros [= <-] | discriminate].
    destruct (mount_page_ok w self ctx Hok Hs) as (w1 & Hrun & Hok1). unfold exec. by rewrite Hrun.
  - case_decide as Hs; [intros [= <-] | discriminate]. destruct Hs as [c Hc].
    destruct (updateView_page_ok w self c ctx Hok Hc) as (w1 & Hrun & Hok1).
    unfold exec. by rewrite (report_Ret _ _ _ Hrun).
  - destruct (connected _ _); [intros [= <-] | discriminate]. by apply dispatch_click_ok.
  - destruct (next_task _) as [[cb tm]|] eqn:Hn; [intros [= <-] | discriminate].
    destruct (next_task_ok w cb tm Hok Hn) as [Hcb Hok1].
    destruct (closure_step _ cb Hok1 Hcb) as (w1 & Hrun & Hok2 & _).
    unfold exec. by rewrite (report_Ret _ _ _ Hrun).
  - case_decide; [intros [= <-] | discriminate]. done.
Qed.

Lemma runs_keep_page_ok w w' : runs w w' -> page_ok w -> page_ok w'.
Proof. induction 1 as [w | w e w1 w' Hs _ IH]; intros Hw; [done|]. by eapply IH, host_step_page_ok. Qed.

Lemma empty_page_ok : page_ok empty_world.
Proof.
  split; [|by constructor]. split; [cbn; solve_forest|]. split; [done|].
  split; [|split]; [| intros s c Hs; cbn in Hs; by rewrite lookup_empty in Hs |].
  - intros n x Hx. cbn in Hx. apply lookup_singleton_Some in Hx as [_ <-]. discriminate.
  - intros n x ty cl Hx. cbn in Hx. apply lookup_singleton_Some in Hx as [_ <-].
    by intros ?%elem_of_nil.
Qed.

Lemma completes_Ret {A} (m : M A) w a w' : m w = (Ret a, w') -> completes m w = true.
Proof. unfold completes. by intros ->. Qed.

Lemma page_ok_calls_complete w : page_ok w -> host_calls_complete w.
Proof.
  intros Hok. pose proof Hok as [(_ & _ & _ & _ & Hlis) _]. split; [|split; [|split]].
  - intros self ctx Hs. destruct (mount_page_ok w self ctx Hok Hs) as (? & H & _).
    exact (completes_Ret _ _ _ _ H).
  - intros self ctx [c Hc]. destruct (updateView_page_ok w self c ctx Hok Hc) as (? & H & _).
    exact (completes_Ret _ _ _ _ H).
  - intros n x ty cl Hx Hin. destruct (closure_step w cl Hok (Hlis n x ty cl Hx Hin)) as (? & H & _).
    exact (completes_Ret _ _ _ _ H).
  - intros cb tm Hn. destruct (next_task_ok w cb tm Hok Hn) as [Hcb Hok1].
    destruct (closure_step _ cb Hok1 Hcb) as (? & H & _). exact (completes_Ret _ _ _ _ H).
Qed.

(** C26. On every page the host reaches from the empty page, with any
    number of controls mounted, updated, clicked and timed in any order,
    the page invariant holds: the DOM is a forest under the [body], buttons
    are leaves, every mounted control's fields point to nodes of the right
    tags, every listener and pending timer belongs to a mounted control
    whose references are live, and each control's boss key is either not
    in the tree or beside the control's iframe in its container. *)
Theorem runs_page_ok w : runs empty_world w -> page_ok w.
Proof. intros Hr. exact (runs_keep_page_ok _ _ Hr empty_page_ok). Qed.

(** C27. No exception escapes any call the host makes on a reachable
    page: [host_mount] of a new control (with [init]), [updateView] of a
    mounted one with any property bag, every listener of every node and
    the callback of every timer turn complete normally.  The [TypeError]
    paths of the code are dead, whatever the number of controls. *)
Theorem no_exception w : runs empty_world w -> host_calls_complete w.
Proof. intros Hr. exact (page_ok_calls_complete _ (runs_keep_page_ok _ _ Hr empty_page_ok)). Qed.

Lemma runs_page_ok_witness : page_ok two_page.
Proof. apply (runs_page_ok two_page). apply (run_events_runs _ two_controls). vm_compute. reflexivity. Defined.

Lemma no_exception_witness : completes (updateView 1 trigger) two_page = true.
Proof.
  apply (proj1 (proj2 (no_exception two_page
    ltac:(apply (run_events_runs _ two_controls); vm_compute; reflexivity)))).
  vm_compute. by eexists.
Defined.

(** ** The boss key's fallback is dead *)

(** A connected key hangs in its control's container, which is then in
    the page, beside the control's iframe. *)
Lemma connected_key_flies_out w self c b :
  page_ok w -> w_this w !! self = Some c -> _bossKey c = Some b -> connected (w_dom w) b = true ->
  flies_out self w.
Proof.
  intros ((Hf & Hroot & _ & Hctl & _) & [Hl _] & _) Hc Hb Hconn.
  destruct (Hctl self c Hc) as (_ & cont & b0 & _ & _ & Hcont & Hb0 & _ & _ & Htc & Htb & _).
  rewrite Hb in Hb0. injection Hb0 as <-.
  apply (connected_iff _ _ Hf) in Hconn as [Hdb|Hab]; [rewrite Hdb in Htb; congruence|].
  destruct (Hl self c Hc b Hb) as [Hn|(cont' & i & Hcont' & Hi & Hpb & Hpi & Hcl)];
    [by destruct (is_ancestor_parent _ _ _ Hab) as [? Hp]; rewrite Hp in Hn|].
  rewrite Hcont in Hcont'. injection Hcont' as <-.
  destruct (is_ancestor_parent_inv _ _ _ _ Hab Hpb) as [Hdc|Hac]; [rewrite <-Hdc in Htc; congruence|].
  destruct (is_ancestor_parent _ _ _ Hac) as [p Hp].
  destruct (querySelector_class_found _ _ _ _ Hf (anc_parent _ _ _ Hpi) Hcl) as (j & Hq & _ & Haj).
  destruct (querySelector_class_node _ _ _ _ Hq) as [x Hx].
  exists c, cont, p, j, x. do 6 (split; [done|]).
  exact (onBossKeyClick_flyout_run self w c cont p j x Hc Hcont Hp Hq Hx).
Qed.

(** C28. The fallback branch of [onBossKeyClick] (lines 149-152: no
    iframe found, the container removed at once and the decoy never shown
    again) is dead with any number of controls: on every page the host
    reaches from the empty page, whenever a control's boss key is in the
    page, so that a click can reach its listener, the container is in the
    page, its [querySelector('.PcfDoomComponent_IFrame')] finds an element
    inside it, and the handler runs the fly-out on that element. *)
Theorem boss_key_flies_out w self b :
  runs empty_world w -> (w_this w !! self ≫= _bossKey) = Some b -> connected (w_dom w) b = true ->
  flies_out self w.
Proof.
  intros Hr Hb Hconn. destruct (w_this w !! self) as [c|] eqn:Hc; [|discriminate].
  exact (connected_key_flies_out w self c b (runs_keep_page_ok _ _ Hr empty_page_ok) Hc Hb Hconn).
Qed.

Lemma boss_key_flies_out_witness : flies_out 1 two_page.
Proof.
  apply (boss_key_flies_out two_page 1 7);
    [apply (run_events_runs _ two_controls) | |]; vm_compute; reflexivity.
Defined.
